(** * hf-paper-rss: a shallow embedding of [generate_rss.py]

    The development follows the layout of the script: Python strings and
    the handful of [re] patterns the script uses, Python dictionaries and
    exceptions, the incremental cache ([load_processed_papers],
    [save_processed_papers]), the listing extractor ([PaperExtractor]), the
    detail-page extraction ([extract_abstracts]), the retry loops, the
    per-paper worker ([process_paper]), the collection loop of
    [scrape_papers], the feed ([generate_rss], [save_feed]) and [main].
    Definitions come first, the properties after them. *)

From stdpp Require Import gmap strings list fin_maps sorting.
From Stdlib Require Import ZArith NArith DecimalString.

Set Default Proof Using "Type".
Set Warnings "-register-all".

(** ** Python strings

    A Python [str] is a sequence of Unicode code points; a code point is a
    number.  Literals of the script are written with [lit]. *)

Module Str.

Definition char := N.
Definition str := list N.

Definition lit (s : string) : str :=
  Ascii.N_of_ascii <$> String.list_ascii_of_string s.

(** The double quote character, which a literal cannot hold. *)
Definition dquote : char := 34%N.

(** [str.isspace] on one code point, which is also what [\s] matches in a
    [str] pattern: the interpreter's Unicode white-space table. *)
Definition isspace (c : char) : bool :=
  ((9 <=? c) && (c <=? 13) || (28 <=? c) && (c <=? 32)
   || (c =? 133) || (c =? 160) || (c =? 5760)
   || (8192 <=? c) && (c <=? 8202)
   || (c =? 8232) || (c =? 8233) || (c =? 8239) || (c =? 8287)
   || (c =? 12288))%N.

Definition space : char := 32%N.

Fixpoint lstrip (s : str) : str :=
  match s with
  | c :: s' => if isspace c then lstrip s' else s
  | [] => []
  end.

Definition rstrip (s : str) : str := reverse (lstrip (reverse s)).

(** [s.strip()] *)
Definition strip (s : str) : str := rstrip (lstrip s).

(** [s.startswith(p)], returning what follows the prefix. *)
Fixpoint strip_prefix (p s : str) : option str :=
  match p, s with
  | [], _ => Some s
  | a :: p', b :: s' => if (a =? b)%N then strip_prefix p' s' else None
  | _ :: _, [] => None
  end.

(** [needle in hay] for two strings. *)
Fixpoint contains (needle hay : str) : bool :=
  match strip_prefix needle hay with
  | Some _ => true
  | None => match hay with
            | [] => false
            | _ :: hay' => contains needle hay'
            end
  end.

(** [a < b] on strings: lexicographic on code points. *)
Fixpoint ltb (a b : str) : bool :=
  match a, b with
  | _, [] => false
  | [], _ :: _ => true
  | x :: a', y :: b' =>
      if (x <? y)%N then true
      else if (y <? x)%N then false
      else ltb a' b'
  end.

(** [str(n)] for an integer. *)
Definition of_Z (z : Z) : str := lit (NilZero.string_of_int (Z.to_int z)).

(** [s.replace(old, new)] for a non-empty [old]: left to right, without
    overlap.  [skip] counts the characters of the current occurrence that
    are still to be passed over. *)
Fixpoint replace_go (old new : str) (skip : nat) (s : str) : str :=
  match s with
  | [] => []
  | c :: s' =>
      match skip with
      | S k => replace_go old new k s'
      | O => match strip_prefix old s with
             | Some _ => new ++ replace_go old new (length old - 1) s'
             | None => c :: replace_go old new 0 s'
             end
      end
  end.

Definition replace (old new s : str) : str := replace_go old new 0 s.

(** [l[:k]] for an integer [k] that may be negative. *)
Definition slice_to {A} (k : Z) (l : list A) : list A :=
  if (k <? 0)%Z then take (length l - Z.to_nat (- k)) l
  else take (Z.to_nat k) l.

End Str.

Export Str.

(** ** The fragment of [re] the script uses

    Every pattern of the script is a sequence of literals, starred or
    plussed character classes (greedy or lazy), an anchor and at most one
    group.  The matcher backtracks in the order of [re]: a greedy repetition
    tries the longest run first, a lazy one the shortest. *)

Module Re.

Inductive node :=
| Lit (s : str)                 (* literal text *)
| Star (p : char → bool)        (* [c]*  *)
| Plus (p : char → bool)        (* [c]+  *)
| LazyStar (p : char → bool)    (* [c]*? *)
| Bol                           (* ^ without MULTILINE *)
| Open                          (* ( of group 1 *)
| Close.                        (* ) of group 1 *)

Definition any : char → bool := λ _, true.
Definition other_than (c : char) : char → bool := λ x, negb (x =? c)%N.

Section Backtrack.
Context {R : Type}.

Fixpoint greedy (p : char → bool) (k : str → option R) (s : str) : option R :=
  match s with
  | c :: s' =>
      if p c then
        match greedy p k s' with
        | Some r => Some r
        | None => k s
        end
      else k s
  | [] => k s
  end.

Fixpoint lazy (p : char → bool) (k : str → option R) (s : str) : option R :=
  match k s with
  | Some r => Some r
  | None =>
      match s with
      | c :: s' => if p c then lazy p k s' else None
      | [] => None
      end
  end.
End Backtrack.

(** [run r whole g_open grp s] matches [r] at the head of [s]; [whole] is
    the subject string (for the anchor), [g_open] the input where the group
    opened and [grp] the text of the group once it closed.  The result is
    the group and the input left after the match. *)
Fixpoint run (r : list node) (whole g_open : str) (grp : option str) (s : str)
  : option (option str * str) :=
  match r with
  | [] => Some (grp, s)
  | Lit l :: r' =>
      match strip_prefix l s with
      | Some s' => run r' whole g_open grp s'
      | None => None
      end
  | Star p :: r' => greedy p (run r' whole g_open grp) s
  | Plus p :: r' =>
      match s with
      | c :: s' => if p c then greedy p (run r' whole g_open grp) s' else None
      | [] => None
      end
  | LazyStar p :: r' => lazy p (run r' whole g_open grp) s
  | Bol :: r' =>
      if (length s =? length whole)%nat then run r' whole g_open grp s else None
  | Open :: r' => run r' whole s grp s
  | Close :: r' =>
      run r' whole g_open (Some (take (length g_open - length s) g_open)) s
  end.

Definition match_at (r : list node) (whole s : str) : option (option str * str) :=
  run r whole [] None s.

(** A match object: where it starts, its group 1, and the input after its
    end ([whole[m.end():]]). *)
Record match_obj := { m_start : nat; m_group : option str; m_rest : str }.

Fixpoint search_from (r : list node) (whole : str) (pos : nat) (s : str)
  : option match_obj :=
  match match_at r whole s with
  | Some (g, rest) => Some {| m_start := pos; m_group := g; m_rest := rest |}
  | None =>
      match s with
      | [] => None
      | _ :: s' => search_from r whole (S pos) s'
      end
  end.

(** [re.search(r, s)] *)
Definition search (r : list node) (s : str) : option match_obj :=
  search_from r s 0 s.

(** [re.findall(r, s)] for a pattern with one group, and [re.sub(r, repl, s)]:
    the matches from left to right, without overlap.  [skip] counts the
    characters of the current match still to be passed over.  No pattern of
    the script matches the empty string; a match of no character is passed
    over like a failed one. *)
Fixpoint findall_go (r : list node) (whole : str) (skip : nat) (s : str)
  : list str :=
  match s with
  | [] => []
  | _ :: s' =>
      match skip with
      | S k => findall_go r whole k s'
      | O =>
          match match_at r whole s with
          | Some (g, rest) =>
              match length s - length rest with
              | O => findall_go r whole 0 s'
              | S k => default [] g :: findall_go r whole k s'
              end
          | None => findall_go r whole 0 s'
          end
      end
  end.

Definition findall (r : list node) (s : str) : list str := findall_go r s 0 s.

Fixpoint sub_go (r : list node) (repl whole : str) (skip : nat) (s : str) : str :=
  match s with
  | [] => []
  | c :: s' =>
      match skip with
      | S k => sub_go r repl whole k s'
      | O =>
          match match_at r whole s with
          | Some (_, rest) =>
              match length s - length rest with
              | O => c :: sub_go r repl whole 0 s'
              | S k => repl ++ sub_go r repl whole k s'
              end
          | None => c :: sub_go r repl whole 0 s'
          end
      end
  end.

Definition sub (r : list node) (repl s : str) : str := sub_go r repl s 0 s.

End Re.

(** ** Python values, dictionaries and exceptions *)

Module Py.

(** The values the script keeps in a paper record or a cache entry: [None],
    a string, a list of strings (the authors) or a nested dictionary (the
    translations). *)
Inductive value :=
| VNone
| VStr (s : str)
| VList (l : list str)
| VDict (d : gmap str value).

Abbreviation dict := (gmap str value).

(** [bool(v)] *)
Definition truthy (v : value) : bool :=
  match v with
  | VNone => false
  | VStr s => bool_decide (s ≠ [])
  | VList l => bool_decide (l ≠ [])
  | VDict d => bool_decide (d ≠ ∅)
  end.

(** [v != s] for a string literal [s]. *)
Definition differs_from (v : value) (s : str) : bool :=
  match v with
  | VStr t => bool_decide (t ≠ s)
  | _ => true
  end.

Inductive exn_kind := KeyErr | TypeErr | AttributeErr | ValueErr | PlainException.

(** An exception object; [message] is what [str(e)] gives. *)
Record exn := Exn { kind : exn_kind; message : str }.

Definition KeyError (k : str) : exn := Exn KeyErr (lit "'" ++ k ++ lit "'").
Definition TypeError (msg : string) : exn := Exn TypeErr (lit msg).
Definition AttributeError (msg : string) : exn := Exn AttributeErr (lit msg).
Definition ValueError (msg : string) : exn := Exn ValueErr (lit msg).
Definition Exception (msg : str) : exn := Exn PlainException msg.

Inductive result (A : Type) :=
| Ok (a : A)
| Raise (e : exn).
Global Arguments Ok {A} a.
Global Arguments Raise {A} e.

Global Instance result_ret : MRet result := @Ok.
Global Instance result_bind : MBind result := λ A B f m,
  match m with
  | Ok a => f a
  | Raise e => Raise e
  end.
Global Instance result_fmap : FMap result := λ A B f m,
  match m with
  | Ok a => Ok (f a)
  | Raise e => Raise e
  end.

(** [d[k]] *)
Definition getitem (d : dict) (k : str) : result value :=
  match d !! k with
  | Some v => Ok v
  | None => Raise (KeyError k)
  end.

(** [d.get(k, dflt)] *)
Definition get (d : dict) (k : str) (dflt : value) : value :=
  default dflt (d !! k).

(** [v.get(k, dflt)] on a value that need not be a dictionary. *)
Definition vget (v : value) (k : str) (dflt : value) : result value :=
  match v with
  | VDict d => Ok (get d k dflt)
  | _ => Raise (AttributeError "object has no attribute 'get'")
  end.

(** [v[:50]], evaluated for a log line: only whether it raises matters. *)
Definition subscriptable (v : value) : result unit :=
  match v with
  | VStr _ | VList _ => Ok ()
  | VNone | VDict _ => Raise (TypeError "object is not subscriptable")
  end.

(** The value under ['url'] where the script uses it as a dictionary key
    or hands it to [urlopen].  The script only ever stores strings there,
    and the properties below are stated for such records.  A list or a
    dictionary is unhashable and raises [TypeError]; [None], which Python
    would accept as a key, is reported in the same way, so that the maps
    of the cache stay keyed by strings. *)
Definition as_str (v : value) : result str :=
  match v with
  | VStr s => Ok s
  | _ => Raise (TypeError "expected str")
  end.

End Py.

Export Py.

(** ** The incremental cache *)

Module Cache.

(** The timestamp map [processed_dict]: a Python dictionary keeps its keys
    in insertion order, and [sorted] is stable, so the order is part of the
    model. *)
Abbreviation timestamps := (list (str * str)).

(** [paper_cache]: identity to cache entry. *)
Abbreviation entries := (gmap str dict).

(** The JSON object of the cache file, each key possibly absent. *)
Record file_data := {
  f_version : option Z;
  f_papers : option timestamps;
  f_paper_cache : option entries;
  f_last_updated : option str }.

(** The cache file: not there, there but not a JSON object that can be read,
    or a JSON object. *)
Inductive file :=
| Missing
| Unreadable
| Json (d : file_data).

(** [url in processed_dict] *)
Definition known (url : str) (processed_dict : timestamps) : bool :=
  bool_decide (url ∈ processed_dict.*1).

(** [processed_dict[url]] for a known [url]. *)
Fixpoint timestamp_of (url : str) (processed_dict : timestamps) : option str :=
  match processed_dict with
  | [] => None
  | (k, t) :: rest => if bool_decide (k = url) then Some t else timestamp_of url rest
  end.

(** [sorted(items, key=lambda x: x[1], reverse=True)]: descending on the
    timestamp, items of equal timestamp in their original order. *)
Fixpoint insert_desc (x : str * str) (l : timestamps) : timestamps :=
  match l with
  | [] => [x]
  | y :: l' => if Str.ltb x.2 y.2 then y :: insert_desc x l' else x :: y :: l'
  end.

Definition sorted_desc (l : timestamps) : timestamps := foldr insert_desc [] l.

Section Cache.
Variable MAX_PROCESSED_RECORDS : Z.
Variable CACHE_VERSION : Z.
Variable TARGET_LANGUAGES : list str.

(** [load_processed_papers()], lines 50-75. *)
Definition load_processed_papers (f : file) : timestamps * entries :=
  match f with
  | Missing => ([], ∅)
  | Unreadable => ([], ∅)
  | Json data =>
      let cache_version := default 1%Z (f_version data) in
      if bool_decide (cache_version ≠ CACHE_VERSION) then ([], ∅)
      else (default [] (f_papers data), default ∅ (f_paper_cache data))
  end.

(** [{lang: paper.get(f'<prefix>{lang}', '') for lang in TARGET_LANGUAGES}] *)
Definition per_language (prefix : string) (paper : dict) : dict :=
  foldl (λ d lang, <[lang := get paper (lit prefix ++ lang) (VStr [])]> d)
        ∅ TARGET_LANGUAGES.

(** The entry built at lines 87-102. *)
Definition cache_entry (paper : dict) : result dict :=
  title ← getitem paper (lit "title");
  url ← getitem paper (lit "url");
  Ok (<[lit "title" := title]> $
        <[lit "url" := url]> $
        <[lit "institution" := get paper (lit "institution") (VStr (lit "N/A"))]> $
        <[lit "abstract" := get paper (lit "abstract") (VStr [])]> $
        <[lit "abstract_short" := get paper (lit "abstract_short") (VStr [])]> $
        <[lit "arxiv_abs" := get paper (lit "arxiv_abs") VNone]> $
        <[lit "arxiv_pdf" := get paper (lit "arxiv_pdf") VNone]> $
        <[lit "authors" := get paper (lit "authors") (VList [])]> $
        <[lit "pub_date" := get paper (lit "pub_date") VNone]> $
        <[lit "translations" :=
            VDict (<[lit "descriptions" := VDict (per_language "description_" paper)]> $
                   <[lit "abstract_fulls" := VDict (per_language "abstractFull_" paper)]> ∅)]>
        ∅).

(** The insertion loop, lines 83-103: one step for one paper. *)
Definition merge_one (current_time : str) (c : timestamps * entries)
    (paper : dict) : result (timestamps * entries) :=
  let '(processed_dict, paper_cache) := c in
  key ← getitem paper (lit "url");
  url ← as_str key;
  if known url processed_dict then Ok (processed_dict, paper_cache)
  else
    entry ← cache_entry paper;
    Ok (processed_dict ++ [(url, current_time)], <[url := entry]> paper_cache).

Fixpoint merge (current_time : str) (papers : list dict)
    (c : timestamps * entries) : result (timestamps * entries) :=
  match papers with
  | [] => Ok c
  | paper :: papers' =>
      c' ← merge_one current_time c paper;
      merge current_time papers' c'
  end.

(** The clean-up, lines 107-115.  The comprehension runs over a set, whose
    order Python does not fix; [elements] stands for that order and the
    properties below read the result by look-up only. *)
Definition prune (c : timestamps * entries) : timestamps * entries :=
  let '(processed_dict, paper_cache) := c in
  if (MAX_PROCESSED_RECORDS <? Z.of_nat (length processed_dict))%Z then
    let sorted_items := sorted_desc processed_dict in
    let kept_urls : gset str :=
      list_to_set (slice_to MAX_PROCESSED_RECORDS sorted_items).*1 in
    (omap (λ url, (url,.) <$> timestamp_of url processed_dict)
          (elements kept_urls),
     filter (λ kv, kv.1 ∈ kept_urls) paper_cache)
  else (processed_dict, paper_cache).

(** The write, lines 117-127.  [written] tells whether opening and dumping
    went through; when they raise, the exception is logged and the file is
    taken to be as it was. *)
Definition persist (current_time : str) (written : bool)
    (c : timestamps * entries) (f : file) : file :=
  if written then
    Json {| f_version := Some CACHE_VERSION;
            f_papers := Some c.1;
            f_paper_cache := Some c.2;
            f_last_updated := Some current_time |}
  else f.

(** [save_processed_papers(papers, processed_dict, paper_cache)]; the
    result is the cache file afterwards, together with the cache as
    written. *)
Definition save_processed_papers (current_time : str) (written : bool)
    (papers : list dict) (processed_dict : timestamps) (paper_cache : entries)
    (f : file) : result (timestamps * entries * file) :=
  merged ← merge current_time papers (processed_dict, paper_cache);
  let pruned := prune merged in
  Ok (pruned, persist current_time written pruned f).

End Cache.

End Cache.

(** ** The listing extractor, [PaperExtractor] *)

Module Extractor.

(** What [HTMLParser.feed] hands to the handlers.  The tokenizer belongs to
    the standard library; an attribute written without a value comes with
    [None]. *)
Inductive event :=
| StartTag (tag : str) (attrs : list (str * option str))
| EndTag (tag : str)
| Data (data : str).

(** The fields set by [__init__]; [current_paper] is [None] or a
    dictionary. *)
Record parser := {
  papers : list dict;
  current_paper : option dict;
  in_article : bool;
  in_h3 : bool;
  in_a : bool;
  capture_text : bool;
  current_text : str;
  in_institution_span : bool;
  institution_text : str }.

Definition init : parser :=
  {| papers := []; current_paper := None; in_article := false; in_h3 := false;
     in_a := false; capture_text := false; current_text := [];
     in_institution_span := false; institution_text := [] |}.

Definition set_papers (v : list dict) (s : parser) : parser :=
  {| papers := v; current_paper := current_paper s;
     in_article := in_article s; in_h3 := in_h3 s; in_a := in_a s;
     capture_text := capture_text s; current_text := current_text s;
     in_institution_span := in_institution_span s;
     institution_text := institution_text s |}.

Definition set_current_paper (v : option dict) (s : parser) : parser :=
  {| papers := papers s; current_paper := v; in_article := in_article s;
     in_h3 := in_h3 s; in_a := in_a s; capture_text := capture_text s;
     current_text := current_text s;
     in_institution_span := in_institution_span s;
     institution_text := institution_text s |}.

Definition set_in_article (v : bool) (s : parser) : parser :=
  {| papers := papers s; current_paper := current_paper s; in_article := v;
     in_h3 := in_h3 s; in_a := in_a s; capture_text := capture_text s;
     current_text := current_text s;
     in_institution_span := in_institution_span s;
     institution_text := institution_text s |}.

Definition set_in_h3 (v : bool) (s : parser) : parser :=
  {| papers := papers s; current_paper := current_paper s;
     in_article := in_article s; in_h3 := v; in_a := in_a s;
     capture_text := capture_text s; current_text := current_text s;
     in_institution_span := in_institution_span s;
     institution_text := institution_text s |}.

Definition set_in_a (v : bool) (s : parser) : parser :=
  {| papers := papers s; current_paper := current_paper s;
     in_article := in_article s; in_h3 := in_h3 s; in_a := v;
     capture_text := capture_text s; current_text := current_text s;
     in_institution_span := in_institution_span s;
     institution_text := institution_text s |}.

Definition set_capture_text (v : bool) (s : parser) : parser :=
  {| papers := papers s; current_paper := current_paper s;
     in_article := in_article s; in_h3 := in_h3 s; in_a := in_a s;
     capture_text := v; current_text := current_text s;
     in_institution_span := in_institution_span s;
     institution_text := institution_text s |}.

Definition set_current_text (v : str) (s : parser) : parser :=
  {| papers := papers s; current_paper := current_paper s;
     in_article := in_article s; in_h3 := in_h3 s; in_a := in_a s;
     capture_text := capture_text s; current_text := v;
     in_institution_span := in_institution_span s;
     institution_text := institution_text s |}.

Definition set_in_institution_span (v : bool) (s : parser) : parser :=
  {| papers := papers s; current_paper := current_paper s;
     in_article := in_article s; in_h3 := in_h3 s; in_a := in_a s;
     capture_text := capture_text s; current_text := current_text s;
     in_institution_span := v; institution_text := institution_text s |}.

Definition set_institution_text (v : str) (s : parser) : parser :=
  {| papers := papers s; current_paper := current_paper s;
     in_article := in_article s; in_h3 := in_h3 s; in_a := in_a s;
     capture_text := capture_text s; current_text := current_text s;
     in_institution_span := in_institution_span s; institution_text := v |}.

(** [dict(attrs).get(name, '')]: the last occurrence of [name] counts; the
    result is [None] for an attribute without a value. *)
Fixpoint attrs_get (name : str) (attrs : list (str * option str)) : option str :=
  match attrs with
  | [] => Some []
  | (k, v) :: rest =>
      if bool_decide (name ∈ rest.*1) then attrs_get name rest
      else if bool_decide (k = name) then v
      else attrs_get name rest
  end.

(** [self.current_paper[k] = v] *)
Definition assign (k : str) (v : value) (s : parser) : result parser :=
  match current_paper s with
  | Some d => Ok (set_current_paper (Some (<[k := v]> d)) s)
  | None => Raise (TypeError "'NoneType' object does not support item assignment")
  end.

(** [handle_starttag], lines 145-167: four [if] statements in a row. *)
Definition handle_starttag (tag : str) (attrs : list (str * option str))
    (s : parser) : result parser :=
  let class_name := attrs_get (lit "class") attrs in
  let s :=
    if bool_decide (tag = lit "article")
    then set_current_paper (Some ∅) (set_in_article true s)
    else s in
  let s :=
    if in_article s && bool_decide (tag = lit "h3") then set_in_h3 true s else s in
  s ← (if in_h3 s && bool_decide (tag = lit "a") then
         let s := set_in_a true s in
         let href := attrs_get (lit "href") attrs in
         s ← match href with
             | Some (c :: h) => assign (lit "url") (VStr (lit "https://huggingface.co" ++ c :: h)) s
             | _ => Ok s
             end;
         Ok (set_current_text [] (set_capture_text true s))
       else Ok s);
  if in_article s && negb (in_h3 s) && negb (in_a s) && bool_decide (tag = lit "span")
  then
    match class_name with
    | Some c =>
        if contains (lit "truncate") c && contains (lit "font-medium") c
        then Ok (set_institution_text [] (set_in_institution_span true s))
        else Ok s
    | None => Raise (TypeError "argument of type 'NoneType' is not iterable")
    end
  else Ok s.

(** The two separator glyphs of line 186 as the file spells them: the first
    is the two code points U+00AC U+2211. *)
Definition separators : list str := [[172; 8721]%N; lit "."].

(** The affiliation clean-up of lines 185-187. *)
Definition clean_institution (institution_text : str) : str :=
  let institution := strip (Re.sub [Re.Plus isspace] (lit " ") institution_text) in
  if negb (truthy (VStr institution)) || bool_decide (institution ∈ separators)
  then lit "N/A"
  else institution.

(** [d.get(k)] used as a condition. *)
Definition has (d : dict) (k : string) : bool := truthy (get d (lit k) VNone).

(** [handle_endtag], lines 169-192. *)
Definition handle_endtag (tag : str) (s : parser) : result parser :=
  s ← (if bool_decide (tag = lit "a") && in_a s then
         let s := set_in_a false s in
         s ← (if truthy (VStr (current_text s))
              then assign (lit "title") (VStr (strip (current_text s))) s
              else Ok s);
         Ok (set_capture_text false s)
       else Ok s);
  let s :=
    if bool_decide (tag = lit "h3") && in_h3 s then set_in_h3 false s else s in
  let s :=
    if bool_decide (tag = lit "span") && in_institution_span s
    then set_in_institution_span false s else s in
  if bool_decide (tag = lit "article") && in_article s then
    let s :=
      match current_paper s with
      | Some d =>
          if truthy (VDict d) && has d "title" && has d "url" then
            let institution := clean_institution (institution_text s) in
            let d := <[lit "institution" := VStr institution]> d in
            set_papers (papers s ++ [d]) (set_current_paper (Some d) s)
          else s
      | None => s
      end in
    Ok (set_institution_text [] (set_current_paper None (set_in_article false s)))
  else Ok s.

(** [handle_data], lines 194-199. *)
Definition handle_data (data : str) (s : parser) : parser :=
  let s := if capture_text s then set_current_text (current_text s ++ data) s else s in
  if in_institution_span s then set_institution_text (institution_text s ++ data) s
  else s.

Definition handle (e : event) (s : parser) : result parser :=
  match e with
  | StartTag tag attrs => handle_starttag tag attrs s
  | EndTag tag => handle_endtag tag s
  | Data data => Ok (handle_data data s)
  end.

(** [parser.feed(html)] on the events of [html]: the parser as the last
    handler left it, and the exception if a handler raised. *)
Fixpoint feed (events : list event) (s : parser) : parser * option exn :=
  match events with
  | [] => (s, None)
  | e :: rest =>
      match handle e s with
      | Ok s' => feed rest s'
      | Raise x => (s, Some x)
      end
  end.

End Extractor.

(** ** Detail pages: [extract_abstracts] *)

Module Enricher.

Import Re.

Definition gt : char := 62%N.

(** The patterns of lines 227-268, in the order in which they appear. *)
Definition short_re : list node :=
  [Lit (lit "<div"); Star (other_than gt); Lit (lit "class=" ++ [dquote]);
   Star (other_than dquote); Lit (lit "pb-8 pr-4 md:pr-16");
   Star (other_than dquote); Lit [dquote]; Star (other_than gt); Lit [gt];
   Open; LazyStar any; Close; Lit (lit "</div>")].
Definition tag_re : list node := [Lit (lit "<"); Plus (other_than gt); Lit [gt]].
Definition abstract_re : list node :=
  [Lit (lit "<h2"); Star (other_than gt); Lit (lit ">Abstract</h2>")].
Definition h2_re : list node := [Lit (lit "<h2")].
Definition p_re : list node :=
  [Lit (lit "<p"); Star (other_than gt); Lit [gt];
   Open; LazyStar any; Close; Lit (lit "</p>")].
Definition summary_re : list node :=
  [Bol; Lit (lit "AI-generated summary"); Star isspace].
Definition authors_re : list node :=
  [Lit ([dquote] ++ lit "authors" ++ [dquote] ++ lit ":"); Star isspace;
   Lit (lit "["); Open; LazyStar any; Close; Lit (lit "]")].
Definition name_re : list node :=
  [Lit ([dquote] ++ lit "name" ++ [dquote] ++ lit ":"); Star isspace;
   Lit [dquote]; Open; Plus (other_than dquote); Close; Lit [dquote]].

(** The dictionary [result] of [extract_abstracts]; its five keys are
    fixed. *)
Record details := {
  abstract_short : str;
  abstract_full : str;
  arxiv_abs : option str;
  arxiv_pdf : option str;
  authors : list str }.

Definition not_available : str := lit "[Not available]".

Section Enricher.
(** What [\d] matches: the decimal digits of the interpreter's Unicode
    tables. *)
Variable isdecimal : char → bool.

Definition paper_id_re : list node :=
  [Lit (lit "papers/"); Open; Plus isdecimal; Lit (lit "."); Plus isdecimal; Close].

(** Lines 226-231. *)
Definition extract_short (html : str) : str :=
  match search short_re html with
  | Some match_short => strip (sub tag_re [] (default [] (m_group match_short)))
  | None => not_available
  end.

(** Lines 233-248, given the short abstract already found. *)
Definition extract_full (html : str) (short : str) : str :=
  match search abstract_re html with
  | Some abstract_match =>
      let after := m_rest abstract_match in
      match search h2_re after with
      | Some next_h2 =>
          let p_tags := findall p_re (take (m_start next_h2) after) in
          if bool_decide (2 ≤ length p_tags) then
            sub summary_re [] (strip (sub tag_re [] (default [] (p_tags !! 1))))
          else short
      | None => short
      end
  | None => short
  end.

(** Lines 250-265. *)
Definition extract_authors (html : str) : list str :=
  let html_decoded := replace (lit "&quot;") [dquote] html in
  match search authors_re html_decoded with
  | Some paper_authors_match =>
      let author_names := findall name_re (default [] (m_group paper_authors_match)) in
      filter (λ name, name ≠ []) (take 5 author_names)
  | None => []
  end.

(** [extract_abstracts(html)] *)
Definition extract_abstracts (html : str) : details :=
  let short := extract_short html in
  let pid := search paper_id_re html ≫= m_group in
  {| abstract_short := short;
     abstract_full := extract_full html short;
     arxiv_abs := (λ pid, lit "https://arxiv.org/abs/" ++ pid) <$> pid;
     arxiv_pdf := (λ pid, lit "https://arxiv.org/pdf/" ++ pid ++ lit ".pdf") <$> pid;
     authors := extract_authors html |}.

End Enricher.

End Enricher.

(** ** Workers: retry loops, [process_paper] and [scrape_papers] *)

Module Pipeline.

Import Cache Enricher.

(** A call to a collaborator outside the program. *)
Inductive call :=
| Get (url : str)                        (* requests.get + raise_for_status *)
| Translate (text : value) (lang : str). (* GoogleTranslator(...).translate *)

(** What one worker can change: the paper dictionary it was handed, which
    it updates in place, and the calls it has made so far. *)
Record world := { paper : dict; trace : list call }.

(** A computation that reads and writes the world and may raise; what was
    written before an exception stays written. *)
Definition M (A : Type) : Type := world → result A * world.

Global Instance M_ret : MRet M := λ A a w, (Ok a, w).
Global Instance M_bind : MBind M := λ A B f m w,
  match m w with
  | (Ok a, w') => f a w'
  | (Raise e, w') => (Raise e, w')
  end.

Global Instance M_fmap : FMap M := λ A B f m w,
  match m w with
  | (Ok a, w') => (Ok (f a), w')
  | (Raise e, w') => (Raise e, w')
  end.

Definition raise {A} (e : exn) : M A := λ w, (Raise e, w).

(** [try: m except Exception as e: h e] *)
Definition catch {A} (m : M A) (h : exn → M A) : M A := λ w,
  match m w with
  | (Ok a, w') => (Ok a, w')
  | (Raise e, w') => h e w'
  end.

Definition lift {A} (r : result A) : M A := λ w, (r, w).

(** [paper[k]], [paper[k] = v] and [paper.update(kvs)] *)
Definition paper_get (k : string) : M value := λ w, (getitem (paper w) (lit k), w).
Definition paper_set (k : str) (v : value) : M unit := λ w,
  (Ok (), {| paper := <[k := v]> (paper w); trace := trace w |}).
Definition paper_update (kvs : list (str * value)) : M unit := λ w,
  (Ok (), {| paper := foldl (λ d kv, <[kv.1 := kv.2]> d) (paper w) kvs;
             trace := trace w |}).

(** [paper['title'][:50]] inside a log line. *)
Definition log_title (d : dict) : result unit :=
  getitem d (lit "title") ≫= subscriptable.

(** A computation that only reads the paper. *)
Definition with_paper {A} (f : dict → result A) : M A := λ w, (f (paper w), w).
Definition paper_log_title : M unit := with_paper log_title.

(** [for x in xs: body x] *)
Fixpoint for_each {A} (xs : list A) (body : A → M unit) : M unit :=
  match xs with
  | [] => mret ()
  | x :: xs' => body x ;; for_each xs' body
  end.

(** What [process_paper] returns: the paper object it was given, or a
    dictionary it built. *)
Inductive returned :=
| ThePaper
| Built (d : dict).

(** [text and text != "[Not available]"] *)
Definition translatable (text : value) : bool :=
  truthy text && differs_from text not_available.

Section Worker.
Variable MAX_RETRIES : Z.
Variable TARGET_LANGUAGES : list str.
Variable isdecimal : char → bool.
(** The clock, formatted, at the moment line 305 reads it. *)
Variable now : str.
(** The answer to the worker's n-th outside call. *)
Variable backend : nat → result str.

Definition outside (c : call) : M str := λ w,
  (backend (length (trace w)), {| paper := paper w; trace := trace w ++ [c] |}).

(** [f"Failed to fetch {url} after {MAX_RETRIES} attempts"] *)
Definition failure_message (url : str) : str :=
  lit "Failed to fetch " ++ url ++ lit " after " ++ of_Z MAX_RETRIES
  ++ lit " attempts".

(** [fetch_with_retry(url)], lines 202-214, with [attempts] rounds of the
    loop left. *)
Fixpoint fetch_loop (url : str) (attempts : nat) : M str :=
  match attempts with
  | O => raise (Exception (failure_message url))
  | S attempts' => catch (outside (Get url)) (λ _, fetch_loop url attempts')
  end.

Definition fetch_with_retry (url : str) : M str :=
  fetch_loop url (Z.to_nat MAX_RETRIES).

(** [translate_with_retry(text, lang, max_retries)], lines 276-286. *)
Fixpoint translate_loop (text : value) (lang : str) (attempts : nat) : M value :=
  match attempts with
  | O => mret text
  | S attempts' =>
      catch (VStr <$> outside (Translate text lang))
            (λ _, translate_loop text lang attempts')
  end.

Definition translate_with_retry (text : value) (lang : str) (max_retries : Z)
  : M value :=
  translate_loop text lang (Z.to_nat max_retries).

(** The cache hit, lines 292-314: the dictionary built from the entry. *)
Definition restore_translations (translations : value) (result0 : dict)
  : result dict :=
  foldl (λ (acc : result dict) lang,
           result1 ← acc;
           descriptions ← vget translations (lit "descriptions") (VDict ∅);
           d ← vget descriptions lang (VStr []);
           let result2 := <[lit "description_" ++ lang := d]> result1 in
           abstract_fulls ← vget translations (lit "abstract_fulls") (VDict ∅);
           a ← vget abstract_fulls lang (VStr []);
           Ok (<[lit "abstractFull_" ++ lang := a]> result2))
        (Ok result0) TARGET_LANGUAGES.

Definition restore (paper0 cached_paper : dict) : result dict :=
  _ ← log_title paper0;
  title ← getitem cached_paper (lit "title");
  url ← getitem cached_paper (lit "url");
  let result0 : dict :=
    <[lit "pub_date" := get paper0 (lit "pub_date")
                            (get cached_paper (lit "pub_date") (VStr now))]> $
    <[lit "authors" := get cached_paper (lit "authors") (VList [])]> $
    <[lit "arxiv_pdf" := get cached_paper (lit "arxiv_pdf") VNone]> $
    <[lit "arxiv_abs" := get cached_paper (lit "arxiv_abs") VNone]> $
    <[lit "abstract_short" := get cached_paper (lit "abstract_short") (VStr [])]> $
    <[lit "abstract" := get cached_paper (lit "abstract") (VStr [])]> $
    <[lit "institution" := get cached_paper (lit "institution") (VStr (lit "N/A"))]> $
    <[lit "url" := url]> $
    <[lit "title" := title]> ∅ in
  restore_translations (get cached_paper (lit "translations") (VDict ∅)) result0.

(** [if text and text != "[Not available]": for lang in ...], lines 333-342. *)
Definition translate_field (source : string) (prefix : string) : M unit :=
  text ← paper_get source;
  if translatable text then
    for_each TARGET_LANGUAGES (λ lang,
      text' ← paper_get source;
      translated ← translate_with_retry text' lang 3;
      paper_set (lit prefix ++ lang) translated)
  else mret ().

(** The fresh path: the body of [try], lines 318-345. *)
Definition enrich_and_translate : M returned :=
  key ← paper_get "url";
  url ← lift (as_str key);
  html ← fetch_with_retry url;
  let details := extract_abstracts isdecimal html in
  paper_update
    [(lit "abstract", VStr (abstract_full details));
     (lit "abstract_short", VStr (abstract_short details));
     (lit "arxiv_abs", from_option VStr VNone (arxiv_abs details));
     (lit "arxiv_pdf", from_option VStr VNone (arxiv_pdf details));
     (lit "authors", VList (authors details))];;
  paper_log_title;;
  translate_field "abstract_short" "description_";;
  translate_field "abstract" "abstractFull_";;
  paper_log_title;;
  mret ThePaper.

(** [f"[Error: {str(e)}]"] *)
Definition error_marker (e : exn) : str := lit "[Error: " ++ message e ++ lit "]".

(** The [except] clause, lines 346-350. *)
Definition mark_failed (e : exn) : M returned :=
  paper_log_title;;
  paper_set (lit "abstract") (VStr (error_marker e));;
  marker ← paper_get "abstract";
  paper_set (lit "abstract_short") marker;;
  mret ThePaper.

Definition process_fresh : M returned := catch enrich_and_translate mark_failed.

(** [process_paper(paper, processed_dict, paper_cache)], lines 288-350,
    run in a world that holds [paper]. *)
Definition process_paper (processed_dict : option timestamps)
    (paper_cache : option entries) : M returned :=
  match processed_dict with
  | Some (item :: items) =>
      key ← paper_get "url";
      url ← lift (as_str key);
      match paper_cache with
      | Some cache =>
          if known url (item :: items) && bool_decide (cache ≠ ∅) then
            match cache !! url with
            | Some cached_paper =>
                if truthy (VDict cached_paper) then
                  Built <$> with_paper (λ paper0, restore paper0 cached_paper)
                else process_fresh
            | None => process_fresh
            end
          else process_fresh
      | None => process_fresh
      end
  | _ => process_fresh
  end.

End Worker.

(** [scrape_papers(processed_dict, paper_cache)], lines 353-423. *)
Section Scrape.
Import Extractor.

Variable BASE_URL : str.
Variable MAX_PAPERS : Z.
Variable MAX_RETRIES : Z.
Variable MAX_WORKERS : Z.
Variable TARGET_LANGUAGES : list str.
Variable isdecimal : char → bool.
Variable now : str.
(** [HTMLParser]'s tokenizer: the events of a page. *)
Variable tokenize : str → list event.
(** [(base_time + timedelta(seconds=i)).strftime(...)] *)
Variable pub_date_at : nat → str.
(** The answers to the calls of the listing fetch, and to the calls of the
    worker at each listing position. *)
Variable listing_backend : nat → result str.
Variable backend : nat → nat → result str.
(** The order in which [as_completed] hands the futures back, as listing
    positions. *)
Variable order : list nat.

(** [processed_dict is None or paper['url'] not in processed_dict] *)
Definition is_new (processed_dict : option timestamps) (paper0 : dict)
  : result bool :=
  match processed_dict with
  | None => Ok true
  | Some pd =>
      key ← getitem paper0 (lit "url");
      url ← as_str key;
      Ok (negb (known url pd))
  end.

(** Line 381.  Only the length of the list is used, in a log line, but the
    comprehension reads ['url'] of every paper before any publication date
    is assigned. *)
Fixpoint new_papers (processed_dict : option timestamps) (papers : list dict)
  : result (list dict) :=
  match papers with
  | [] => Ok []
  | p :: rest =>
      fresh ← is_new processed_dict p;
      rest' ← new_papers processed_dict rest;
      Ok (if (fresh : bool) then p :: rest' else rest')
  end.

(** Lines 387-396, for the paper at position [i]. *)
Definition assign_pub_date (processed_dict : option timestamps)
    (paper_cache : option entries) (i : nat) (paper0 : dict) : result dict :=
  fresh ← is_new processed_dict paper0;
  if (fresh : bool) then Ok (<[lit "pub_date" := VStr (pub_date_at i)]> paper0)
  else
    key ← getitem paper0 (lit "url");
    url ← as_str key;
    match paper_cache with
    | None => Raise (AttributeError "'NoneType' object has no attribute 'get'")
    | Some cache =>
        match cache !! url with
        | Some cached_paper =>
            (* an empty entry is falsy and has no ['pub_date'] either *)
            match cached_paper !! lit "pub_date" with
            | Some d => Ok (<[lit "pub_date" := d]> paper0)
            | None => Ok paper0
            end
        | None => Ok paper0
        end
    end.

Fixpoint assign_pub_dates (processed_dict : option timestamps)
    (paper_cache : option entries) (i : nat) (papers : list dict)
  : result (list dict) :=
  match papers with
  | [] => Ok []
  | paper0 :: rest =>
      paper1 ← assign_pub_date processed_dict paper_cache i paper0;
      rest' ← assign_pub_dates processed_dict paper_cache (S i) rest;
      Ok (paper1 :: rest')
  end.

(** The future submitted for position [i]: what [process_paper] did to its
    paper and how it ended. *)
Definition task (processed_dict : option timestamps)
    (paper_cache : option entries) (i : nat) (paper0 : dict)
  : result returned * world :=
  process_paper MAX_RETRIES TARGET_LANGUAGES isdecimal now (backend i)
                processed_dict paper_cache {| paper := paper0; trace := [] |}.

(** The body of the loop over [as_completed], lines 408-417.  [papers[index]]
    is the object the worker was given, in the state the worker left it. *)
Definition collect_one (tasks : list (result returned * world))
    (results : list (option dict)) (index : nat) : result (list (option dict)) :=
  match tasks !! index with
  | None => Ok results
  | Some (outcome, w) =>
      let on_failure (results : list (option dict)) :=
        _ ← log_title (paper w);
        Ok (<[index := Some (paper w)]> results) in
      match outcome with
      | Ok r =>
          let result0 := match r with ThePaper => paper w | Built d => d end in
          let results := <[index := Some result0]> results in
          match log_title result0 with
          | Ok _ => Ok results
          | Raise _ => on_failure results
          end
      | Raise _ => on_failure results
      end
  end.

Definition collect (tasks : list (result returned * world))
  : result (list (option dict)) :=
  foldl (λ acc index, results ← acc; collect_one tasks results index)
        (Ok (replicate (length tasks) None)) order.

(** [ThreadPoolExecutor(max_workers=MAX_WORKERS)], line 404: the pool
    refuses a number of workers that is not positive.  With a positive
    number every submitted task runs; how many run at a time shows only in
    the order in which they finish. *)
Definition executor : result unit :=
  if (MAX_WORKERS <=? 0)%Z
  then Raise (ValueError "max_workers must be greater than 0")
  else Ok ().

(** From the parsed listing on: lines 374-423. *)
Definition scrape_listing (processed_dict : option timestamps)
    (paper_cache : option entries) (found : list dict)
  : result (list (option dict)) :=
  let papers := slice_to MAX_PAPERS found in
  match papers with
  | [] => Ok []
  | _ =>
      _ ← new_papers processed_dict papers;
      papers ← assign_pub_dates processed_dict paper_cache 0 papers;
      _ ← executor;
      results ← collect (imap (task processed_dict paper_cache) papers);
      Ok (reverse results)
  end.

Definition scrape_papers (processed_dict : option timestamps)
    (paper_cache : option entries) : result (list (option dict)) :=
  html ← (fetch_with_retry MAX_RETRIES listing_backend BASE_URL
            {| paper := ∅; trace := [] |}).1;
  match feed (tokenize html) init with
  | (parser, None) => scrape_listing processed_dict paper_cache (papers parser)
  | (_, Some e) => Raise e
  end.

End Scrape.

End Pipeline.

(** ** The feed: [generate_rss], [save_feed] and [main] *)

Module Feed.

Import Cache Extractor Pipeline.

(** [v1 == v2] on values is structural. *)
Global Instance value_eq_dec : EqDecision value.
Proof.
  refine (fix go (v1 v2 : value) : Decision (v1 = v2) :=
    let _ : EqDecision value := @go in
    match v1, v2 with
    | VNone, VNone => left _
    | VStr s, VStr t => cast_if (decide (s = t))
    | VList s, VList t => cast_if (decide (s = t))
    | VDict s, VDict t => cast_if (decide (s = t))
    | _, _ => right _
    end); congruence.
Defined.

(** The line feed, and a text between double quotes. *)
Definition nl : str := [10%N].
Definition quoted (s : string) : str := dquote :: lit s ++ [dquote].

(** [sep.join(parts)] *)
Fixpoint join (sep : str) (parts : list str) : str :=
  match parts with
  | [] => []
  | [p] => p
  | p :: rest => p ++ sep ++ join sep rest
  end.

(** [for x in xs], collecting what the body gives; the first exception
    ends the loop. *)
Fixpoint traverse {A B} (f : A → result B) (xs : list A) : result (list B) :=
  match xs with
  | [] => Ok []
  | x :: xs' =>
      y ← f x;
      ys ← traverse f xs';
      Ok (y :: ys)
  end.

(** The papers before the first slot that is [None], and whether there is
    such a slot: the loop of [save_processed_papers] subscripts every
    element, and stops with a [TypeError] at one that is [None]. *)
Fixpoint until_none (papers : list (option dict)) : list dict * bool :=
  match papers with
  | [] => ([], false)
  | Some d :: rest => let '(ds, stopped) := until_none rest in (d :: ds, stopped)
  | None :: _ => ([], true)
  end.

(** The five keys that [generate_rss] subscripts, in the order in which the
    first loop reads them. *)
Definition required : list str :=
  [lit "title"; lit "url"; lit "abstract_short"; lit "abstract"; lit "pub_date"].

Section Feed.
Variable BASE_URL : str.
Variable TARGET_LANGUAGES : list str.
(** [os.environ.get("RSS_FEED_URL")] *)
Variable RSS_FEED_URL : option str.
(** The clock of line 495, formatted. *)
Variable build_date : str.
(** [repr] of a list or of a dictionary, which is what an f-string shows
    of one. *)
Variable repr : value → str.
(** What [d[:5]] raises for a dictionary [d]: a [TypeError] up to Python
    3.11, a [KeyError] since. *)
Variable dict_slice_error : exn.
(** The message of the [TypeError] with which [ET.tostring] refuses a text
    that is not a string. *)
Variable cannot_serialize : value → str.

(** What an f-string puts for [{v}]. *)
Definition format (v : value) : str :=
  match v with
  | VStr s => s
  | VNone => lit "None"
  | VList _ | VDict _ => repr v
  end.

(** [paper[k]] for an element of the list of papers, which is [None] where
    no worker filled the slot. *)
Definition subscript (paper : option dict) (k : string) : result value :=
  match paper with
  | Some d => getitem d (lit k)
  | None => Raise (TypeError "'NoneType' object is not subscriptable")
  end.

(** [paper.get(k, dflt)] *)
Definition lookup_or (paper : option dict) (k : string) (dflt : value)
  : result value :=
  match paper with
  | Some d => Ok (get d (lit k) dflt)
  | None => Raise (AttributeError "'NoneType' object has no attribute 'get'")
  end.

(** [if paper.get(k): ... paper[k] ...]: the value, when it is truthy. *)
Definition optional (paper : option dict) (k : string) : result (option value) :=
  v ← lookup_or paper k VNone;
  if truthy v then Some <$> subscript paper k else Ok None.

(** The first loop, lines 461-483: the texts given to the children of one
    [item] element, in document order. *)
Definition item_texts (paper : option dict) : result (list value) :=
  title ← subscript paper "title";
  link ← subscript paper "url";
  short ← subscript paper "abstract_short";
  full ← subscript paper "abstract";
  pub_date ← subscript paper "pub_date";
  guid ← subscript paper "url";
  institution ← lookup_or paper "institution" (VStr (lit "N/A"));
  arxiv_abs ← optional paper "arxiv_abs";
  arxiv_pdf ← optional paper "arxiv_pdf";
  Ok ([title; link;
       VStr (lit "<![CDATA[" ++ format short ++ lit "]]>");
       VStr (lit "<![CDATA[" ++ format full ++ lit "]]>");
       pub_date; guid; institution]
      ++ option_list arxiv_abs ++ option_list arxiv_pdf).

(** [ET.tostring], line 486, on one text: a text that is [None] or empty
    is left out, a string is written, anything else cannot be written.
    The texts of the channel are strings.  The result of the call is not
    used. *)
Definition serializable (text : value) : result unit :=
  if truthy text then
    match text with
    | VStr _ => Ok ()
    | _ => Raise (Exn TypeErr (cannot_serialize text))
    end
  else Ok ().

(** Lines 488-496. *)
Definition header (request_url : str) : str :=
  lit "<?xml version=" ++ quoted "1.0" ++ lit " encoding=" ++ quoted "UTF-8"
  ++ lit "?>" ++ nl
  ++ lit "<rss version=" ++ quoted "2.0" ++ lit " xmlns:atom="
  ++ quoted "http://www.w3.org/2005/Atom" ++ lit ">" ++ nl
  ++ lit "  <channel>" ++ nl
  ++ lit "    <title>Hugging Face Papers RSS</title>" ++ nl
  ++ lit "    <link>" ++ BASE_URL ++ lit "</link>" ++ nl
  ++ lit "    <description>Latest AI research papers from Hugging Face</description>"
  ++ nl
  ++ lit "    <lastBuildDate>" ++ build_date ++ lit "</lastBuildDate>" ++ nl
  ++ lit "    <atom:link href=" ++ dquote :: request_url ++ [dquote]
  ++ lit " rel=" ++ quoted "self" ++ lit " type=" ++ quoted "application/rss+xml"
  ++ lit "/>" ++ nl.

(** Lines 508-509. *)
Definition institution_line (institution : value) : str :=
  if truthy institution && differs_from institution (lit "N/A")
  then lit "Institution: " ++ format institution
  else [].

(** Lines 512-513: [', '.join(authors[:5])] joins the first five authors
    of a list, and the first five characters of a string. *)
Definition authors_line (authors : value) : result str :=
  if truthy authors then
    match authors with
    | VList l => Ok (lit "Authors: " ++ join (lit ", ") (take 5 l))
    | VStr s => Ok (lit "Authors: " ++ join (lit ", ") ((λ c, [c]) <$> take 5 s))
    | _ => Raise dict_slice_error
    end
  else Ok [].

(** Lines 516-518. *)
Definition byline (institution_line authors_line : str) : str :=
  if truthy (VStr institution_line) || truthy (VStr authors_line) then
    let parts :=
      filter (λ p, truthy (VStr p) = true) [institution_line; authors_line] in
    lit "  <p style=" ++ quoted "color: #666; font-size: 0.9em;" ++ lit ">"
    ++ join (lit " | ") parts ++ lit "</p>" ++ nl
  else [].

(** Lines 521-528. *)
Definition arxiv_block (arxiv_abs arxiv_pdf : option value) : str :=
  let arxiv_links :=
    from_option (λ v, [lit "<a href=" ++ dquote :: format v ++ [dquote]
                       ++ lit ">arXiv</a>"]) [] arxiv_abs
    ++ from_option (λ v, [lit "<a href=" ++ dquote :: format v ++ [dquote]
                          ++ lit ">PDF</a>"]) [] arxiv_pdf in
  if bool_decide (arxiv_links ≠ []) then
    lit "  <h3>arXiv Links</h3>" ++ nl
    ++ lit "  <p>" ++ join (lit " | ") arxiv_links ++ lit "</p>" ++ nl
  else [].

(** Lines 535-541 and 548-554: a paragraph for every language whose
    translated field is there and differs from the text itself. *)
Fixpoint translated (paper : option dict) (prefix source : string)
    (langs : list str) : result str :=
  match langs with
  | [] => Ok []
  | lang :: langs' =>
      p ← match paper with
          | Some d =>
              match d !! (lit prefix ++ lang) with
              | Some v =>
                  text ← subscript paper source;
                  if bool_decide (v ≠ text)
                  then Ok (lit "  <p>" ++ format v ++ lit "</p>" ++ nl)
                  else Ok []
              | None => Ok []
              end
          | None => Raise (TypeError "argument of type 'NoneType' is not iterable")
          end;
      rest ← translated paper prefix source langs';
      Ok (p ++ rest)
  end.

(** The second loop, lines 499-562, for one paper. *)
Definition render_item (paper : option dict) : result str :=
  title ← subscript paper "title";
  link ← subscript paper "url";
  institution ← lookup_or paper "institution" (VStr (lit "N/A"));
  authors ← lookup_or paper "authors" (VList []);
  authors_line ← authors_line authors;
  arxiv_abs ← optional paper "arxiv_abs";
  arxiv_pdf ← optional paper "arxiv_pdf";
  short ← subscript paper "abstract_short";
  short_translated ← translated paper "description_" "abstract_short" TARGET_LANGUAGES;
  full ← subscript paper "abstract";
  full_translated ← translated paper "abstractFull_" "abstract" TARGET_LANGUAGES;
  let description_html :=
    lit "<div class=" ++ quoted "paper-content" ++ lit ">" ++ nl
    ++ byline (institution_line institution) authors_line
    ++ arxiv_block arxiv_abs arxiv_pdf
    ++ lit "  <h3>AI summary</h3>" ++ nl
    ++ lit "  <p>" ++ format short ++ lit "</p>" ++ nl
    ++ short_translated
    ++ lit "  <h3>Abstract</h3>" ++ nl
    ++ lit "  <p>" ++ format full ++ lit "</p>" ++ nl
    ++ full_translated
    ++ lit "</div>" in
  pub_date ← subscript paper "pub_date";
  guid ← subscript paper "url";
  Ok (lit "    <item>" ++ nl
      ++ lit "      <title>" ++ format title ++ lit "</title>" ++ nl
      ++ lit "      <link>" ++ format link ++ lit "</link>" ++ nl
      ++ lit "      <description><![CDATA[" ++ description_html
      ++ lit "]]></description>" ++ nl
      ++ lit "      <pubDate>" ++ format pub_date ++ lit "</pubDate>" ++ nl
      ++ lit "      <guid isPermaLink=" ++ quoted "true" ++ lit ">" ++ format guid
      ++ lit "</guid>" ++ nl
      ++ lit "    </item>" ++ nl).

Definition footer : str := lit "  </channel>" ++ nl ++ lit "</rss>" ++ nl.

(** [generate_rss(papers, request_url)], lines 426-568. *)
Definition generate_rss (papers : list (option dict)) (request_url : option str)
  : result str :=
  let request_url :=
    match request_url with
    | Some u => u
    | None =>
        default (lit "https://your-username.github.io/hf-papers-rss/feed.xml")
                RSS_FEED_URL
    end in
  texts ← traverse item_texts papers;
  _ ← traverse serializable (concat texts);
  items ← traverse render_item papers;
  Ok (header request_url ++ concat items ++ footer).

End Feed.

(** The two files of the script: the cache and [docs/feed.xml]. *)
Record disk := { cache_file : file; feed_file : option str }.

(** How [main] ends: at its last line, at the [return] after an empty
    listing, or in the handler, with [exit(1)] after the exception was
    logged. *)
Inductive outcome :=
| Finished
| NoPapers
| Exit1 (e : exn).

Section Main.
Variable BASE_URL : str.
Variable MAX_PAPERS : Z.
Variable MAX_RETRIES : Z.
Variable MAX_WORKERS : Z.
Variable MAX_PROCESSED_RECORDS : Z.
Variable CACHE_VERSION : Z.
Variable TARGET_LANGUAGES : list str.
Variable RSS_FEED_URL : option str.
Variable isdecimal : char → bool.
Variable tokenize : str → list event.
Variable repr : value → str.
Variable dict_slice_error : exn.
Variable cannot_serialize : value → str.
(** The clocks: line 305, line 386 plus the position, line 495 and
    line 79. *)
Variable now : str.
Variable pub_date_at : nat → str.
Variable build_date : str.
Variable current_time : str.
(** The outside: the answers to the fetches and translations, the order
    in which the workers finish, what [open] raises for the feed, if it
    raises, and whether the cache could be written. *)
Variable listing_backend : nat → result str.
Variable backend : nat → nat → result str.
Variable order : list nat.
Variable feed_io : option exn.
Variable cache_written : bool.

(** [save_feed(content, "docs/feed.xml")], lines 570-575: either [open]
    raises and the file stays as it was, or the content is written whole. *)
Definition save_feed (content : str) (d : disk) : result disk :=
  match feed_io with
  | Some e => Raise e
  | None => Ok {| cache_file := cache_file d; feed_file := Some content |}
  end.

(** [main()], lines 578-611. *)
Definition main (d : disk) : outcome * disk :=
  let '(processed_dict, paper_cache) :=
    load_processed_papers CACHE_VERSION (cache_file d) in
  match scrape_papers BASE_URL MAX_PAPERS MAX_RETRIES MAX_WORKERS TARGET_LANGUAGES
          isdecimal now tokenize pub_date_at listing_backend backend order
          (Some processed_dict) (Some paper_cache) with
  | Raise e => (Exit1 e, d)
  | Ok [] => (NoPapers, d)
  | Ok papers =>
      match generate_rss BASE_URL TARGET_LANGUAGES RSS_FEED_URL build_date repr
              dict_slice_error cannot_serialize papers None with
      | Raise e => (Exit1 e, d)
      | Ok rss_feed =>
          match save_feed rss_feed d with
          | Raise e => (Exit1 e, d)
          | Ok d1 =>
              let '(filled, stopped) := until_none papers in
              let saved :=
                if stopped then
                  _ ← merge TARGET_LANGUAGES current_time filled
                        (processed_dict, paper_cache);
                  Raise (TypeError "'NoneType' object is not subscriptable")
                else
                  save_processed_papers MAX_PROCESSED_RECORDS CACHE_VERSION
                    TARGET_LANGUAGES current_time cache_written filled
                    processed_dict paper_cache (cache_file d1) in
              match saved with
              | Raise e => (Exit1 e, d1)
              | Ok (_, f) =>
                  (Finished, {| cache_file := f; feed_file := feed_file d1 |})
              end
          end
      end
  end.

End Main.

End Feed.

(** ** Notions used in the statements *)

Import Re Cache Extractor Enricher Pipeline Feed.

(** The order of the clean-up: the time stamp of [x] is not below that of
    [y]. *)
Definition not_older (x y : str * str) : Prop := Str.ltb x.2 y.2 = false.

(** A paper that the insertion loop can store: it has a title and a string
    under [url]. *)
Definition storable (paper : dict) : Prop :=
  is_Some (paper !! lit "title") ∧ ∃ url, paper !! lit "url" = Some (VStr url).

(** [url] is the identity of one of [papers]. *)
Definition listed (url : str) (papers : list dict) : Prop :=
  ∃ paper, paper ∈ papers ∧ paper !! lit "url" = Some (VStr url).

(** A string that does not begin with white space. *)
Definition clean_head (s : str) : Prop :=
  match s with
  | [] => True
  | c :: _ => isspace c = false
  end.

(** [re.sub(r'\s+', ' ', ...)] at a suffix [s] of the string [whole]. *)
Definition collapse (whole s : str) : str :=
  sub_go [Plus isspace] (lit " ") whole 0 s.

(** Every white-space character is a single blank followed by something
    else. *)
Fixpoint collapsed (s : str) : Prop :=
  match s with
  | [] => True
  | c :: s' => (isspace c = true → c = space ∧ clean_head s') ∧ collapsed s'
  end.

(** A raw record with a non-empty identity and a non-empty title. *)
Definition well_formed (d : dict) : Prop :=
  ∃ url title,
    d !! lit "url" = Some (VStr url) ∧ url ≠ [] ∧
    d !! lit "title" = Some (VStr title) ∧ title ≠ [].

(** The scratch record holds strings under [url] and [title], if
    anything. *)
Definition scratch_typed (s : parser) : Prop :=
  ∀ d, current_paper s = Some d →
    ∀ k v, (k = lit "url" ∨ k = lit "title") → d !! k = Some v → ∃ t, v = VStr t.

(** The invariant of the handlers. *)
Definition extractor_inv (s : parser) : Prop :=
  Forall well_formed (papers s) ∧ scratch_typed s.

(** What closing an item does to the list of records. *)
Definition closes_item (s s' : parser) : Prop :=
  papers s' = papers s ∨
  ∃ d, current_paper s = Some d ∧ has d "title" = true ∧ has d "url" = true ∧
       papers s' =
         papers s ++ [<[lit "institution" := VStr (clean_institution (institution_text s))]> d].

(** A call the translation stage may make: never a translation of an empty
    text or of the "[Not available]" marker. *)
Definition allowed (c : call) : Prop :=
  match c with
  | Get _ => True
  | Translate text _ => truthy text = true ∧ differs_from text not_available = true
  end.

(** [w'] comes after [w]: more calls, all of them allowed. *)
Definition extends (w w' : world) : Prop :=
  ∃ new, trace w' = trace w ++ new ∧ Forall allowed new.

(** The world after [n] more calls [c]. *)
Definition calls (n : nat) (c : call) (w : world) : world :=
  {| paper := paper w; trace := trace w ++ replicate n c |}.

(** The keys a worker may write in the paper it was handed. *)
Definition written (k : str) : Prop :=
  k ∈ [lit "abstract"; lit "abstract_short"; lit "arxiv_abs"; lit "arxiv_pdf";
       lit "authors"] ∨
  ∃ lang, k = lit "description_" ++ lang ∨ k = lit "abstractFull_" ++ lang.

(** The paper with the error marker in both abstracts. *)
Definition marked (e : exn) (paper0 : dict) : dict :=
  <[lit "abstract_short" := VStr (error_marker e)]>
    (<[lit "abstract" := VStr (error_marker e)]> paper0).

(** The paper after [paper.update({...})] with the details of the page
    [html]. *)
Definition enriched (isdecimal : char → bool) (html : str) (paper0 : dict) : dict :=
  let details := extract_abstracts isdecimal html in
  <[lit "authors" := VList (authors details)]> $
  <[lit "arxiv_pdf" := from_option VStr VNone (arxiv_pdf details)]> $
  <[lit "arxiv_abs" := from_option VStr VNone (arxiv_abs details)]> $
  <[lit "abstract_short" := VStr (abstract_short details)]> $
  <[lit "abstract" := VStr (abstract_full details)]> paper0.

(** What the cache holds as the translation of one field into [lang]: the
    stored value, or the empty string when the language, or the mapping, is
    not there. *)
Definition cached_translation (cached_paper : dict) (which : string) (lang : str)
  : value :=
  match cached_paper !! lit "translations" with
  | Some (VDict translations) =>
      match translations !! lit which with
      | Some (VDict by_lang) => default (VStr []) (by_lang !! lang)
      | _ => VStr []
      end
  | _ => VStr []
  end.

(** The mappings of translations are dictionaries where they are present. *)
Definition dict_or_absent (o : option value) : Prop :=
  match o with
  | None | Some (VDict _) => True
  | _ => False
  end.

(** The translations of a cache entry as [save_processed_papers] writes
    them, or none. *)
Definition well_shaped (cached_paper : dict) : Prop :=
  match cached_paper !! lit "translations" with
  | None => True
  | Some (VDict translations) =>
      dict_or_absent (translations !! lit "descriptions") ∧
      dict_or_absent (translations !! lit "abstract_fulls")
  | _ => False
  end.

(** The two translated fields of a record whose text was not to be
    translated are as they were. *)
Definition untranslated_kept (w w' : world) : Prop :=
  (∀ text, paper w' !! lit "abstract_short" = Some (VStr text) →
     text = [] ∨ text = not_available →
     ∀ lang, paper w' !! (lit "description_" ++ lang)
             = paper w !! (lit "description_" ++ lang)) ∧
  (∀ text, paper w' !! lit "abstract" = Some (VStr text) →
     text = [] ∨ text = not_available →
     ∀ lang, paper w' !! (lit "abstractFull_" ++ lang)
             = paper w !! (lit "abstractFull_" ++ lang)).

(** A paper of the listing as the workers receive it: its title can be
    logged and its identity is a string. *)
Definition listing_record (paper0 : dict) : Prop :=
  log_title paper0 = Ok () ∧ ∃ url, paper0 !! lit "url" = Some (VStr url).

(** The cache hit of [process_paper]: the identity of the paper is in a
    non-empty time-stamp map and a non-empty entry is stored for it. *)
Definition cache_hit (processed_dict : option timestamps)
    (paper_cache : option entries) (paper0 cached_paper : dict) : Prop :=
  ∃ items cache url,
    processed_dict = Some items ∧ paper_cache = Some cache ∧
    paper0 !! lit "url" = Some (VStr url) ∧ url ∈ items.*1 ∧
    cache !! url = Some cached_paper ∧ cached_paper ≠ ∅.

(** What the collection loop stores for a finished task: the result of the
    worker, or the paper as the worker left it when the worker, or a log
    line, raised. *)
Definition slot (t : result returned * world) : result dict :=
  let on_failure := _ ← log_title (paper t.2); Ok (paper t.2) in
  match t.1 with
  | Ok r =>
      let result0 := match r with ThePaper => paper t.2 | Built d => d end in
      match log_title result0 with
      | Ok _ => Ok result0
      | Raise _ => on_failure
      end
  | Raise _ => on_failure
  end.

(** The identities that the clean-up keeps, when it runs. *)
Definition kept_urls (cap : Z) (pd : timestamps) : gset str :=
  list_to_set (slice_to cap (sorted_desc pd)).*1.

(** The closing item tags among the events. *)
Definition is_article_end (e : event) : bool :=
  match e with
  | EndTag tag => bool_decide (tag = lit "article")
  | _ => false
  end.

Definition article_ends (events : list event) : nat :=
  length (filter (λ e, is_article_end e = true) events).

(** The scratch record between two handlers: at most [url] and [title],
    written by the handlers of the link. *)
Definition scratch_shape (d : dict) : Prop :=
  (∀ k, is_Some (d !! k) → k = lit "url" ∨ k = lit "title") ∧
  (∀ v, d !! lit "url" = Some v →
     ∃ href, href ≠ [] ∧ v = VStr (lit "https://huggingface.co" ++ href)) ∧
  (∀ v, d !! lit "title" = Some v → ∃ text, v = VStr (strip text)).

(** An emitted record: exactly the three keys; the link of the heading
    made absolute, the stripped text of the link, and the affiliation in
    its clean form. *)
Definition record_shape (d : dict) : Prop :=
  (∀ k, is_Some (d !! k) ↔ k ∈ [lit "url"; lit "title"; lit "institution"]) ∧
  (∃ href, href ≠ [] ∧
     d !! lit "url" = Some (VStr (lit "https://huggingface.co" ++ href))) ∧
  (∃ title, title ≠ [] ∧ strip title = title ∧
     d !! lit "title" = Some (VStr title)) ∧
  (∃ institution, institution ≠ [] ∧ strip institution = institution ∧
     collapsed institution ∧ (institution ∉ separators) ∧
     d !! lit "institution" = Some (VStr institution)).

Definition shape_inv (s : parser) : Prop :=
  Forall record_shape (papers s) ∧
  ∀ d, current_paper s = Some d → scratch_shape d.

(** The first [n] answers from the present call on are failures. *)
Definition all_fail (backend : nat → result str) (w : world) (n : nat) : Prop :=
  ∀ j, j < n → ∃ e, backend (length (trace w) + j) = Raise e.

(** The nine fields of a restored record that are not translations. *)
Definition restored_fields (now : str) (paper0 cached_paper d : dict) : Prop :=
  d !! lit "title" = cached_paper !! lit "title" ∧
  d !! lit "url" = cached_paper !! lit "url" ∧
  d !! lit "institution"
    = Some (get cached_paper (lit "institution") (VStr (lit "N/A"))) ∧
  d !! lit "abstract" = Some (get cached_paper (lit "abstract") (VStr [])) ∧
  d !! lit "abstract_short"
    = Some (get cached_paper (lit "abstract_short") (VStr [])) ∧
  d !! lit "arxiv_abs" = Some (get cached_paper (lit "arxiv_abs") VNone) ∧
  d !! lit "arxiv_pdf" = Some (get cached_paper (lit "arxiv_pdf") VNone) ∧
  d !! lit "authors" = Some (get cached_paper (lit "authors") (VList [])) ∧
  d !! lit "pub_date"
    = Some (get paper0 (lit "pub_date")
              (get cached_paper (lit "pub_date") (VStr now))).

(** The publication date that the listing loop gives the paper at
    position [i]. *)
Definition dated (pub_date_at : nat → str) (pd : option timestamps) (pc : option entries) (i : nat)
    (url : str) (p : dict) : dict :=
  let stamped := <[lit "pub_date" := VStr (pub_date_at i)]> p in
  match pd with
  | None => stamped
  | Some items =>
      if known url items then
        match pc with
        | Some cache =>
            match cache !! url with
            | Some cached_paper =>
                match cached_paper !! lit "pub_date" with
                | Some d => <[lit "pub_date" := d]> p
                | None => p
                end
            | None => p
            end
        | None => p
        end
      else stamped
  end.

(** The publication date that the cache holds for an identity. *)
Definition cached_pub_date (paper_cache : option entries) (url : str)
  : option value :=
  match paper_cache with
  | Some cache =>
      match cache !! url with
      | Some cached_paper => cached_paper !! lit "pub_date"
      | None => None
      end
  | None => None
  end.

(** The first of the five subscripted keys that a paper lacks. *)
Definition first_missing (d : dict) : option str :=
  List.find (λ k, bool_decide (d !! k = None)) required.

(** A text that [ET.tostring] can write: a string, or something falsy. *)
Definition writable (v : value) : Prop :=
  match v with
  | VStr _ => True
  | _ => truthy v = false
  end.

(** A paper that [generate_rss] can render. *)
Definition renderable (paper : option dict) : Prop :=
  ∃ d, paper = Some d ∧
    first_missing d = None ∧
    (∀ v, d !! lit "title" = Some v → writable v) ∧
    (∀ v, d !! lit "url" = Some v → writable v) ∧
    (∀ v, d !! lit "pub_date" = Some v → writable v) ∧
    writable (get d (lit "institution") (VStr (lit "N/A"))) ∧
    writable (get d (lit "arxiv_abs") VNone) ∧
    writable (get d (lit "arxiv_pdf") VNone) ∧
    (∀ m, get d (lit "authors") (VList []) = VDict m → m = ∅).

(** The listing page arrives and is parsed without an exception. *)
Definition listing_parsed (MAX_RETRIES : Z) (tokenize : str → list event)
    (listing_backend : nat → result str) (html : str) : Prop :=
  (∃ k, k < Z.to_nat MAX_RETRIES ∧
        (∀ j, j < k → ∃ e, listing_backend j = Raise e) ∧
        listing_backend k = Ok html) ∧
  (feed (tokenize html) init).2 = None.

(** ** Sample data

    A small listing, a cache and a few pages, on which the definitions are
    run. *)

Definition url_a : str := lit "https://huggingface.co/papers/2401.00001".

Definition url_b : str := lit "https://huggingface.co/papers/2401.00002".

Definition listed_paper (title : string) (url : str) : dict :=
  <[lit "title" := VStr (lit title)]> (<[lit "url" := VStr url]> ∅).

Definition paper_a : dict := listed_paper "Paper A" url_a.

Definition paper_b : dict := listed_paper "Paper B" url_b.

Definition monday : str := lit "2024-01-01T00:00:00+00:00".

Definition tuesday : str := lit "2024-01-02T00:00:00+00:00".

Definition zh : list str := [lit "zh-CN"].

Definition merged_sample : timestamps * entries :=
  match merge zh tuesday [paper_a; paper_b] ([(url_a, monday)], ∅) with
  | Ok c => c
  | Raise _ => ([], ∅)
  end.

Definition wednesday : str := lit "2024-01-03T00:00:00+00:00".

Definition url_c : str := lit "https://huggingface.co/papers/2401.00003".

Definition paper_c : dict := listed_paper "Paper C" url_c.

(** A cache that knows paper A since Tuesday and paper B since Monday, and
    what the insertion loop of a Wednesday run makes of it when paper A is
    listed again, next to the new paper C. *)
Definition aged_cache : timestamps := [(url_a, tuesday); (url_b, monday)].

Definition remerged_sample : timestamps * entries :=
  match merge zh wednesday [paper_a; paper_c] (aged_cache, ∅) with
  | Ok c => c
  | Raise _ => ([], ∅)
  end.

Definition ascii_digit (c : char) : bool := ((48 <=? c) && (c <=? 57))%N.

Definition one_paragraph_page : str :=
  lit "<h2>Abstract</h2><p>only a byline</p><h2>Next</h2>".

Definition two_paragraph_page : str :=
  lit "<h2>Abstract</h2><p>byline</p><p>AI-generated summary  The <b>text</b>.</p><h2>Next</h2>".

Definition down : nat → result str := λ _, Raise (Exception (lit "backend down")).

Definition bare_page : nat → result str := λ _, Ok (lit "<html><body></body></html>").

Definition fresh_world : world := {| paper := paper_a; trace := [] |}.

(** A cache entry that lacks [title] and [url]. *)
Definition broken_entry : dict := {[ lit "abstract" := VStr (lit "An abstract.") ]}.

Definition papers_abc : list dict :=
  [paper_a; paper_b; listed_paper "Paper C" (lit "https://huggingface.co/papers/2401.00003")].

Definition tasks_abc : list (result returned * world) :=
  imap (task 3 zh ascii_digit monday (λ _, down) None None) papers_abc.

Definition entry_a : dict :=
  <[lit "title" := VStr (lit "Paper A")]> $
  <[lit "url" := VStr url_a]> $
  <[lit "translations" :=
      VDict {[ lit "descriptions" := VDict {[ lit "zh-CN" := VStr (lit "ZH short") ]} ]}]> ∅.

(** A paper with all that [generate_rss] reads. *)
Definition ready_paper : dict :=
  <[lit "pub_date" := VStr monday]> $
  <[lit "abstract" := VStr (lit "An abstract.")]> $
  <[lit "abstract_short" := VStr (lit "Short.")]> paper_a.

(** The same paper after a translation that fell back to the text. *)
Definition untranslated_paper : dict :=
  <[lit "description_" ++ lit "zh-CN" := VStr (lit "Short.")]> ready_paper.

(** The events of a listing with one item. *)
Definition listing_events : list event :=
  [StartTag (lit "article") []; StartTag (lit "h3") [];
   StartTag (lit "a") [(lit "href", Some (lit "/papers/2401.00001"))];
   Data (lit "Paper A"); EndTag (lit "a"); EndTag (lit "h3");
   EndTag (lit "article")].

(** A cache file that has the time stamp of paper A and no entries. *)
Definition stale_disk : disk :=
  {| cache_file := Json {| f_version := Some 1%Z;
                           f_papers := Some [(url_a, monday)];
                           f_paper_cache := None;
                           f_last_updated := None |};
     feed_file := None |}.

Definition slice_error : exn := TypeError "unhashable type: 'slice'".

(** ** Tactics *)

(** Two literals that differ. *)
Ltac lit_neq := let H := fresh in intros H; vm_compute in H; discriminate H.

Ltac flag_step :=
  match goal with
  | |- context [if ?b then _ else _] => destruct b eqn:?
  end.

(** ** The cache: order of time stamps and sorting *)

(** *** The order on time stamps *)

Lemma ltb_irrefl (a : str) : Str.ltb a a = false.
Proof.
  induction a as [|x a IH]; simpl; [done|].
  by rewrite N.ltb_irrefl.
Qed.

Lemma ltb_asym (a b : str) : Str.ltb a b = true → Str.ltb b a = false.
Proof.
  revert b. induction a as [|x a IH]; intros [|y b]; simpl; try done.
  destruct (N.ltb_spec x y), (N.ltb_spec y x); try done; try lia.
  apply IH.
Qed.

(** [a ≥ b ≥ c] gives [a ≥ c], with [a ≥ b] read as "not [a < b]". *)
Lemma ltb_false_trans (a b c : str) :
  Str.ltb a b = false → Str.ltb b c = false → Str.ltb a c = false.
Proof.
  revert b c. induction a as [|x a IH]; intros [|y b] [|z c]; simpl; try done.
  destruct (N.ltb_spec x y), (N.ltb_spec y x); try done; try lia;
      destruct (N.ltb_spec y z), (N.ltb_spec z y); try done; try lia;
      destruct (N.ltb_spec x z), (N.ltb_spec z x); try done; try lia.
    apply IH.
Qed.

(** *** [sorted_desc] sorts, downwards *)

Lemma insert_desc_perm x l : insert_desc x l ≡ₚ x :: l.
Proof.
  induction l as [|y l IH]; simpl; [done|].
  destruct (Str.ltb x.2 y.2); [|done].
  rewrite IH. apply Permutation_swap.
Qed.

Lemma sorted_desc_perm l : sorted_desc l ≡ₚ l.
Proof.
  induction l as [|x l IH]; simpl; [done|].
  by rewrite insert_desc_perm, IH.
Qed.

Lemma insert_desc_sorted x l :
  StronglySorted not_older l → StronglySorted not_older (insert_desc x l).
Proof.
  induction 1 as [|y l Hl IH Hy]; simpl.
  - repeat constructor.
  - destruct (Str.ltb x.2 y.2) eqn:Hxy.
    + constructor; [done|].
      rewrite insert_desc_perm. constructor; [|done].
      by apply ltb_asym.
    + constructor; [by constructor|].
      constructor; [done|].
      eapply Forall_impl; [exact Hy|].
      intros z Hz. by eapply ltb_false_trans.
Qed.

Lemma sorted_desc_sorted l : StronglySorted not_older (sorted_desc l).
Proof.
  induction l as [|x l IH]; simpl; [constructor|].
  by apply insert_desc_sorted.
Qed.

(** In a list sorted downwards an item stands among the first [c] ones,
    where [c] counts the items that are not older than it. *)
Lemma sorted_rank (x : str * str) l :
  StronglySorted not_older l → x ∈ l →
  ∃ i, l !! i = Some x ∧ i < length (filter (λ y, Str.ltb y.2 x.2 = false) l).
Proof.
  induction 1 as [|y l Hl IH Hy]; intros Hx; [by apply elem_of_nil in Hx|].
  apply elem_of_cons in Hx as [->|Hx].
  - exists 0. split; [done|].
    rewrite filter_cons_True by apply ltb_irrefl. simpl. lia.
  - destruct (IH Hx) as (i & Hi & Hlt).
    exists (S i). split; [done|].
    rewrite filter_cons_True; [simpl; lia|].
    rewrite Forall_forall in Hy. by apply Hy.
Qed.

Lemma sorted_desc_rank (x : str * str) l c :
  x ∈ l →
  length (filter (λ y, Str.ltb y.2 x.2 = false) l) ≤ c →
  x ∈ take c (sorted_desc l).
Proof.
  intros Hx Hc.
  destruct (sorted_rank x (sorted_desc l)) as (i & Hi & Hlt).
  { apply sorted_desc_sorted. }
  { by rewrite sorted_desc_perm. }
  apply elem_of_take. exists i. split; [done|].
  rewrite sorted_desc_perm in Hlt. lia.
Qed.

(** *** Look-ups in the time-stamp map *)

Lemma timestamp_of_Some url l :
  url ∈ l.*1 → ∃ t, timestamp_of url l = Some t ∧ (url, t) ∈ l.
Proof.
  induction l as [|[k t] l IH]; simpl; [by intros ?%elem_of_nil|].
  intros Hin. case_bool_decide as Hk.
  - subst. exists t. split; [done|]. apply elem_of_cons; by left.
  - apply elem_of_cons in Hin as [?|Hin]; [done|].
    destruct (IH Hin) as (t' & ? & ?). exists t'. split; [done|].
    apply elem_of_cons; by right.
Qed.

Lemma timestamp_of_None url l : url ∉ l.*1 → timestamp_of url l = None.
Proof.
  induction l as [|[k t] l IH]; simpl; [done|].
  intros Hin. apply not_elem_of_cons in Hin as [? ?].
  rewrite bool_decide_false by done. by apply IH.
Qed.

Lemma timestamp_of_app url l l' :
  url ∈ l.*1 → timestamp_of url (l ++ l') = timestamp_of url l.
Proof.
  induction l as [|[k t] l IH]; simpl; [by intros ?%elem_of_nil|].
  intros Hin. case_bool_decide; [done|].
  apply elem_of_cons in Hin as [?|Hin]; [done|]. by apply IH.
Qed.

Lemma timestamp_of_is_Some url l t : timestamp_of url l = Some t → url ∈ l.*1.
Proof.
  induction l as [|[k t'] l IH]; simpl; [done|].
  case_bool_decide; intros ?; simplify_eq.
  - apply elem_of_cons; by left.
  - apply elem_of_cons; right. by apply IH.
Qed.

(** ** The cache: the insertion loop *)

Arguments Cache.merge_one : simpl never.

Section merge.
Variable TARGET_LANGUAGES : list str.
Variable current_time : str.
Local Abbreviation merge_one := (merge_one TARGET_LANGUAGES current_time).
Local Abbreviation merge := (merge TARGET_LANGUAGES current_time).

Lemma merge_one_inv pd pc paper pd' pc' :
  merge_one (pd, pc) paper = Ok (pd', pc') →
  ∃ url, paper !! lit "url" = Some (VStr url) ∧
    ((url ∈ pd.*1 ∧ pd' = pd ∧ pc' = pc) ∨
     ((url ∉ pd.*1) ∧ pd' = pd ++ [(url, current_time)] ∧
      ∃ entry, cache_entry TARGET_LANGUAGES paper = Ok entry ∧
               pc' = <[url := entry]> pc)).
Proof.
  unfold Cache.merge_one, getitem, known.
  destruct (paper !! lit "url") as [[| url | |]|]; simpl; try done.
  intros H. exists url. split; [done|].
  case_bool_decide.
  - left. by simplify_eq.
  - right. destruct (cache_entry _ paper) as [entry|]; simpl in H; [|done].
    simplify_eq. eauto.
Qed.

Lemma merge_one_Ok pd pc paper :
  storable paper → ∃ c', merge_one (pd, pc) paper = Ok c'.
Proof.
  intros [[title Ht] [url Hu]].
  unfold Cache.merge_one, cache_entry, getitem. rewrite Hu, Ht. simpl.
  destruct (known url pd); eauto.
Qed.

Lemma merge_Ok papers c :
  Forall storable papers → ∃ c', merge papers c = Ok c'.
Proof.
  intros H. revert c. induction H as [|paper papers Hp _ IH]; intros [pd pc]; simpl.
  - eauto.
  - destruct (merge_one_Ok pd pc paper Hp) as [c' ->]. simpl. apply IH.
Qed.

(** What one run of the insertion loop does to the two maps. *)
Lemma merge_inv papers pd pc pd' pc' :
  merge papers (pd, pc) = Ok (pd', pc') →
  ∃ added : list (str * str),
    pd' = pd ++ added ∧
    (∀ url, url ∈ added.*1 → (url ∉ pd.*1) ∧ listed url papers) ∧
    (∀ url, url ∉ added.*1 → pc' !! url = pc !! url).
Proof.
  revert pd pc. induction papers as [|paper papers IH]; intros pd pc; simpl.
  - intros [= <- <-]; exists []. rewrite app_nil_r. split_and!; [done| |done].
    by intros ? ?%elem_of_nil.
  - destruct (merge_one (pd, pc) paper) as [[pd1 pc1]|] eqn:H1; simpl; [|done].
    intros H2. apply IH in H2 as (added & -> & Hadded & Hframe).
    apply merge_one_inv in H1 as (url & Hid & [(Hin & -> & ->)|(Hnin & -> & entry & _ & ->)]).
    + exists added. split_and!; [done| |done].
      intros u Hu. destruct (Hadded u Hu) as [? (p & ? & ?)]. split; [done|].
      exists p. split; [|done]. apply elem_of_cons. by right.
    + exists ((url, current_time) :: added). split_and!.
      * by rewrite <-app_assoc.
      * intros u Hu. rewrite fmap_cons in Hu. apply elem_of_cons in Hu as [->|Hu].
        { split; [done|]. exists paper. split; [|done]. apply elem_of_cons. by left. }
        destruct (Hadded u Hu) as [Hn (p & ? & ?)]. split.
        { intros ?. apply Hn. rewrite fmap_app. apply elem_of_app. by left. }
        exists p. split; [|done]. apply elem_of_cons. by right.
      * intros u Hu. rewrite fmap_cons in Hu. apply not_elem_of_cons in Hu as [? ?].
        rewrite Hframe by done. by rewrite lookup_insert_ne.
Qed.
End merge.

(** C7. The insertion loop of [save_processed_papers] leaves every
    identity that the time-stamp map already holds as it was: the same time
    stamp, the same cache entry (and with it the same [pub_date]).  An
    identity gains a time stamp or a changed entry only if it was not in the
    map and is the [url] of one of the merged papers.  The loop runs to its
    end whenever every paper carries a title and a string [url]. *)
Theorem merge_leaves_known_identities
    (TARGET_LANGUAGES : list str) (current_time : str)
    (papers : list dict) (pd : timestamps) (pc : entries) :
  (Forall storable papers →
   ∃ c', merge TARGET_LANGUAGES current_time papers (pd, pc) = Ok c') ∧
  ∀ pd' pc',
    merge TARGET_LANGUAGES current_time papers (pd, pc) = Ok (pd', pc') →
    (∀ url, url ∈ pd.*1 →
       timestamp_of url pd' = timestamp_of url pd ∧ pc' !! url = pc !! url) ∧
    (∀ url, url ∈ pd'.*1 ∨ pc' !! url ≠ pc !! url →
       url ∈ pd.*1 ∨ ((url ∉ pd.*1) ∧ listed url papers)).
Proof.
  split; [apply merge_Ok|].
  intros pd' pc' (added & -> & Hadded & Hframe)%merge_inv. split.
  - intros url Hin. split; [by apply timestamp_of_app|].
    apply Hframe. intros Hu. by destruct (Hadded url Hu).
  - intros url H. destruct (decide (url ∈ pd.*1)) as [|Hn]; [by left|right].
    split; [done|]. apply Hadded.
    destruct H as [H|H].
    + rewrite fmap_app in H. apply elem_of_app in H as [?|?]; done.
    + destruct (decide (url ∈ added.*1)); [done|]. by destruct H; apply Hframe.
Qed.

(** ** The cache: clean-up and round trip *)

(** The look-up of a key in the rebuilt time-stamp map. *)
Lemma timestamp_of_rebuilt (f : str → option str) url (ks : list str) :
  url ∈ ks →
  timestamp_of url (omap (λ u, (u,.) <$> f u) ks) = f url.
Proof.
  induction ks as [|k ks IH]; [by intros ?%elem_of_nil|].
  intros Hin. simpl. fold (@omap list _ _ _ (λ u : str, pair u <$> f u) ks).
  destruct (decide (k = url)) as [->|Hne].
  - destruct (f url) as [t|] eqn:Hf; simpl.
    + by rewrite bool_decide_true.
    + destruct (decide (url ∈ ks)) as [Hin'|Hn]; [by rewrite IH|].
      apply timestamp_of_None. intros (x & Hx & Hin')%list_elem_of_fmap.
      apply list_elem_of_omap in Hin' as (u & Hu & Hfu).
      destruct (f u) eqn:?; by simplify_eq/=.
  - apply elem_of_cons in Hin as [?|Hin]; [done|].
    destruct (f k) as [t|]; simpl; [|by apply IH].
    rewrite bool_decide_false by done. by apply IH.
Qed.

Lemma prune_keeps cap pd pc url t :
  (url, t) ∈ pd →
  timestamp_of url pd = Some t →
  (Z.of_nat (length (filter (λ y, Str.ltb y.2 t = false) pd)) ≤ cap)%Z →
  timestamp_of url (prune cap (pd, pc)).1 = Some t ∧
  (prune cap (pd, pc)).2 !! url = pc !! url.
Proof.
  intros Hin Ht Hcount. unfold prune.
  destruct (cap <? Z.of_nat (length pd))%Z eqn:Hover; [|done]. simpl.
  assert (url ∈ (list_to_set (slice_to cap (sorted_desc pd)).*1 : gset str)) as Hkept.
  { apply elem_of_list_to_set, list_elem_of_fmap. exists (url, t). split; [done|].
    unfold slice_to. destruct (cap <? 0)%Z eqn:Hneg; [lia|].
    apply (sorted_desc_rank (url, t)); [done|]. simpl. lia. }
  split.
  - rewrite timestamp_of_rebuilt; [done|]. by apply elem_of_elements.
  - destruct (pc !! url) as [e|] eqn:He.
    + by apply map_lookup_filter_Some.
    + apply map_lookup_filter_None. by left.
Qed.

(** C1, as the code has it.  The insertion loop does not refresh the time
    stamp of an identity it already knows, so being merged again is no
    protection; what protects an identity of the pre-merge cache is its own
    time stamp.  Merge followed by prune keeps it, with its time stamp and
    its entry unchanged, whenever at most [MAX_PROCESSED_RECORDS] items of
    the merged time-stamp map, itself included, are not older than it. *)
Theorem merge_then_prune_keeps_recent
    (MAX_PROCESSED_RECORDS : Z) (TARGET_LANGUAGES : list str)
    (current_time : str) (papers : list dict)
    (pd pd1 : timestamps) (pc pc1 : entries) (url t : str) :
  merge TARGET_LANGUAGES current_time papers (pd, pc) = Ok (pd1, pc1) →
  timestamp_of url pd = Some t →
  (Z.of_nat (length (filter (λ y, Str.ltb y.2 t = false) pd1))
   ≤ MAX_PROCESSED_RECORDS)%Z →
  timestamp_of url (prune MAX_PROCESSED_RECORDS (pd1, pc1)).1 = Some t ∧
  (prune MAX_PROCESSED_RECORDS (pd1, pc1)).2 !! url = pc !! url.
Proof.
  intros Hmerge Ht Hcount.
  pose proof (timestamp_of_is_Some _ _ _ Ht) as Hin.
  apply merge_inv in Hmerge as (added & -> & Hadded & Hframe).
  assert (timestamp_of url (pd ++ added) = Some t) as Ht1.
  { by rewrite timestamp_of_app. }
  destruct (timestamp_of_Some url (pd ++ added)) as (t' & Ht' & Hin1).
  { by eapply timestamp_of_is_Some. }
  rewrite Ht1 in Ht'. injection Ht' as <-.
  rewrite <-(Hframe url).
  - by apply prune_keeps.
  - intros Hu. by destruct (Hadded url Hu).
Qed.

Lemma storable_listed_paper (title : string) (url : str) :
  storable (listed_paper title url).
Proof.
  unfold storable, listed_paper. split.
  - rewrite lookup_insert_eq. by eexists.
  - exists url. rewrite lookup_insert_ne by lit_neq. by rewrite lookup_insert_eq.
Qed.

Lemma merged_sample_eq :
  merge zh tuesday [paper_a; paper_b] ([(url_a, monday)], ∅)
  = Ok (merged_sample.1, merged_sample.2).
Proof.
  unfold merged_sample.
  destruct (merge_Ok zh tuesday [paper_a; paper_b] ([(url_a, monday)], ∅)) as [[pd pc] ->];
    [|done].
  repeat constructor; apply storable_listed_paper.
Qed.

Lemma remerged_sample_eq :
  merge zh wednesday [paper_a; paper_c] (aged_cache, ∅)
  = Ok (remerged_sample.1, remerged_sample.2).
Proof.
  unfold remerged_sample.
  destruct (merge_Ok zh wednesday [paper_a; paper_c] (aged_cache, ∅)) as [[pd pc] ->];
    [|done].
  repeat constructor; apply storable_listed_paper.
Qed.

(** On the sample: three identities after the merge and room for two, so
    the clean-up runs and drops paper B; paper A, whose Tuesday stamp is
    the second newest, is kept as it was. *)
Lemma merge_then_prune_keeps_recent_witness :
  (2 < Z.of_nat (length remerged_sample.1))%Z ∧
  (url_b ∉ (prune 2 remerged_sample).1.*1) ∧
  timestamp_of url_a (prune 2 remerged_sample).1 = Some tuesday ∧
  (prune 2 remerged_sample).2 !! url_a = (∅ : entries) !! url_a.
Proof.
  split; [by vm_compute|].
  split; [apply (bool_decide_unpack _); by vm_compute|].
  rewrite (surjective_pairing remerged_sample).
  apply (merge_then_prune_keeps_recent 2 zh wednesday [paper_a; paper_c]
           aged_cache remerged_sample.1 ∅ remerged_sample.2 url_a tuesday).
  - apply remerged_sample_eq.
  - by vm_compute.
  - vm_compute. by intros [=].
Defined.

(** C1, as stated, fails: with room for one record, a cache that knows
    paper A since Monday and a Tuesday run that lists A again next to the
    new paper B, the clean-up keeps B and drops A. *)
Lemma remerged_identity_is_pruned :
  url_a ∈ [(url_a, monday)].*1 ∧
  listed url_a [paper_a; paper_b] ∧
  (λ r, r.1.1.*1) <$>
    save_processed_papers 1 1 zh tuesday true [paper_a; paper_b]
      [(url_a, monday)] ∅ Missing = Ok [url_b].
Proof.
  split_and!.
  - apply elem_of_cons. by left.
  - exists paper_a. split; [|reflexivity]. apply elem_of_cons. by left.
  - by vm_compute.
Qed.


(** C6. A cache of at most [MAX_PROCESSED_RECORDS] identities that is saved
    (no new paper, the write going through) and loaded again comes back as
    it was, both maps; and a file whose version tag is not [CACHE_VERSION]
    loads as the empty cache whatever else it holds (a file without the tag
    counts as version 1). *)
Theorem cache_round_trip :
  (∀ (MAX_PROCESSED_RECORDS CACHE_VERSION : Z) (TARGET_LANGUAGES : list str)
     (current_time : str) (pd : timestamps) (pc : entries) (f : file),
     (Z.of_nat (length pd) ≤ MAX_PROCESSED_RECORDS)%Z →
     ∃ f',
       save_processed_papers MAX_PROCESSED_RECORDS CACHE_VERSION
         TARGET_LANGUAGES current_time true [] pd pc f = Ok (pd, pc, f') ∧
       load_processed_papers CACHE_VERSION f' = (pd, pc)) ∧
  (∀ (CACHE_VERSION : Z) (data : file_data),
     default 1%Z (f_version data) ≠ CACHE_VERSION →
     load_processed_papers CACHE_VERSION (Json data) = ([], ∅)).
Proof.
  split.
  - intros cap cv tl now pd pc f Hlen.
    unfold save_processed_papers, prune. simpl.
    assert ((cap <? Z.of_nat (length pd))%Z = false) as -> by lia.
    eexists. split; [done|]. simpl.
    by rewrite bool_decide_false by (by intros []).
  - intros cv data Hv. simpl. by rewrite bool_decide_true.
Qed.

Lemma cache_round_trip_witness :
  (∃ f',
     save_processed_papers 500 1 zh tuesday true [] [(url_a, monday)]
       {[url_a := paper_a]} Missing
     = Ok ([(url_a, monday)], {[url_a := paper_a]}, f') ∧
     load_processed_papers 1 f' = ([(url_a, monday)], {[url_a := paper_a]})) ∧
  load_processed_papers 1
    (Json {| f_version := Some 2%Z; f_papers := Some [(url_a, monday)];
             f_paper_cache := Some {[url_a := paper_a]};
             f_last_updated := Some monday |}) = ([], ∅).
Proof.
  destruct cache_round_trip as [Hsave Hload]. split.
  - apply Hsave. simpl. lia.
  - apply Hload. simpl. lia.
Defined.

(** Whatever [save_processed_papers] wrote is what the next run loads. *)
Lemma load_after_save (MAX_PROCESSED_RECORDS CACHE_VERSION : Z)
    (TARGET_LANGUAGES : list str) (current_time : str) (papers : list dict)
    (pd : timestamps) (pc : entries) (f f' : file) (c : timestamps * entries) :
  save_processed_papers MAX_PROCESSED_RECORDS CACHE_VERSION TARGET_LANGUAGES
    current_time true papers pd pc f = Ok (c, f') →
  load_processed_papers CACHE_VERSION f' = c.
Proof.
  unfold save_processed_papers.
  destruct (merge _ _ _ _) as [merged|]; simpl; [|done].
  intros [= <- <-]. simpl.
  rewrite bool_decide_false by (by intros []). by destruct (prune _ _).
Qed.

(** ** The extractor: affiliation clean-up *)

(** *** Stripping *)

Lemma lstrip_suffix s : ∃ ws, s = ws ++ lstrip s ∧ Forall (λ c, isspace c = true) ws.
Proof.
  induction s as [|c s (ws & IH & Hws)]; simpl.
  - by exists [].
  - destruct (isspace c) eqn:Hc.
    + exists (c :: ws). split; [by rewrite IH at 1|]. by constructor.
    + by exists [].
Qed.

Lemma lstrip_length s : length (lstrip s) ≤ length s.
Proof.
  destruct (lstrip_suffix s) as (ws & Hs & _).
  rewrite Hs at 2. rewrite length_app. lia.
Qed.

Lemma lstrip_drop s : drop (length s - length (lstrip s)) s = lstrip s.
Proof.
  destruct (lstrip_suffix s) as (ws & Hs & _).
  rewrite Hs at 1 3. rewrite length_app.
  replace (length ws + length (lstrip s) - length (lstrip s)) with (length ws) by lia.
  by rewrite drop_app_length.
Qed.

Lemma lstrip_clean_head s : clean_head (lstrip s).
Proof.
  induction s as [|c s IH]; simpl; [done|].
  by destruct (isspace c) eqn:Hc.
Qed.

Lemma lstrip_id s : clean_head s → lstrip s = s.
Proof. destruct s as [|c s]; simpl; [done|]. by intros ->. Qed.

Lemma lstrip_snoc s c : isspace c = false → lstrip (s ++ [c]) = lstrip s ++ [c].
Proof.
  intros Hc. induction s as [|x s IH]; simpl.
  - by rewrite Hc.
  - by destruct (isspace x).
Qed.

Lemma rstrip_cons c s : isspace c = false → rstrip (c :: s) = c :: rstrip s.
Proof.
  intros Hc. unfold rstrip.
  by rewrite reverse_cons, lstrip_snoc, reverse_app by done.
Qed.

Lemma rstrip_clean_head s : clean_head s → clean_head (rstrip s).
Proof.
  destruct s as [|c s]; simpl; [done|].
  intros Hc. by rewrite rstrip_cons.
Qed.

Lemma rstrip_rstrip s : rstrip (rstrip s) = rstrip s.
Proof.
  unfold rstrip. rewrite reverse_involutive.
  by rewrite (lstrip_id (lstrip _)) by apply lstrip_clean_head.
Qed.

Lemma strip_clean_head s : clean_head (strip s).
Proof. apply rstrip_clean_head, lstrip_clean_head. Qed.

Lemma strip_strip s : strip (strip s) = strip s.
Proof.
  unfold strip at 1. rewrite lstrip_id by apply strip_clean_head.
  apply rstrip_rstrip.
Qed.

(** *** Collapsing runs of white space: [re.sub(r'\s+', ' ', s)] *)

Lemma greedy_spaces {R} (k : str → option R) s :
  (∀ s', is_Some (k s')) → greedy isspace k s = k (lstrip s).
Proof.
  intros Hk. induction s as [|c s IH]; simpl; [done|].
  destruct (isspace c); [|done]. rewrite IH. by destruct (Hk (lstrip s)) as [r ->].
Qed.

Lemma match_spaces whole s :
  match_at [Plus isspace] whole s =
    match s with
    | c :: s' => if isspace c then Some (None, lstrip s') else None
    | [] => None
    end.
Proof.
  unfold match_at. destruct s as [|c s]; [done|]. cbn [run].
  destruct (isspace c); [|done]. by rewrite greedy_spaces.
Qed.

Lemma sub_go_skip r repl whole k s :
  sub_go r repl whole k s = sub_go r repl whole 0 (drop k s).
Proof.
  revert k. induction s as [|c s IH]; intros [|k]; simpl; done.
Qed.

Lemma collapse_cons whole c s :
  collapse whole (c :: s) =
    if isspace c then space :: collapse whole (lstrip s)
    else c :: collapse whole s.
Proof.
  unfold collapse at 1. cbn [sub_go]. rewrite match_spaces.
  destruct (isspace c); [|done].
  pose proof (lstrip_length s).
  replace (length (c :: s) - length (lstrip s))
    with (S (length s - length (lstrip s))) by (simpl; lia).
  by rewrite sub_go_skip, lstrip_drop.
Qed.

Lemma collapsed_tail c s : collapsed (c :: s) → collapsed s.
Proof. by intros [_ ?]. Qed.

Lemma collapse_clean_head whole s : clean_head s → clean_head (collapse whole s).
Proof.
  destruct s as [|c s]; [done|]. simpl. intros Hc.
  by rewrite collapse_cons, Hc.
Qed.

Lemma collapse_collapsed whole s : collapsed (collapse whole s).
Proof.
  remember (length s) as n eqn:Hn. revert s Hn.
  induction (lt_wf n) as [n _ IH]. intros [|c s] ->; [done|].
  rewrite collapse_cons. destruct (isspace c) eqn:Hc.
  - split.
    + intros _. split; [done|]. apply collapse_clean_head, lstrip_clean_head.
    + eapply IH; [|done]. pose proof (lstrip_length s). simpl. lia.
  - split; [by rewrite Hc|]. eapply IH; [|done]. simpl. lia.
Qed.

Lemma collapse_id whole s : collapsed s → collapse whole s = s.
Proof.
  induction s as [|c s IH]; [done|]. intros [Hc Hs].
  rewrite collapse_cons. destruct (isspace c).
  - destruct Hc as [-> Hhead]; [done|]. by rewrite lstrip_id, IH.
  - by rewrite IH.
Qed.

Lemma lstrip_collapsed s : collapsed s → collapsed (lstrip s).
Proof.
  induction s as [|c s IH]; [done|]. intros Hs. simpl.
  destruct (isspace c); [|done]. by apply IH, (collapsed_tail c).
Qed.

Lemma collapsed_app s1 s2 : collapsed (s1 ++ s2) → collapsed s1.
Proof.
  induction s1 as [|c s1 IH]; [done|]. simpl. intros [Hc Hs]. split; [|by apply IH].
  intros Hsp. destruct (Hc Hsp) as [-> Hhead]. split; [done|].
  by destruct s1.
Qed.

Lemma rstrip_collapsed s : collapsed s → collapsed (rstrip s).
Proof.
  intros Hs. unfold rstrip.
  destruct (lstrip_suffix (reverse s)) as (ws & Hrev & _).
  apply (collapsed_app _ (reverse ws)).
  by rewrite <-reverse_app, <-Hrev, reverse_involutive.
Qed.

Lemma strip_collapsed s : collapsed s → collapsed (strip s).
Proof. intros. by apply rstrip_collapsed, lstrip_collapsed. Qed.

(** C9. The affiliation clean-up of [handle_endtag] (collapse every run of
    white space to one blank, strip, and write "N/A" for an empty result or
    a bare separator) gives the same string when it is applied to its own
    result. *)
Theorem clean_institution_idempotent (s : str) :
  clean_institution (clean_institution s) = clean_institution s.
Proof.
  set (t := strip (sub [Plus isspace] (lit " ") s)).
  assert (collapsed t ∧ strip t = t) as [Ht1 Ht2].
  { split; [apply strip_collapsed, collapse_collapsed|apply strip_strip]. }
  assert (clean_institution s =
          if negb (truthy (VStr t)) || bool_decide (t ∈ separators)
          then lit "N/A" else t) as -> by done.
  destruct (negb (truthy (VStr t)) || bool_decide (t ∈ separators)) eqn:Hsep.
  - by vm_compute.
  - unfold clean_institution, sub.
    fold (collapse t t). rewrite collapse_id, Ht2 by done.
    by rewrite Hsep.
Qed.

(** ** The extractor: emitted records *)

Lemma has_typed d (k : string) :
  (∀ v, d !! lit k = Some v → ∃ t, v = VStr t) →
  has d k = true → ∃ t, d !! lit k = Some (VStr t) ∧ t ≠ [].
Proof.
  unfold has, get. intros Hty. destruct (d !! lit k) as [v|] eqn:Hv; simpl; [|done].
  destruct (Hty v eq_refl) as [t ->]. simpl. intros Ht%bool_decide_eq_true. eauto.
Qed.

Lemma assign_inv k t s s' :
  extractor_inv s → assign k (VStr t) s = Ok s' →
  extractor_inv s' ∧ papers s' = papers s.
Proof.
  unfold assign. intros [Hp Hs]. destruct (current_paper s) as [d|] eqn:Hd; [|done].
  intros [= <-]. split; [|done]. split; [done|].
  intros d' [= <-] k' v Hk'. destruct (decide (k = k')) as [->|].
  - rewrite lookup_insert_eq. intros [= <-]. eauto.
  - rewrite lookup_insert_ne by done. by eapply Hs.
Qed.

Lemma handle_starttag_inv tag attrs s s' :
  extractor_inv s → handle_starttag tag attrs s = Ok s' → extractor_inv s'.
Proof.
  intros Hinv. unfold handle_starttag.
  set (s1 := if bool_decide (tag = lit "article") then _ else s).
  assert (extractor_inv s1) as H1.
  { subst s1. case_bool_decide; [|done]. destruct Hinv as [? ?].
    split; [done|]. intros d [= <-] k v _. by rewrite lookup_empty. }
  clearbody s1. clear Hinv s.
  set (s2 := if in_article s1 && _ then _ else s1).
  assert (extractor_inv s2) as H2.
  { subst s2. by destruct (_ && _). }
  clearbody s2. clear H1 s1.
  destruct (in_h3 s2 && bool_decide (tag = lit "a")) eqn:Ha.
  - destruct (attrs_get (lit "href") attrs) as [[|c h]|] eqn:Hhref;
      cbn [mbind result_bind].
    + repeat flag_step; try destruct (attrs_get (lit "class") attrs);
        repeat flag_step; intros ?; by simplify_eq.
    + destruct (assign _ _ _) as [s3|] eqn:H3; [|done]. cbn [mbind result_bind].
      apply assign_inv in H3 as [H3 _]; [|done].
      repeat flag_step; try destruct (attrs_get (lit "class") attrs);
        repeat flag_step; intros ?; by simplify_eq.
    + repeat flag_step; try destruct (attrs_get (lit "class") attrs);
        repeat flag_step; intros ?; by simplify_eq.
  - cbn [mbind result_bind].
    repeat flag_step; try destruct (attrs_get (lit "class") attrs);
      repeat flag_step; intros ?; by simplify_eq.
Qed.

Lemma handle_data_inv data s : extractor_inv s → extractor_inv (handle_data data s).
Proof.
  intros Hinv. unfold handle_data.
  destruct (capture_text s); simpl; by destruct (in_institution_span s).
Qed.

(** Closing the item never raises, and adds a record only from a scratch
    record that has both fields. *)
Lemma handle_endtag_article s :
  ∃ s', handle_endtag (lit "article") s = Ok s' ∧ closes_item s s'.
Proof.
  unfold handle_endtag.
  rewrite (bool_decide_false (lit "article" = lit "a")) by lit_neq.
  rewrite (bool_decide_false (lit "article" = lit "h3")) by lit_neq.
  rewrite (bool_decide_false (lit "article" = lit "span")) by lit_neq.
  rewrite (bool_decide_true (lit "article" = lit "article")) by reflexivity.
  cbn [andb mbind result_bind].
  destruct (in_article s) eqn:Hart; [|eexists; split; [done|by left]].
  destruct (current_paper s) as [d|] eqn:Hd; [|eexists; split; [done|by left]].
  destruct (truthy (VDict d) && has d "title" && has d "url") eqn:Hok;
    [|eexists; split; [done|by left]].
  apply andb_prop in Hok as [[_ ?]%andb_prop ?].
  eexists. split; [done|]. right. exists d. by rewrite Hd.
Qed.

Lemma handle_endtag_inv tag s s' :
  extractor_inv s → handle_endtag tag s = Ok s' → extractor_inv s'.
Proof.
  intros Hinv. unfold handle_endtag.
  set (r1 := if bool_decide (tag = lit "a") && in_a s then _ else Ok s).
  assert (∀ s1, r1 = Ok s1 → extractor_inv s1) as H1.
  { subst r1. intros s1. destruct (_ && _); [|by intros [= <-]].
    destruct (truthy _); cbn [mbind result_bind].
    - destruct (assign _ _ _) as [s0|] eqn:H0; cbn [mbind result_bind]; [|done].
      apply assign_inv in H0 as [H0 _]; [|done]. by intros [= <-].
    - by intros [= <-]. }
  destruct r1 as [s1|]; [|done]. specialize (H1 s1 eq_refl).
  clear Hinv. cbn [mbind result_bind].
  set (s2 := if bool_decide (tag = lit "h3") && in_h3 s1 then _ else s1).
  assert (extractor_inv s2) as H2 by (subst s2; by destruct (_ && _)).
  clearbody s2. clear H1 s1.
  set (s3 := if bool_decide (tag = lit "span") && in_institution_span s2 then _ else s2).
  assert (extractor_inv s3) as H3 by (subst s3; by destruct (_ && _)).
  clearbody s3. clear H2 s2.
  destruct (bool_decide (tag = lit "article") && in_article s3); [|by intros [= <-]].
  intros [= <-]. destruct H3 as [Hp Hs]. split; [|by intros d [=]].
  simpl. destruct (current_paper s3) as [d|] eqn:Hd; [|done].
  destruct (_ && has d "url") eqn:Hok; [|done].
  apply andb_prop in Hok as [[_ Ht]%andb_prop Hu].
  simpl. apply Forall_app. split; [done|]. apply Forall_singleton.
  apply has_typed in Ht as (title & Ht & ?); [|by intros v; apply (Hs d Hd); right].
  apply has_typed in Hu as (url & Hu & ?); [|by intros v; apply (Hs d Hd); left].
  exists url, title. by rewrite !lookup_insert_ne by lit_neq.
Qed.

Lemma handle_inv e s s' : extractor_inv s → handle e s = Ok s' → extractor_inv s'.
Proof.
  destruct e as [tag attrs|tag|data]; simpl.
  - apply handle_starttag_inv.
  - apply handle_endtag_inv.
  - intros ? [= <-]. by apply handle_data_inv.
Qed.

Lemma feed_inv events s : extractor_inv s → extractor_inv (feed events s).1.
Proof.
  revert s. induction events as [|e events IH]; intros s Hinv; simpl; [done|].
  destruct (handle e s) as [s'|] eqn:He; [|done].
  by apply IH, (handle_inv e s).
Qed.

Lemma init_inv : extractor_inv init.
Proof. split; [constructor|]. by intros d [=]. Qed.

(** C2. Whatever events the listing page gives rise to, every record the
    extractor has emitted, when it reaches the end of the page or when a
    handler raises, has a non-empty string under [url] and a non-empty
    string under [title]; and the handler of the closing item tag, in any
    state of the parser, returns without raising and either leaves the list
    of records as it is or appends the scratch record, which then has both
    fields. *)
Theorem extractor_emits_well_formed_records :
  (∀ events, Forall well_formed (papers (feed events init).1)) ∧
  (∀ s, ∃ s', handle_endtag (lit "article") s = Ok s' ∧ closes_item s s').
Proof.
  split.
  - intros events. apply (feed_inv events init init_inv).
  - apply handle_endtag_article.
Qed.

(** ** Detail pages: the fall-back of the full abstract *)

(** C4. When the detail page has no "Abstract" heading, or has one that is
    followed by a next [<h2] with fewer than two paragraph blocks in
    between, the full abstract that [extract_abstracts] returns is the
    short abstract it returns for the same page.  (The same holds when the
    heading is followed by no [<h2] at all.) *)
Theorem full_abstract_falls_back (isdecimal : char → bool) (html : str) :
  search abstract_re html = None ∨
  (∃ abstract_match,
     search abstract_re html = Some abstract_match ∧
     (search h2_re (m_rest abstract_match) = None ∨
      ∃ next_h2,
        search h2_re (m_rest abstract_match) = Some next_h2 ∧
        length (findall p_re (take (m_start next_h2) (m_rest abstract_match))) < 2)) →
  abstract_full (extract_abstracts isdecimal html)
  = abstract_short (extract_abstracts isdecimal html).
Proof.
  unfold extract_abstracts, extract_full. simpl.
  intros [->|(m & -> & [->|(h & -> & Hlen)])]; [done..|].
  rewrite bool_decide_false; [done|lia].
Qed.

Lemma full_abstract_falls_back_witness :
  abstract_full (extract_abstracts ascii_digit one_paragraph_page)
  = abstract_short (extract_abstracts ascii_digit one_paragraph_page).
Proof.
  apply full_abstract_falls_back. right.
  exists {| m_start := 0; m_group := None;
            m_rest := lit "<p>only a byline</p><h2>Next</h2>" |}.
  split; [by vm_compute|]. right.
  exists {| m_start := 20; m_group := None; m_rest := lit ">Next</h2>" |}.
  split; [by vm_compute|]. vm_compute. lia.
Defined.

(** With two paragraph blocks the second one is taken, without its tags and
    without the leading boilerplate. *)
Example second_paragraph_is_taken :
  abstract_full (extract_abstracts ascii_digit two_paragraph_page) = lit "The text."
  ∧ abstract_short (extract_abstracts ascii_digit two_paragraph_page) = not_available.
Proof. by vm_compute. Qed.

(** ** Workers: the retry loops *)

Lemma extends_refl w : extends w w.
Proof. exists []. by rewrite app_nil_r. Qed.

Lemma extends_trans w1 w2 w3 : extends w1 w2 → extends w2 w3 → extends w1 w3.
Proof.
  intros (n1 & H1 & ?) (n2 & H2 & ?). exists (n1 ++ n2).
  rewrite H2, H1, app_assoc. split; [done|]. by apply Forall_app.
Qed.

Section worker.
Variable MAX_RETRIES : Z.
Variable TARGET_LANGUAGES : list str.
Variable isdecimal : char → bool.
Variable now : str.
Variable backend : nat → result str.

Local Abbreviation outside := (outside backend).
Local Abbreviation fetch_loop := (fetch_loop MAX_RETRIES backend).
Local Abbreviation translate_loop := (translate_loop backend).
Local Abbreviation translate_field := (translate_field TARGET_LANGUAGES backend).
Local Abbreviation process_fresh :=
  (process_fresh MAX_RETRIES TARGET_LANGUAGES isdecimal backend).
Local Abbreviation process_paper :=
  (process_paper MAX_RETRIES TARGET_LANGUAGES isdecimal now backend).

(** *** The retry loops *)

Lemma calls_0 c w : calls 0 c w = w.
Proof. destruct w. unfold calls. simpl. by rewrite app_nil_r. Qed.

Lemma calls_S n c w :
  calls n c {| paper := paper w; trace := trace w ++ [c] |} = calls (S n) c w.
Proof. unfold calls. simpl. by rewrite <-app_assoc. Qed.

Lemma translate_loop_fails text lang n w :
  (∀ k, k < n → ∃ e, backend (length (trace w) + k) = Raise e) →
  translate_loop text lang n w = (Ok text, calls n (Translate text lang) w).
Proof.
  revert w. induction n as [|n IH]; intros w Hfail; simpl.
  - by rewrite calls_0.
  - unfold catch, fmap, M_fmap, Pipeline.outside.
    destruct (Hfail 0) as [e He]; [lia|]. rewrite Nat.add_0_r in He. rewrite He.
    rewrite IH, calls_S; [done|].
    intros k Hk. simpl. rewrite length_app. simpl.
    destruct (Hfail (S k)) as [e' He']; [lia|].
    exists e'. rewrite <-He'. f_equal. lia.
Qed.

Lemma translate_loop_returns text lang n w :
  ∃ v k, translate_loop text lang n w = (Ok v, calls k (Translate text lang) w).
Proof.
  revert w. induction n as [|n IH]; intros w; simpl.
  - exists text, 0. by rewrite calls_0.
  - unfold catch, fmap, M_fmap, Pipeline.outside.
    destruct (backend (length (trace w))) as [t|e].
    + exists (VStr t), 1. done.
    + destruct (IH {| paper := paper w; trace := trace w ++ [Translate text lang] |})
        as (v & k & ->).
      exists v, (S k). by rewrite calls_S.
Qed.

Lemma fetch_loop_fails url n w :
  (∀ k, k < n → ∃ e, backend (length (trace w) + k) = Raise e) →
  fetch_loop url n w = (Raise (Exception (failure_message MAX_RETRIES url)), calls n (Get url) w).
Proof.
  revert w. induction n as [|n IH]; intros w Hfail; simpl.
  - by rewrite calls_0.
  - unfold catch, Pipeline.outside.
    destruct (Hfail 0) as [e He]; [lia|]. rewrite Nat.add_0_r in He. rewrite He.
    rewrite IH, calls_S; [done|].
    intros k Hk. simpl. rewrite length_app. simpl.
    destruct (Hfail (S k)) as [e' He']; [lia|].
    exists e'. rewrite <-He'. f_equal. lia.
Qed.

Lemma fetch_loop_returns url n w :
  ∃ r k, fetch_loop url n w = (r, calls k (Get url) w) ∧
         (r = Raise (Exception (failure_message MAX_RETRIES url)) ∨ ∃ html, r = Ok html).
Proof.
  revert w. induction n as [|n IH]; intros w; simpl.
  - exists (Raise (Exception (failure_message MAX_RETRIES url))), 0. rewrite calls_0. eauto.
  - unfold catch, Pipeline.outside.
    destruct (backend (length (trace w))) as [t|e].
    + exists (Ok t), 1. eauto.
    + destruct (IH {| paper := paper w; trace := trace w ++ [Get url] |})
        as (r & k & -> & Hr).
      exists r, (S k). by rewrite calls_S.
Qed.

Lemma calls_extends n c w : allowed c → extends w (calls n c w).
Proof.
  intros Hc. exists (replicate n c). split; [done|].
  by apply Forall_replicate.
Qed.

End worker.

(** ** Workers: the fresh path *)

Lemma bind_inv {A B} (m : M A) (f : A → M B) w r w' :
  (m ≫= f) w = (r, w') →
  (∃ e, m w = (Raise e, w') ∧ r = Raise e) ∨
  (∃ a w1, m w = (Ok a, w1) ∧ f a w1 = (r, w')).
Proof.
  unfold mbind, M_bind. destruct (m w) as [[a|e] w1]; intros H.
  - right. eauto.
  - left. simplify_eq. eauto.
Qed.

Lemma bind_Ok {A B} (m : M A) (f : A → M B) w a w1 :
  m w = (Ok a, w1) → (m ≫= f) w = f a w1.
Proof. unfold mbind, M_bind. by intros ->. Qed.

Lemma bind_Raise {A B} (m : M A) (f : A → M B) w e w1 :
  m w = (Raise e, w1) → (m ≫= f) w = (Raise e, w1).
Proof. unfold mbind, M_bind. by intros ->. Qed.

Section worker.
Variable MAX_RETRIES : Z.
Variable TARGET_LANGUAGES : list str.
Variable isdecimal : char → bool.
Variable now : str.
Variable backend : nat → result str.

Local Abbreviation translate_field := (translate_field TARGET_LANGUAGES backend).
Local Abbreviation enrich_and_translate :=
  (enrich_and_translate MAX_RETRIES TARGET_LANGUAGES isdecimal backend).
Local Abbreviation process_fresh :=
  (process_fresh MAX_RETRIES TARGET_LANGUAGES isdecimal backend).
Local Abbreviation process_paper :=
  (process_paper MAX_RETRIES TARGET_LANGUAGES isdecimal now backend).

(** *** One translated field *)

Lemma translate_loop_body_spec (source prefix : string) langs text w :
  paper w !! lit source = Some text →
  translatable text = true →
  (∀ lang, lit source ≠ lit prefix ++ lang) →
  ∃ w',
    for_each langs (λ lang,
        text' ← paper_get source;
        translated ← translate_with_retry backend text' lang 3;
        paper_set (lit prefix ++ lang) translated) w = (Ok (), w') ∧
    extends w w' ∧
    (∀ k, (∀ lang, k ≠ lit prefix ++ lang) → paper w' !! k = paper w !! k).
Proof.
  intros Hsrc Hok Hne. revert w Hsrc.
  induction langs as [|lang langs IH]; intros w Hsrc.
  - exists w. split; [done|]. split; [apply extends_refl|done].
  - cbn [for_each].
    destruct (translate_loop_returns backend text lang (Z.to_nat 3) w) as (v & n & Hloop).
    set (w1 := calls n (Translate text lang) w) in *.
    set (w2 := {| paper := <[lit prefix ++ lang := v]> (paper w1); trace := trace w1 |}).
    destruct (IH w2) as (w' & Hrest & Hext & Hframe).
    { subst w2 w1. simpl. by rewrite lookup_insert_ne. }
    exists w'. split_and!.
    + erewrite bind_Ok; [exact Hrest|].
      erewrite bind_Ok; [|unfold paper_get, getitem; by rewrite Hsrc].
      unfold translate_with_retry. erewrite bind_Ok; [|exact Hloop]. done.
    + eapply extends_trans; [|exact Hext].
      destruct (calls_extends n (Translate text lang) w) as (new & Hnew & Hall).
      { by apply andb_prop in Hok. }
      by exists new.
    + intros k Hk. rewrite Hframe by done. subst w2 w1. simpl.
      by rewrite lookup_insert_ne.
Qed.

Lemma translate_field_spec (source prefix : string) text w :
  paper w !! lit source = Some text →
  (∀ lang, lit source ≠ lit prefix ++ lang) →
  ∃ w',
    translate_field source prefix w = (Ok (), w') ∧
    extends w w' ∧
    (∀ k, (∀ lang, k ≠ lit prefix ++ lang) → paper w' !! k = paper w !! k) ∧
    (translatable text = false → w' = w).
Proof.
  intros Hsrc Hne. unfold Pipeline.translate_field.
  destruct (translatable text) eqn:Hok.
  - destruct (translate_loop_body_spec source prefix TARGET_LANGUAGES text w)
      as (w' & Hloop & Hext & Hframe); [done..|].
    exists w'. split_and!; [|done..].
    erewrite bind_Ok; [|unfold paper_get, getitem; by rewrite Hsrc].
    by rewrite Hok.
  - exists w. split_and!; [|apply extends_refl|done..].
    erewrite bind_Ok; [|unfold paper_get, getitem; by rewrite Hsrc].
    by rewrite Hok.
Qed.

(** *** The [except] clause *)

Lemma mark_failed_spec e w :
  (∃ e', log_title (paper w) = Raise e' ∧ mark_failed e w = (Raise e', w)) ∨
  (log_title (paper w) = Ok () ∧
   mark_failed e w =
     (Ok ThePaper, {| paper := marked e (paper w); trace := trace w |})).
Proof.
  unfold mark_failed.
  destruct (log_title (paper w)) as [[]|e'] eqn:Hlog.
  - right. split; [done|].
    erewrite bind_Ok; [|unfold paper_log_title, with_paper; by rewrite Hlog].
    erewrite bind_Ok; [|done].
    erewrite bind_Ok; [|unfold paper_get, getitem; simpl; by rewrite lookup_insert_eq].
    done.
  - left. exists e'. split; [done|].
    erewrite bind_Raise; [done|]. unfold paper_log_title, with_paper. by rewrite Hlog.
Qed.

Lemma marker_translatable e : translatable (VStr (error_marker e)) = true.
Proof.
  unfold translatable, error_marker, truthy, differs_from.
  rewrite !bool_decide_true; [done|lit_neq|lit_neq].
Qed.

(** *** The body of [try] *)

Lemma enriched_other html paper0 k :
  k ∉ [lit "abstract"; lit "abstract_short"; lit "arxiv_abs"; lit "arxiv_pdf";
       lit "authors"] →
  enriched isdecimal html paper0 !! k = paper0 !! k.
Proof.
  intros Hk. unfold enriched.
  rewrite !lookup_insert_ne; [done|intros <-; apply Hk; repeat constructor..].
Qed.

Lemma enriched_frame html paper0 k :
  ¬ written k → enriched isdecimal html paper0 !! k = paper0 !! k.
Proof. intros Hk. apply enriched_other. intros ?. apply Hk. by left. Qed.

Lemma enriched_translation html paper0 (prefix : string) lang :
  (prefix = "description_" ∨ prefix = "abstractFull_") →
  enriched isdecimal html paper0 !! (lit prefix ++ lang) = paper0 !! (lit prefix ++ lang).
Proof.
  intros Hp. apply enriched_other. intros Hk.
  destruct Hp as [-> | ->]; vm_compute in Hk;
    repeat (apply elem_of_cons in Hk as [Hk|Hk]; [discriminate Hk|]);
    by apply elem_of_nil in Hk.
Qed.

Lemma written_prefix (prefix : string) k :
  (prefix = "description_" ∨ prefix = "abstractFull_") →
  ¬ written k → ∀ lang, k ≠ lit prefix ++ lang.
Proof.
  intros Hp Hk lang ->. apply Hk. right. exists lang.
  destruct Hp as [-> | ->]; eauto.
Qed.

Lemma title_not_written : ¬ written (lit "title").
Proof.
  intros [H|[lang [H|H]]].
  - vm_compute in H.
    repeat (apply elem_of_cons in H as [H|H]; [discriminate H|]).
    by apply elem_of_nil in H.
  - vm_compute in H. discriminate H.
  - vm_compute in H. discriminate H.
Qed.

Lemma log_title_frame (d d' : dict) :
  d' !! lit "title" = d !! lit "title" → log_title d' = log_title d.
Proof. unfold log_title, getitem. by intros ->. Qed.

Lemma enrich_and_translate_spec w r w' :
  enrich_and_translate w = (r, w') →
  extends w w' ∧
  (∀ k, ¬ written k → paper w' !! k = paper w !! k) ∧
  ((∃ e, r = Raise e) ∨
   (r = Ok ThePaper ∧ ∃ short full,
      paper w' !! lit "abstract_short" = Some (VStr short) ∧
      paper w' !! lit "abstract" = Some (VStr full) ∧
      (translatable (VStr short) = false →
       ∀ lang, paper w' !! (lit "description_" ++ lang)
               = paper w !! (lit "description_" ++ lang)) ∧
      (translatable (VStr full) = false →
       ∀ lang, paper w' !! (lit "abstractFull_" ++ lang)
               = paper w !! (lit "abstractFull_" ++ lang)))).
Proof.
  unfold Pipeline.enrich_and_translate. intros H.
  apply bind_inv in H as [(e & H & ->)|(key & w0 & Hkey & H)].
  { unfold paper_get in H. simplify_eq. split_and!; [apply extends_refl|done|eauto]. }
  unfold paper_get in Hkey. injection Hkey as Hkey <-.
  apply bind_inv in H as [(e & H & ->)|(url & w0 & Hurl & H)].
  { unfold lift in H. simplify_eq. split_and!; [apply extends_refl|done|eauto]. }
  unfold lift in Hurl. injection Hurl as Hurl <-.
  destruct (fetch_loop_returns MAX_RETRIES backend url (Z.to_nat MAX_RETRIES) w)
    as (rf & n & Hfetch & Hrf).
  assert (extends w (calls n (Get url) w)) as Hext0 by by apply calls_extends.
  apply bind_inv in H as [(e & H & ->)|(html & wf & Hhtml & H)].
  { unfold fetch_with_retry in H. rewrite Hfetch in H. simplify_eq.
    split_and!; [done|done|eauto]. }
  unfold fetch_with_retry in Hhtml. rewrite Hfetch in Hhtml.
  injection Hhtml as -> <-.
  set (w1 := calls n (Get url) w) in *.
  set (w2 := {| paper := enriched isdecimal html (paper w1); trace := trace w1 |}).
  assert (extends w w2) as Hext2 by done.
  assert (∀ k, ¬ written k → paper w2 !! k = paper w !! k) as Hframe2.
  { intros k Hk. subst w2 w1. simpl. by apply enriched_frame. }
  apply bind_inv in H as [(e & H & ->)|([] & w2' & Hupd & H)]; [done|].
  assert (w2' = w2) as -> by (unfold paper_update in Hupd; by simplify_eq).
  clear Hupd.
  apply bind_inv in H as [(e & H & ->)|([] & w2' & Hlog & H)].
  { unfold paper_log_title, with_paper in H. simplify_eq.
    split_and!; [done|done|eauto]. }
  assert (w2' = w2) as -> by (unfold paper_log_title, with_paper in Hlog; by simplify_eq).
  set (d := extract_abstracts isdecimal html) in *.
  destruct (translate_field_spec
              "abstract_short" "description_" (VStr (abstract_short d)) w2)
    as (w3 & H3 & Hext3 & Hframe3 & Hskip3).
  { subst w2. simpl. unfold enriched. fold d.
    by rewrite !lookup_insert_ne, lookup_insert_eq by lit_neq. }
  { intros lang. lit_neq. }
  rewrite (bind_Ok _ _ _ _ _ H3) in H.
  destruct (translate_field_spec
              "abstract" "abstractFull_" (VStr (abstract_full d)) w3)
    as (w4 & H4 & Hext4 & Hframe4 & Hskip4).
  { rewrite Hframe3 by (intros lang; lit_neq). subst w2. simpl. unfold enriched. fold d.
    by rewrite !lookup_insert_ne, lookup_insert_eq by lit_neq. }
  { intros lang. lit_neq. }
  rewrite (bind_Ok _ _ _ _ _ H4) in H.
  assert (extends w w4) as Hext.
  { eapply extends_trans; [|exact Hext4]. eapply extends_trans; [|exact Hext3]. done. }
  assert (∀ k, ¬ written k → paper w4 !! k = paper w !! k) as Hframe.
  { intros k Hk. rewrite Hframe4, Hframe3, Hframe2; [done|done|..].
    - apply written_prefix; eauto.
    - apply written_prefix; eauto. }
  apply bind_inv in H as [(e & H & ->)|([] & w4' & Hlog4 & H)].
  { unfold paper_log_title, with_paper in H. simplify_eq.
    split_and!; [done|done|eauto]. }
  assert (w4' = w4) as -> by (unfold paper_log_title, with_paper in Hlog4; by simplify_eq).
  unfold mret, M_ret in H. simplify_eq.
  split_and!; [done|done|]. right. split; [done|].
  exists (abstract_short d), (abstract_full d).
  assert (paper w2 !! lit "abstract_short" = Some (VStr (abstract_short d))) as Hs2.
  { subst w2. simpl. unfold enriched. fold d.
    by rewrite !lookup_insert_ne, lookup_insert_eq by lit_neq. }
  assert (paper w2 !! lit "abstract" = Some (VStr (abstract_full d))) as Hf2.
  { subst w2. simpl. unfold enriched. fold d.
    by rewrite !lookup_insert_ne, lookup_insert_eq by lit_neq. }
  split_and!.
  - rewrite Hframe4, Hframe3 by (intros lang; lit_neq). done.
  - rewrite Hframe4, Hframe3 by (intros lang; lit_neq). done.
  - intros Hno lang. rewrite Hframe4 by (intros lang'; lit_neq).
    rewrite (Hskip3 Hno). subst w2 w1. simpl.
    apply (enriched_translation _ _ "description_"). by left.
  - intros Hno lang. rewrite (Hskip4 Hno).
    rewrite Hframe3 by (intros lang'; lit_neq). subst w2 w1. simpl.
    apply (enriched_translation _ _ "abstractFull_"). by right.
Qed.
End worker.

(** ** Workers: the cache hit *)

Section worker.
Variable MAX_RETRIES : Z.
Variable TARGET_LANGUAGES : list str.
Variable isdecimal : char → bool.
Variable now : str.
Variable backend : nat → result str.

Local Abbreviation process_fresh :=
  (process_fresh MAX_RETRIES TARGET_LANGUAGES isdecimal backend).
Local Abbreviation process_paper :=
  (process_paper MAX_RETRIES TARGET_LANGUAGES isdecimal now backend).

Lemma not_translatable text :
  text = [] ∨ text = not_available → translatable (VStr text) = false.
Proof.
  unfold translatable, truthy, differs_from. intros [-> | ->].
  - by rewrite bool_decide_false by (by intros []).
  - rewrite (bool_decide_false (not_available ≠ not_available)) by (by intros []).
    apply andb_false_r.
Qed.

Lemma process_fresh_spec w r w' :
  process_fresh w = (r, w') →
  extends w w' ∧
  (∀ k, ¬ written k → paper w' !! k = paper w !! k) ∧
  ((∃ e, r = Raise e ∧ log_title (paper w) = Raise e) ∨
   (r = Ok ThePaper ∧ untranslated_kept w w')).
Proof.
  unfold Pipeline.process_fresh, catch.
  destruct (enrich_and_translate _ _ _ _ w) as [rb wb] eqn:Hbody.
  apply enrich_and_translate_spec in Hbody as (Hext & Hframe & Hres).
  destruct rb as [ret|e].
  - intros [= <- <-]. split_and!; [done..|]. right.
    destruct Hres as [[e [=]]|(-> & short & full & Hs & Hf & Hd & Ha)].
    split; [done|]. split.
    + intros text Ht Hno. rewrite Hs in Ht. injection Ht as <-.
      by apply Hd, not_translatable.
    + intros text Ht Hno. rewrite Hf in Ht. injection Ht as <-.
      by apply Ha, not_translatable.
  - clear Hres. intros Hh.
    assert (log_title (paper wb) = log_title (paper w)) as Hlog.
    { apply log_title_frame, Hframe, title_not_written. }
    destruct (mark_failed_spec e wb) as [(e' & He' & Hm)|[Hok Hm]];
      rewrite Hm in Hh; injection Hh as <- <-.
    + split_and!; [done..|]. left. exists e'. by rewrite <-Hlog.
    + split_and!.
      * destruct Hext as (new & ? & ?). by exists new.
      * intros k Hk. simpl. unfold marked.
        rewrite !lookup_insert_ne; [by apply Hframe|..];
          intros <-; apply Hk; left; repeat constructor.
      * right. split; [done|].
        pose proof (marker_translatable e) as Hm'.
        split; intros text Ht Hno; simpl in Ht; unfold marked in Ht.
        -- rewrite lookup_insert_eq in Ht. injection Ht as <-.
           apply not_translatable in Hno. congruence.
        -- rewrite lookup_insert_ne, lookup_insert_eq in Ht by lit_neq.
           injection Ht as <-. apply not_translatable in Hno. congruence.
Qed.

(** *** The cache hit *)

Lemma translation_key_inj (p : string) lang lang' :
  lit p ++ lang = lit p ++ lang' → lang = lang'.
Proof. apply app_inv_head. Qed.

Lemma vget_chain cached_paper (which : string) lang v :
  (vget (get cached_paper (lit "translations") (VDict ∅)) (lit which) (VDict ∅)
     ≫= λ m, vget m lang (VStr [])) = Ok v →
  v = cached_translation cached_paper which lang.
Proof.
  unfold cached_translation, get.
  destruct (cached_paper !! lit "translations") as [[| | |t]|]; simpl; try done.
  - unfold get. destruct (t !! lit which) as [[| | |m]|]; simpl; try done.
    + by intros [= <-].
    + by intros [= <-].
  - by intros [= <-].
Qed.

Lemma vget_chain_Ok cached_paper (which : string) lang :
  well_shaped cached_paper →
  (which = "descriptions" ∨ which = "abstract_fulls") →
  ∃ m, vget (get cached_paper (lit "translations") (VDict ∅)) (lit which) (VDict ∅)
       = Ok m ∧ ∃ v, vget m lang (VStr []) = Ok v.
Proof.
  unfold well_shaped, get.
  destruct (cached_paper !! lit "translations") as [[| | |t]|]; simpl; try done.
  - intros [Hd Ha] Hw. unfold get.
    assert (dict_or_absent (t !! lit which)) as H by (by destruct Hw as [-> | ->]).
    destruct (t !! lit which) as [[| | |m]|]; simpl in *; try done; eauto.
  - intros _ _. eauto.
Qed.

Lemma restore_translations_spec cached_paper result0 langs r :
  restore_translations langs (get cached_paper (lit "translations") (VDict ∅)) result0
    = Ok r →
  (∀ lang, lang ∈ langs →
     r !! (lit "description_" ++ lang)
       = Some (cached_translation cached_paper "descriptions" lang) ∧
     r !! (lit "abstractFull_" ++ lang)
       = Some (cached_translation cached_paper "abstract_fulls" lang)) ∧
  (∀ k, (∀ lang, k ≠ lit "description_" ++ lang ∧ k ≠ lit "abstractFull_" ++ lang) →
     r !! k = result0 !! k).
Proof.
  unfold restore_translations. revert r.
  induction langs as [|x langs IH] using rev_ind; intros r.
  - simpl. intros [= <-]. split; [|done]. by intros lang ?%elem_of_nil.
  - rewrite foldl_snoc.
    destruct (foldl _ _ langs) as [r1|] eqn:Hfold; [|done].
    destruct (IH r1 eq_refl) as [IH1 IH2]. clear IH.
    cbn [mbind result_bind].
    destruct (vget _ (lit "descriptions") _) as [md|] eqn:H1;
      cbn [mbind result_bind]; [|done].
    destruct (vget md x _) as [d|] eqn:H2; cbn [mbind result_bind]; [|done].
    destruct (vget _ (lit "abstract_fulls") _) as [ma|] eqn:H3;
      cbn [mbind result_bind]; [|done].
    destruct (vget ma x _) as [a|] eqn:H4; cbn [mbind result_bind]; [|done].
    assert (d = cached_translation cached_paper "descriptions" x) as ->.
    { apply vget_chain. unfold mbind, result_bind. by rewrite H1. }
    assert (a = cached_translation cached_paper "abstract_fulls" x) as ->.
    { apply vget_chain. unfold mbind, result_bind. by rewrite H3. }
    intros [= <-]. split.
    + intros lang Hin. destruct (decide (lang = x)) as [->|Hne].
      * split.
        -- by rewrite lookup_insert_ne, lookup_insert_eq by lit_neq.
        -- by rewrite lookup_insert_eq.
      * apply elem_of_app in Hin as [Hin|Hin%list_elem_of_singleton]; [|done].
        destruct (IH1 lang Hin) as [Hd1 Ha1]. split.
        -- rewrite lookup_insert_ne by lit_neq.
           rewrite lookup_insert_ne; [done|].
           intros Heq. by apply (translation_key_inj "description_") in Heq.
        -- rewrite lookup_insert_ne.
           2: { intros Heq. by apply (translation_key_inj "abstractFull_") in Heq. }
           by rewrite lookup_insert_ne by lit_neq.
    + intros k Hk. destruct (Hk x) as [? ?].
      rewrite !lookup_insert_ne by done. by apply IH2.
Qed.

Lemma restore_translations_Ok cached_paper result0 langs :
  well_shaped cached_paper →
  ∃ r, restore_translations langs
         (get cached_paper (lit "translations") (VDict ∅)) result0 = Ok r.
Proof.
  intros Hshape. unfold restore_translations.
  induction langs as [|x langs [r1 IH]] using rev_ind; [by eexists|].
  rewrite foldl_snoc, IH. cbn [mbind result_bind].
  destruct (vget_chain_Ok cached_paper "descriptions" x Hshape) as (md & -> & d & Hd);
    [by left|].
  destruct (vget_chain_Ok cached_paper "abstract_fulls" x Hshape) as (ma & -> & a & Ha);
    [by right|].
  cbn [mbind result_bind]. rewrite Hd, Ha. by eexists.
Qed.

(** The record built on a cache hit carries both translated fields for
    every configured language. *)
Lemma restore_spec paper0 cached_paper r :
  restore TARGET_LANGUAGES now paper0 cached_paper = Ok r →
  ∀ lang, lang ∈ TARGET_LANGUAGES →
    r !! (lit "description_" ++ lang)
      = Some (cached_translation cached_paper "descriptions" lang) ∧
    r !! (lit "abstractFull_" ++ lang)
      = Some (cached_translation cached_paper "abstract_fulls" lang).
Proof.
  unfold restore.
  destruct (log_title paper0); [|done]. cbn [mbind result_bind].
  destruct (getitem cached_paper (lit "title")); [|done]. cbn [mbind result_bind].
  destruct (getitem cached_paper (lit "url")); [|done]. cbn [mbind result_bind].
  intros H. by apply restore_translations_spec in H as [H _].
Qed.

Lemma restore_Ok paper0 cached_paper :
  log_title paper0 = Ok () →
  is_Some (cached_paper !! lit "title") →
  is_Some (cached_paper !! lit "url") →
  well_shaped cached_paper →
  ∃ r, restore TARGET_LANGUAGES now paper0 cached_paper = Ok r.
Proof.
  intros Hlog [t Ht] [u Hu] Hshape. unfold restore, getitem.
  rewrite Hlog, Ht, Hu. cbn [mbind result_bind].
  by apply restore_translations_Ok.
Qed.
End worker.

(** ** Workers: [process_paper] *)

Section worker.
Variable MAX_RETRIES : Z.
Variable TARGET_LANGUAGES : list str.
Variable isdecimal : char → bool.
Variable now : str.
Variable backend : nat → result str.

Local Abbreviation process_fresh :=
  (process_fresh MAX_RETRIES TARGET_LANGUAGES isdecimal backend).
Local Abbreviation process_paper :=
  (process_paper MAX_RETRIES TARGET_LANGUAGES isdecimal now backend).

Lemma process_paper_cases pd pc w r w' :
  process_paper pd pc w = (r, w') →
  process_fresh w = (r, w') ∨
  (w' = w ∧ ∃ e, r = Raise e ∧
     ∀ url, paper w !! lit "url" ≠ Some (VStr url)) ∨
  (w' = w ∧ ∃ cached_paper,
     cache_hit pd pc (paper w) cached_paper ∧
     r = Built <$> restore TARGET_LANGUAGES now (paper w) cached_paper).
Proof.
  unfold Pipeline.process_paper.
  destruct pd as [[|item items]|]; [by left| |by left].
  intros H.
  apply bind_inv in H as [(e & H & ->)|(key & w0 & Hkey & H)].
  { right; left. unfold paper_get, getitem in H.
    destruct (paper w !! lit "url") eqn:Hu; [done|].
    injection H as <- <-. split; [done|]. exists (KeyError (lit "url")).
    split; [done|]. by intros url. }
  unfold paper_get in Hkey. injection Hkey as Hkey <-.
  apply bind_inv in H as [(e & H & ->)|(url & w0 & Hurl & H)].
  { right; left. unfold lift in H. injection H as H <-. split; [done|].
    exists e. split; [done|]. intros url Hu.
    unfold getitem in Hkey. rewrite Hu in Hkey. by simplify_eq. }
  unfold lift in Hurl. injection Hurl as Hurl <-.
  assert (paper w !! lit "url" = Some (VStr url)) as Hu.
  { unfold getitem in Hkey. destruct (paper w !! lit "url"); [|done].
    destruct key; simpl in Hurl; by simplify_eq. }
  destruct pc as [cache|]; [|by left].
  destruct (known url (item :: items)) eqn:Hknown; [|by left].
  case_bool_decide as Hne; [|by left]. simpl in H. revert H.
  destruct (cache !! url) as [cached_paper|] eqn:Hc; [|by left].
  destruct (bool_decide (cached_paper ≠ ∅)) eqn:Htr; [|by left].
  intros H. right; right. unfold fmap, M_fmap, with_paper in H. revert H.
  destruct (restore _ _ _ _) as [d|e] eqn:Hr; intros H; injection H as <- <-.
  - split; [done|]. exists cached_paper. split; [|by rewrite Hr].
    exists (item :: items), cache, url. split_and!; try done.
    + by apply bool_decide_eq_true in Hknown.
    + by apply bool_decide_eq_true in Htr.
  - split; [done|]. exists cached_paper. split; [|by rewrite Hr].
    exists (item :: items), cache, url. split_and!; try done.
    + by apply bool_decide_eq_true in Hknown.
    + by apply bool_decide_eq_true in Htr.
Qed.

Lemma process_paper_hit pd pc w cached_paper :
  cache_hit pd pc (paper w) cached_paper →
  process_paper pd pc w
  = (Built <$> restore TARGET_LANGUAGES now (paper w) cached_paper, w).
Proof.
  intros (items & cache & url & -> & -> & Hu & Hin & Hc & Hne).
  unfold Pipeline.process_paper.
  destruct items as [|item items]; [by apply elem_of_nil in Hin|].
  erewrite bind_Ok; [|unfold paper_get, getitem; by rewrite Hu].
  erewrite bind_Ok; [|done].
  unfold known. rewrite bool_decide_true by done.
  rewrite bool_decide_true.
  2: { intros ->. by rewrite lookup_empty in Hc. }
  simpl. rewrite Hc. rewrite bool_decide_true by done.
  unfold fmap at 1, M_fmap, with_paper.
  by destruct (restore _ _ _ _).
Qed.

Lemma process_paper_spec pd pc w r w' :
  process_paper pd pc w = (r, w') →
  extends w w' ∧
  (∀ k, ¬ written k → paper w' !! k = paper w !! k) ∧
  (r = Ok ThePaper → untranslated_kept w w') ∧
  (log_title (paper w) = Ok () → ∀ e, r = Raise e → w' = w).
Proof.
  intros [H|[(-> & e & -> & _)|(-> & c & _ & ->)]]%process_paper_cases.
  - apply process_fresh_spec in H as (Hext & Hframe & Hres).
    split_and!; [done..| |].
    + intros ->. by destruct Hres as [(e & [=] & _)|[_ ?]].
    + intros Hlog e ->. destruct Hres as [(e' & _ & He')|[[=] _]]. congruence.
  - split_and!; [apply extends_refl|done..].
  - split_and!; [apply extends_refl|done| |done].
    by destruct (restore _ _ _ _).
Qed.
End worker.

(** C5. If every attempt of [translate_with_retry] fails, the function
    returns the text it was given and raises nothing, leaving the paper
    untouched.  And [process_paper] never asks the translator for an empty
    text or for the "[Not available]" marker; when it hands back the paper
    it was given (the fresh path) with such a text as short or as full
    abstract, the translated fields of that text are as they were when the
    paper came in: absent, if the listing record had none. *)
Theorem translation_falls_back_and_skips :
  (∀ (backend : nat → result str) (text : value) (lang : str)
     (max_retries : Z) (w : world),
     (∀ k, k < Z.to_nat max_retries →
        ∃ e, backend (length (trace w) + k) = Raise e) →
     ∃ w', translate_with_retry backend text lang max_retries w = (Ok text, w') ∧
           paper w' = paper w) ∧
  (∀ (MAX_RETRIES : Z) (TARGET_LANGUAGES : list str) (isdecimal : char → bool)
     (now : str) (backend : nat → result str)
     (processed_dict : option timestamps) (paper_cache : option entries)
     (w w' : world) (r : result returned),
     process_paper MAX_RETRIES TARGET_LANGUAGES isdecimal now backend
       processed_dict paper_cache w = (r, w') →
     (∃ new, trace w' = trace w ++ new ∧
        ∀ text lang, Translate (VStr text) lang ∈ new →
          text ≠ [] ∧ text ≠ not_available) ∧
     (r = Ok ThePaper → untranslated_kept w w')).
Proof.
  split.
  - intros backend text lang max_retries w Hfail.
    unfold translate_with_retry. rewrite translate_loop_fails by done.
    by eexists.
  - intros ????????? r H.
    apply process_paper_spec in H as ((new & Hnew & Hall) & _ & Hkept & _).
    split; [|done]. exists new. split; [done|].
    intros text lang Hin. rewrite Forall_forall in Hall.
    destruct (Hall _ Hin) as [Ht Hd]. simpl in Ht, Hd.
    by split; eapply bool_decide_eq_true_1.
Qed.

Lemma translation_falls_back_and_skips_witness :
  (∃ w', translate_with_retry down (VStr (lit "An abstract.")) (lit "zh-CN") 3
           fresh_world = (Ok (VStr (lit "An abstract.")), w') ∧
         paper w' = paper fresh_world) ∧
  paper (process_paper 3 zh ascii_digit monday bare_page None None fresh_world).2
    !! (lit "description_" ++ lit "zh-CN") = None.
Proof.
  destruct translation_falls_back_and_skips as [Hfall Hskip]. split.
  - apply Hfall. intros k _. by eexists.
  - destruct (Hskip 3%Z zh ascii_digit monday bare_page None None fresh_world _ _
                (surjective_pairing _)) as [_ Hkept].
    destruct Hkept as [Hshort _]; [vm_compute; reflexivity|].
    rewrite (Hshort not_available).
    + vm_compute. reflexivity.
    + vm_compute. reflexivity.
    + right. reflexivity.
Defined.

(** C10. On a cache hit that builds a record, the record has, for every
    configured language, a translated short and a translated full
    abstract: the value the cache entry stores for that language, or the
    empty string when the entry stores none.  The record is built whenever
    the listed paper has a title, the entry has [title] and [url], and its
    translations, where present, are dictionaries. *)
Theorem cache_hit_restores_translations
    (MAX_RETRIES : Z) (TARGET_LANGUAGES : list str) (isdecimal : char → bool)
    (now : str) (backend : nat → result str)
    (processed_dict : option timestamps) (paper_cache : option entries)
    (w : world) (cached_paper : dict) :
  cache_hit processed_dict paper_cache (paper w) cached_paper →
  (log_title (paper w) = Ok () →
   is_Some (cached_paper !! lit "title") →
   is_Some (cached_paper !! lit "url") →
   well_shaped cached_paper →
   ∃ d, process_paper MAX_RETRIES TARGET_LANGUAGES isdecimal now backend
          processed_dict paper_cache w = (Ok (Built d), w)) ∧
  (∀ r w',
     process_paper MAX_RETRIES TARGET_LANGUAGES isdecimal now backend
       processed_dict paper_cache w = (Ok r, w') →
     ∃ d, r = Built d ∧
       ∀ lang, lang ∈ TARGET_LANGUAGES →
         d !! (lit "description_" ++ lang)
           = Some (cached_translation cached_paper "descriptions" lang) ∧
         d !! (lit "abstractFull_" ++ lang)
           = Some (cached_translation cached_paper "abstract_fulls" lang)).
Proof.
  intros Hhit. rewrite (process_paper_hit _ _ _ _ _ _ _ _ _ Hhit). split.
  - intros Hlog Ht Hu Hshape.
    destruct (restore_Ok TARGET_LANGUAGES now (paper w) cached_paper) as [d ->];
      [done..|].
    by exists d.
  - intros r w'. destruct (restore _ _ _ _) as [d|] eqn:Hr; [|done].
    intros [= <- <-]. exists d. split; [done|].
    by apply (restore_spec TARGET_LANGUAGES now (paper w) cached_paper).
Qed.

(** ** The collection loop *)

Lemma collect_one_slot tasks results i t :
  tasks !! i = Some t →
  collect_one tasks results i = d ← slot t; Ok (<[i := Some d]> results).
Proof.
  intros Ht. unfold collect_one, slot. rewrite Ht. destruct t as [[r|e] w]; simpl.
  - destruct (log_title (match r with ThePaper => _ | Built d => d end)); simpl; [done|].
    destruct (log_title (paper w)); simpl; [|done].
    by rewrite list_insert_insert_eq.
  - by destruct (log_title (paper w)).
Qed.

Lemma slot_Ok t : log_title (paper t.2) = Ok () → ∃ d, slot t = Ok d.
Proof.
  destruct t as [[r|e] w]; unfold slot; simpl; intros ->; simpl; [|eauto].
  destruct r as [|d]; simpl.
  - destruct (log_title (paper w)); eauto.
  - destruct (log_title d); eauto.
Qed.

Lemma collect_fold tasks order acc :
  (∀ i, i ∈ order → i < length acc ∧ ∃ t d, tasks !! i = Some t ∧ slot t = Ok d) →
  ∃ res,
    foldl (λ acc index, results ← acc; collect_one tasks results index)
          (Ok acc) order = Ok res ∧
    length res = length acc ∧
    ∀ i t d, tasks !! i = Some t → slot t = Ok d → i < length acc →
      res !! i = if decide (i ∈ order) then Some (Some d) else acc !! i.
Proof.
  revert acc. induction order as [|j order IH]; intros acc Hall.
  - exists acc. split_and!; [done..|]. intros i t d _ _ _.
    rewrite decide_False; [done|]. by intros ?%elem_of_nil.
  - destruct (Hall j) as (Hj & t & d & Ht & Hd); [apply list_elem_of_here|].
    cbn [foldl mbind result_bind].
    rewrite (collect_one_slot _ _ _ _ Ht), Hd. cbn [mbind result_bind].
    destruct (IH (<[j := Some d]> acc)) as (res & Hres & Hlen & Hlook).
    { intros i Hi. rewrite length_insert. by apply Hall, list_elem_of_further. }
    rewrite length_insert in Hlen, Hlook.
    exists res. split_and!; [done..|].
    intros i t' d' Ht' Hd' Hi. rewrite (Hlook i t' d' Ht' Hd' Hi).
    destruct (decide (i ∈ order)) as [Hin|Hnin].
    + rewrite decide_True; [done|]. by apply list_elem_of_further.
    + destruct (decide (i = j)) as [->|Hne].
      * rewrite decide_True by apply list_elem_of_here.
        rewrite list_lookup_insert_eq by done. congruence.
      * rewrite decide_False.
        2: { intros [?|?]%elem_of_cons; done. }
        by rewrite list_lookup_insert_ne.
Qed.

(** When every future is handed back once and no log line raises, every
    slot of the result list holds the outcome of the worker for its own
    listing position. *)
Lemma collect_fills_slots (order : list nat) (tasks : list (result returned * world)) :
  order ≡ₚ seq 0 (length tasks) →
  Forall (λ t, log_title (paper t.2) = Ok ()) tasks →
  ∃ results,
    collect order tasks = Ok results ∧
    length results = length tasks ∧
    ∀ i t, tasks !! i = Some t →
      ∃ d, slot t = Ok d ∧ results !! i = Some (Some d).
Proof.
  intros Hperm Hlog. rewrite Forall_lookup in Hlog.
  assert (∀ i, i ∈ order ↔ i < length tasks) as Hin.
  { intros i. rewrite Hperm, elem_of_seq. lia. }
  unfold collect.
  destruct (collect_fold tasks order (replicate (length tasks) None))
    as (res & Hres & Hlen & Hlook).
  { intros i Hi%Hin. rewrite length_replicate. split; [done|].
    destruct (lookup_lt_is_Some_2 tasks i Hi) as [t Ht].
    destruct (slot_Ok t) as [d Hd]; [by eapply Hlog|]. eauto. }
  rewrite length_replicate in Hlen, Hlook.
  exists res. split_and!; [done..|].
  intros i t Ht. destruct (slot_Ok t) as [d Hd]; [by eapply Hlog|].
  exists d. split; [done|].
  assert (i < length tasks) as Hi by by eapply lookup_lt_Some.
  rewrite (Hlook i t d Ht Hd Hi). rewrite decide_True; [done|]. by apply Hin.
Qed.

(** ** Failures of single records *)

Section worker.
Variable MAX_RETRIES : Z.
Variable TARGET_LANGUAGES : list str.
Variable isdecimal : char → bool.
Variable now : str.
Variable backend : nat → result str.

Local Abbreviation process_fresh :=
  (process_fresh MAX_RETRIES TARGET_LANGUAGES isdecimal backend).
Local Abbreviation process_paper :=
  (process_paper MAX_RETRIES TARGET_LANGUAGES isdecimal now backend).

Lemma process_fresh_fetch_fails w url :
  paper w !! lit "url" = Some (VStr url) →
  log_title (paper w) = Ok () →
  (∀ k, k < Z.to_nat MAX_RETRIES →
     ∃ e, backend (length (trace w) + k) = Raise e) →
  process_fresh w =
    (Ok ThePaper,
     {| paper := marked (Exception (failure_message MAX_RETRIES url)) (paper w);
        trace := trace w ++ replicate (Z.to_nat MAX_RETRIES) (Get url) |}).
Proof.
  intros Hu Hlog Hfail. unfold Pipeline.process_fresh, catch, enrich_and_translate.
  erewrite bind_Ok; [|unfold paper_get, getitem; by rewrite Hu].
  erewrite bind_Ok; [|done].
  erewrite bind_Raise.
  2: { unfold fetch_with_retry. by apply fetch_loop_fails. }
  destruct (mark_failed_spec (Exception (failure_message MAX_RETRIES url))
              (calls (Z.to_nat MAX_RETRIES) (Get url) w))
    as [(e' & He' & _)|[_ ->]]; [|done].
  simpl in He'. congruence.
Qed.

Lemma process_paper_fresh pd pc w :
  (∀ cached_paper, ¬ cache_hit pd pc (paper w) cached_paper) →
  is_Some (paper w !! lit "url" ≫= λ v, match v with VStr u => Some u | _ => None end) →
  process_paper pd pc w = process_fresh w.
Proof.
  intros Hmiss [url Hu].
  destruct (process_paper pd pc w) as [r w'] eqn:H.
  apply process_paper_cases in H as [H|[(-> & e & -> & Hno)|(-> & c & Hhit & _)]].
  - done.
  - destruct (paper w !! lit "url") as [[]|]; simplify_eq/=. by destruct (Hno url).
  - by destruct (Hmiss c).
Qed.
End worker.

(** C8, as the code has it.  Every listed paper gets its slot, whatever
    happens to the others.  A paper that is not a cache hit and whose detail
    page cannot be fetched in [MAX_RETRIES] attempts is kept with the fields
    it had and with the error marker as short and as full abstract.  A
    paper whose worker itself raises is kept as it was listed, and no
    marker is written; this happens only on a cache hit, when the record
    cannot be built from the entry. *)
Theorem failed_records_are_kept
    (MAX_RETRIES : Z) (TARGET_LANGUAGES : list str) (isdecimal : char → bool)
    (now : str) (backend : nat → nat → result str) (order : list nat)
    (processed_dict : option timestamps) (paper_cache : option entries)
    (papers : list dict) :
  order ≡ₚ seq 0 (length papers) →
  Forall listing_record papers →
  ∃ results,
    collect order
      (imap (task MAX_RETRIES TARGET_LANGUAGES isdecimal now backend
                  processed_dict paper_cache) papers) = Ok results ∧
    length results = length papers ∧
    ∀ i paper0, papers !! i = Some paper0 →
      ∃ d, results !! i = Some (Some d) ∧
        (∀ url,
           paper0 !! lit "url" = Some (VStr url) →
           (∀ cached_paper,
              ¬ cache_hit processed_dict paper_cache paper0 cached_paper) →
           (∀ k, k < Z.to_nat MAX_RETRIES → ∃ e, backend i k = Raise e) →
           d = marked (Exception (failure_message MAX_RETRIES url)) paper0) ∧
        (∀ e,
           (task MAX_RETRIES TARGET_LANGUAGES isdecimal now backend
                 processed_dict paper_cache i paper0).1 = Raise e →
           d = paper0 ∧
           ∃ cached_paper,
             cache_hit processed_dict paper_cache paper0 cached_paper ∧
             restore TARGET_LANGUAGES now paper0 cached_paper = Raise e).
Proof.
  intros Hperm Hrec. rewrite Forall_lookup in Hrec.
  assert (∀ i paper0, papers !! i = Some paper0 → log_title paper0 = Ok ())
    as Hlog.
  { intros i paper0 Hp. by destruct (Hrec i paper0 Hp). }
  set (tasks := imap _ papers).
  assert (∀ i paper0, papers !! i = Some paper0 →
            log_title (paper (task MAX_RETRIES TARGET_LANGUAGES isdecimal now backend
                                processed_dict paper_cache i paper0).2) = Ok ()) as Hlog'.
  { intros i paper0 Hp. unfold task.
    destruct (process_paper _ _ _ _ _ _ _ _) as [r w'] eqn:Hrun. simpl.
    apply process_paper_spec in Hrun as (_ & Hframe & _).
    rewrite <-(Hlog i paper0 Hp). apply log_title_frame.
    apply (Hframe (lit "title")), title_not_written. }
  destruct (collect_fills_slots order tasks) as (results & Hres & Hlen & Hall).
  { subst tasks. by rewrite length_imap. }
  { apply Forall_lookup. intros i t Ht. subst tasks.
    rewrite list_lookup_imap in Ht.
    destruct (papers !! i) as [paper0|] eqn:Hp; [|done]. injection Ht as <-.
    by apply Hlog'. }
  exists results. subst tasks. rewrite length_imap in Hlen. split_and!; [done..|].
  intros i paper0 Hp.
  destruct (Hall i (task MAX_RETRIES TARGET_LANGUAGES isdecimal now backend
                      processed_dict paper_cache i paper0)) as (d & Hd & Hi).
  { by rewrite list_lookup_imap, Hp. }
  exists d. split; [done|]. split.
  - intros url Hu Hmiss Hfail. revert Hd. unfold task.
    rewrite process_paper_fresh; [|done|by simpl; rewrite Hu].
    rewrite (process_fresh_fetch_fails _ _ _ _ _ url); [|done|by eapply Hlog|done].
    unfold slot. simpl.
    assert (log_title (marked (Exception (failure_message MAX_RETRIES url)) paper0)
            = Ok ()) as ->.
    { rewrite <-(Hlog i paper0 Hp). apply log_title_frame.
      unfold marked. by rewrite !lookup_insert_ne by lit_neq. }
    by intros [= <-].
  - intros e He. revert Hd. unfold task in *.
    destruct (process_paper _ _ _ _ _ _ _ _) as [r w'] eqn:Hrun. simpl in He. subst r.
    pose proof (process_paper_cases _ _ _ _ _ _ _ _ _ _ Hrun) as Hcases.
    apply process_paper_spec in Hrun as (_ & _ & _ & Hsame).
    rewrite (Hsame (Hlog i paper0 Hp) e eq_refl).
    unfold slot. simpl. rewrite (Hlog i paper0 Hp). simpl. intros [= <-].
    split; [done|].
    destruct Hcases as [Hf|[(_ & e' & _ & Hno)|(_ & c & Hhit & Hr)]].
    + apply process_fresh_spec in Hf as (_ & _ & [(e' & _ & He')|[[=] _]]).
      simpl in He'. rewrite (Hlog i paper0 Hp) in He'. done.
    + destruct (Hrec i paper0 Hp) as [_ [url Hu]]. by destruct (Hno url).
    + exists c. split; [done|]. simpl in Hr.
      destruct (restore _ _ _ _); by simplify_eq/=.
Qed.

(** C8, as stated, fails: the cache knows paper A but its entry has no
    title; the worker raises [KeyError], the collection loop keeps the
    paper as it was listed, and neither abstract field holds a marker. *)
Lemma raising_worker_leaves_no_marker :
  (task 3 zh ascii_digit monday (λ _, down)
        (Some [(url_a, monday)]) (Some {[url_a := broken_entry]}) 0 paper_a).1
  = Raise (KeyError (lit "title")) ∧
  scrape_listing 100 3 5 zh ascii_digit monday (λ _, monday) (λ _, down) [0]
    (Some [(url_a, monday)]) (Some {[url_a := broken_entry]}) [paper_a]
  = Ok [Some paper_a] ∧
  paper_a !! lit "abstract" = None ∧
  paper_a !! lit "abstract_short" = None.
Proof. vm_compute. repeat split. Qed.

(** ** Instances on the sample data *)

Lemma merge_leaves_known_identities_witness :
  timestamp_of url_a merged_sample.1 = timestamp_of url_a [(url_a, monday)] ∧
  merged_sample.2 !! url_a = (∅ : entries) !! url_a.
Proof.
  destruct (merge_leaves_known_identities zh tuesday [paper_a; paper_b]
              [(url_a, monday)] ∅) as [_ H].
  destruct (H _ _ merged_sample_eq) as [Hknown _].
  apply Hknown, list_elem_of_here.
Defined.

Lemma failed_records_are_kept_witness :
  ∃ results,
    collect [2; 0; 1] tasks_abc = Ok results ∧
    length results = 3 ∧
    results !! 0
    = Some (Some (marked (Exception (failure_message 3 url_a)) paper_a)).
Proof.
  destruct (failed_records_are_kept 3 zh ascii_digit monday (λ _, down) [2; 0; 1]
              None None papers_abc) as (results & Hres & Hlen & Hall).
  - apply (bool_decide_unpack _). by vm_compute.
  - repeat (constructor;
              [split; [vm_compute; reflexivity|eexists; vm_compute; reflexivity]|]).
    constructor.
  - exists results. split_and!; [done..|].
    destruct (Hall 0 paper_a eq_refl) as (d & -> & Hfail & _).
    rewrite (Hfail url_a); [done| | |].
    + unfold paper_a, listed_paper.
      rewrite lookup_insert_ne by lit_neq. by rewrite lookup_insert_eq.
    + by intros c (items & cache & url & [=] & _).
    + intros k _. by eexists.
Defined.

Lemma cache_hit_restores_translations_witness :
  ∃ d,
    process_paper 3 zh ascii_digit monday down
      (Some [(url_a, monday)]) (Some {[url_a := entry_a]}) fresh_world
    = (Ok (Built d), fresh_world) ∧
    d !! (lit "description_" ++ lit "zh-CN") = Some (VStr (lit "ZH short")) ∧
    d !! (lit "abstractFull_" ++ lit "zh-CN") = Some (VStr []).
Proof.
  assert (cache_hit (Some [(url_a, monday)]) (Some {[url_a := entry_a]})
            (paper fresh_world) entry_a) as Hhit.
  { exists [(url_a, monday)], {[url_a := entry_a]}, url_a.
    split_and!.
    - reflexivity.
    - reflexivity.
    - vm_compute. reflexivity.
    - apply list_elem_of_here.
    - apply lookup_singleton_eq.
    - intros H. apply (f_equal (λ m : dict, m !! lit "title")) in H.
      vm_compute in H. discriminate H. }
  destruct (cache_hit_restores_translations 3 zh ascii_digit monday down
              _ _ _ _ Hhit) as [Hbuilt Hfields].
  destruct Hbuilt as [d Hd].
  - vm_compute. reflexivity.
  - eexists. vm_compute. reflexivity.
  - eexists. vm_compute. reflexivity.
  - vm_compute. split; exact I.
  - exists d. split; [exact Hd|].
    destruct (Hfields _ _ Hd) as (d' & [= <-] & Hlang).
    destruct (Hlang (lit "zh-CN")) as [-> ->]; [apply list_elem_of_here|].
    vm_compute. split; reflexivity.
Defined.

(** ** The cache: capacity and recency of the clean-up *)

Lemma length_omap_total {A B} (f : A → option B) (l : list A) :
  (∀ x, x ∈ l → is_Some (f x)) → length (omap f l) = length l.
Proof.
  induction l as [|x l IH]; intros Hf; [done|].
  simpl. fold (@omap list _ _ _ f l).
  destruct (Hf x) as [y Hy]; [apply list_elem_of_here|]. rewrite Hy. simpl.
  rewrite IH; [done|]. intros z Hz. apply Hf. by apply list_elem_of_further.
Qed.

Lemma omap_cons_Some {A B} (f : A → option B) x y (l : list A) :
  f x = Some y → omap f (x :: l) = y :: omap f l.
Proof. intros H. change (omap f (x :: l)) with (from_option (λ y, y :: omap f l) (omap f l) (f x)). by rewrite H. Qed.

Lemma fst_omap_rebuilt (f : str → option str) (ks : list str) :
  (∀ k, k ∈ ks → is_Some (f k)) →
  (omap (λ u, (u,.) <$> f u) ks).*1 = ks.
Proof.
  induction ks as [|k ks IH]; intros Hf; [done|].
  destruct (Hf k) as [t Ht]; [apply list_elem_of_here|].
  rewrite (omap_cons_Some _ k (k, t)) by (by rewrite Ht).
  rewrite fmap_cons. simpl.
  rewrite IH; [done|]. intros z Hz. apply Hf. by apply list_elem_of_further.
Qed.

Lemma slice_to_take {A} (k : Z) (l : list A) :
  (0 ≤ k)%Z → slice_to k l = take (Z.to_nat k) l.
Proof. intros. unfold slice_to. by destruct (Z.ltb_spec k 0); [lia|]. Qed.

Lemma sorted_desc_keys l : (sorted_desc l).*1 ≡ₚ l.*1.
Proof. by rewrite sorted_desc_perm. Qed.

Lemma elem_of_take_elem {A} (x : A) n l : x ∈ take n l → x ∈ l.
Proof. intros (i & Hi & _)%elem_of_take. by eapply list_elem_of_lookup_2. Qed.

(** [l[:k]] is a prefix of [l], whatever the sign of [k]. *)
Lemma slice_to_prefix {A} (k : Z) (l : list A) : ∃ n, slice_to k l = take n l.
Proof. unfold slice_to. destruct (k <? 0)%Z; eauto. Qed.

Lemma kept_urls_known cap pd url : url ∈ kept_urls cap pd → url ∈ pd.*1.
Proof.
  unfold kept_urls. rewrite elem_of_list_to_set. intros Hin.
  rewrite <-sorted_desc_keys.
  apply list_elem_of_fmap in Hin as (x & -> & Hx).
  apply list_elem_of_fmap. exists x. split; [done|].
  destruct (slice_to_prefix cap (sorted_desc pd)) as [n Hn]. rewrite Hn in Hx.
  by apply elem_of_take_elem in Hx.
Qed.

Lemma NoDup_key_unique (pd : timestamps) url t t' :
  NoDup pd.*1 → (url, t) ∈ pd → (url, t') ∈ pd → t = t'.
Proof.
  induction pd as [|[k v] pd IH]; simpl; [by intros _ ?%elem_of_nil|].
  intros [Hk Hnd]%NoDup_cons [Heq|H1]%elem_of_cons [Heq'|H2]%elem_of_cons.
  - congruence.
  - injection Heq as -> ->. destruct Hk. apply list_elem_of_fmap. by exists (k, t').
  - injection Heq' as -> ->. destruct Hk. apply list_elem_of_fmap. by exists (k, t).
  - by apply IH.
Qed.

Lemma timestamp_of_NoDup (pd : timestamps) url t :
  NoDup pd.*1 → (url, t) ∈ pd → timestamp_of url pd = Some t.
Proof.
  intros Hnd Hin.
  destruct (timestamp_of_Some url pd) as (t' & Ht' & Hin').
  { apply list_elem_of_fmap. by exists (url, t). }
  by rewrite (NoDup_key_unique pd url t t').
Qed.

(** The time-stamp map after a clean-up that ran. *)
Lemma pruned_timestamps cap (pd : timestamps) :
  let rebuilt :=
    omap (λ url, (url,.) <$> timestamp_of url pd) (elements (kept_urls cap pd)) in
  rebuilt.*1 = elements (kept_urls cap pd) ∧
  ∀ url t, (url, t) ∈ rebuilt →
    url ∈ kept_urls cap pd ∧ timestamp_of url pd = Some t.
Proof.
  split.
  - apply fst_omap_rebuilt. intros k Hk%elem_of_elements%kept_urls_known.
    destruct (timestamp_of_Some k pd Hk) as (t & -> & _). by eexists.
  - intros url t Hin. apply list_elem_of_omap in Hin as (u & Hu & Hf).
    destruct (timestamp_of u pd) as [t'|] eqn:Ht; simplify_eq/=.
    split; [by apply elem_of_elements|done].
Qed.

(** After [save_processed_papers] has cleaned up, the time-stamp map holds
    at most [MAX_PROCESSED_RECORDS] identities, each once, and the cache
    has entries for kept identities only. *)
Theorem prune_respects_capacity
    (MAX_PROCESSED_RECORDS : Z) (pd : timestamps) (pc : entries) :
  (0 ≤ MAX_PROCESSED_RECORDS)%Z →
  NoDup pd.*1 →
  length (prune MAX_PROCESSED_RECORDS (pd, pc)).1
    = length pd `min` Z.to_nat MAX_PROCESSED_RECORDS ∧
  NoDup (prune MAX_PROCESSED_RECORDS (pd, pc)).1.*1 ∧
  ((MAX_PROCESSED_RECORDS < Z.of_nat (length pd))%Z →
   ∀ url, is_Some ((prune MAX_PROCESSED_RECORDS (pd, pc)).2 !! url) →
          url ∈ (prune MAX_PROCESSED_RECORDS (pd, pc)).1.*1).
Proof.
  intros Hcap Hnd. unfold prune.
  destruct (Z.ltb_spec MAX_PROCESSED_RECORDS (Z.of_nat (length pd))) as [Hover|Hfits];
    simpl; [|split_and!; [lia|done|lia]].
  fold (kept_urls MAX_PROCESSED_RECORDS pd).
  destruct (pruned_timestamps MAX_PROCESSED_RECORDS pd) as [Hkeys _].
  split_and!.
  - rewrite <-(length_fmap fst), Hkeys.
    change (length (elements ?X)) with (size X).
    unfold kept_urls. rewrite size_list_to_set.
    + rewrite length_fmap, slice_to_take, length_take by done.
      rewrite (Permutation_length (sorted_desc_perm pd)). lia.
    + rewrite slice_to_take, fmap_take by done.
      eapply sublist_NoDup; [|apply sublist_take]. by rewrite sorted_desc_keys.
  - rewrite Hkeys. apply NoDup_elements.
  - intros _ url [e He]. rewrite Hkeys. apply elem_of_elements.
    by apply map_lookup_filter_Some in He as [_ ?].
Qed.

Lemma prune_respects_capacity_witness :
  length (prune 1 ([(url_a, monday); (url_b, tuesday)], ∅)).1 = 1.
Proof.
  destruct (prune_respects_capacity 1 [(url_a, monday); (url_b, tuesday)] ∅)
    as [H _]; [lia| |exact H].
  apply (bool_decide_unpack _). by vm_compute.
Defined.

(** The clean-up drops the oldest: no identity that it drops has a time
    stamp above that of an identity it keeps. *)
Theorem prune_drops_only_older
    (MAX_PROCESSED_RECORDS : Z) (pd : timestamps) (pc : entries)
    (url t url' t' : str) :
  NoDup pd.*1 →
  (url, t) ∈ (prune MAX_PROCESSED_RECORDS (pd, pc)).1 →
  (url', t') ∈ pd →
  url' ∉ (prune MAX_PROCESSED_RECORDS (pd, pc)).1.*1 →
  Str.ltb t t' = false.
Proof.
  intros Hnd. unfold prune.
  destruct (MAX_PROCESSED_RECORDS <? Z.of_nat (length pd))%Z; simpl.
  2: { intros _ Hin Hout. destruct Hout. apply list_elem_of_fmap. by exists (url', t'). }
  fold (kept_urls MAX_PROCESSED_RECORDS pd).
  destruct (pruned_timestamps MAX_PROCESSED_RECORDS pd) as [Hkeys Hin].
  intros [Hkept Ht]%Hin Hin' Hout. rewrite Hkeys, elem_of_elements in Hout.
  unfold kept_urls in *.
  destruct (slice_to_prefix MAX_PROCESSED_RECORDS (sorted_desc pd)) as [n Hn].
  rewrite Hn in Hkept, Hout. rewrite elem_of_list_to_set in Hkept, Hout.
  apply list_elem_of_fmap in Hkept as ([u tu] & Hu & Hx). simpl in Hu. subst u.
  assert (tu = t) as ->.
  { pose proof (elem_of_take_elem _ _ _ Hx) as Hx'. rewrite sorted_desc_perm in Hx'.
    apply (timestamp_of_NoDup _ _ _ Hnd) in Hx'. congruence. }
  assert ((url', t') ∈ drop n (sorted_desc pd)) as Hdropped.
  { rewrite <-(sorted_desc_perm pd), <-(take_drop n (sorted_desc pd)) in Hin'.
    apply elem_of_app in Hin' as [Hin'|]; [|done].
    destruct Hout. apply list_elem_of_fmap. by exists (url', t'). }
  pose proof (sorted_desc_sorted pd) as Hsorted.
  rewrite <-(take_drop n (sorted_desc pd)) in Hsorted.
  apply (StronglySorted_app_1_elem_of _ _ _ _ _ Hsorted Hx Hdropped).
Qed.

Lemma prune_drops_only_older_witness :
  Str.ltb tuesday monday = false.
Proof.
  apply (prune_drops_only_older 1 [(url_a, monday); (url_b, tuesday)] ∅
           url_b tuesday url_a monday).
  - apply (bool_decide_unpack _). by vm_compute.
  - apply (bool_decide_unpack _). by vm_compute.
  - apply (bool_decide_unpack _). by vm_compute.
  - apply (bool_decide_unpack _). by vm_compute.
Defined.

(** ** The cache: what the insertion loop adds *)

Lemma timestamp_of_snoc url t (pd : timestamps) :
  url ∉ pd.*1 → timestamp_of url (pd ++ [(url, t)]) = Some t.
Proof.
  induction pd as [|[k v] pd IH]; simpl.
  - intros _. by rewrite bool_decide_true.
  - intros [? ?]%not_elem_of_cons. rewrite bool_decide_false by done. by apply IH.
Qed.

Section merge.
Variable TARGET_LANGUAGES : list str.
Variable current_time : str.
Local Abbreviation merge_one := (merge_one TARGET_LANGUAGES current_time).
Local Abbreviation merge := (merge TARGET_LANGUAGES current_time).

(** A list of known identities goes through the loop without a trace. *)
Lemma merge_noop time papers pd pc :
  (∀ paper, paper ∈ papers →
     ∃ url, paper !! lit "url" = Some (VStr url) ∧ url ∈ pd.*1) →
  Cache.merge TARGET_LANGUAGES time papers (pd, pc) = Ok (pd, pc).
Proof.
  induction papers as [|paper papers IH]; intros Hknown; simpl; [done|].
  destruct (Hknown paper) as (url & Hu & Hin); [apply list_elem_of_here|].
  unfold Cache.merge_one, getitem, known. rewrite Hu. simpl.
  rewrite bool_decide_true by done. simpl.
  apply IH. intros p Hp. apply Hknown. by apply list_elem_of_further.
Qed.

Lemma merge_known papers pd pc pd' pc' :
  merge papers (pd, pc) = Ok (pd', pc') →
  ∀ paper, paper ∈ papers →
    ∃ url, paper !! lit "url" = Some (VStr url) ∧ url ∈ pd'.*1.
Proof.
  revert pd pc. induction papers as [|paper papers IH]; intros pd pc; simpl.
  - by intros _ ? ?%elem_of_nil.
  - destruct (merge_one (pd, pc) paper) as [[pd1 pc1]|] eqn:H1; simpl; [|done].
    intros H2 p [->|Hp]%elem_of_cons; [|by eapply IH].
    apply merge_inv in H2 as (added & -> & _).
    apply merge_one_inv in H1 as (url & Hu & [(Hin & -> & _)|(_ & -> & _)]);
      exists url; (split; [done|]); rewrite !fmap_app, !elem_of_app.
    + by left.
    + left; right. simpl. apply list_elem_of_here.
Qed.

Lemma merge_added papers pd pc pd' pc' url :
  merge papers (pd, pc) = Ok (pd', pc') →
  url ∈ pd'.*1 → url ∉ pd.*1 →
  timestamp_of url pd' = Some current_time ∧
  ∃ paper entry,
    paper ∈ papers ∧ paper !! lit "url" = Some (VStr url) ∧
    cache_entry TARGET_LANGUAGES paper = Ok entry ∧ pc' !! url = Some entry.
Proof.
  revert pd pc. induction papers as [|paper papers IH]; intros pd pc; simpl.
  - by intros [= <- <-] ? ?.
  - destruct (merge_one (pd, pc) paper) as [[pd1 pc1]|] eqn:H1; simpl; [|done].
    intros H2 Hin Hnew.
    apply merge_one_inv in H1
      as (u & Hu & [(Hk & -> & ->)|(Hnk & -> & entry & He & ->)]).
    + destruct (IH _ _ H2 Hin Hnew) as (Ht & p & e & ? & ? & ? & ?).
      split; [done|]. exists p, e. split_and!; try done. by apply list_elem_of_further.
    + destruct (decide (url = u)) as [->|Hne].
      * pose proof H2 as H2'.
        apply merge_inv in H2 as (added & -> & Hadded & Hframe).
        assert (u ∈ (pd ++ [(u, current_time)]).*1) as Hin1.
        { rewrite fmap_app, elem_of_app. right. apply list_elem_of_here. }
        split.
        { rewrite timestamp_of_app by done. by apply timestamp_of_snoc. }
        exists paper, entry. split_and!; [apply list_elem_of_here|done..|].
        rewrite Hframe; [by rewrite lookup_insert_eq|].
        intros Hu'. by destruct (Hadded u Hu').
      * destruct (IH _ _ H2 Hin) as (Ht & p & e & ? & ? & ? & ?).
        { rewrite fmap_app, elem_of_app. intros [?|Hx]; [done|].
          simpl in Hx. apply list_elem_of_singleton in Hx. done. }
        split; [done|]. exists p, e. split_and!; try done.
        by apply list_elem_of_further.
Qed.
End merge.

(** Running the insertion loop of [save_processed_papers] a second time
    over the same papers, at whatever time, changes nothing: by then every
    identity of the list is known. *)
Theorem merge_idempotent
    (TARGET_LANGUAGES : list str) (current_time later : str)
    (papers : list dict) (c c' : timestamps * entries) :
  merge TARGET_LANGUAGES current_time papers c = Ok c' →
  merge TARGET_LANGUAGES later papers c' = Ok c'.
Proof.
  destruct c as [pd pc], c' as [pd' pc']. intros H.
  apply merge_noop. by eapply merge_known.
Qed.

Lemma merge_idempotent_witness :
  merge zh tuesday [paper_a; paper_b] merged_sample = Ok merged_sample.
Proof.
  apply (merge_idempotent zh tuesday tuesday [paper_a; paper_b]
           ([(url_a, monday)], ∅)).
  rewrite merged_sample_eq. by destruct merged_sample.
Defined.

(** After the insertion loop every listed identity is known.  One that
    was not known before carries the time of this run, and its cache entry
    is the one built from a listed paper of that identity. *)
Theorem merge_stamps_new_identities
    (TARGET_LANGUAGES : list str) (current_time : str)
    (papers : list dict) (pd pd' : timestamps) (pc pc' : entries) :
  merge TARGET_LANGUAGES current_time papers (pd, pc) = Ok (pd', pc') →
  (∀ paper, paper ∈ papers →
     ∃ url, paper !! lit "url" = Some (VStr url) ∧ url ∈ pd'.*1) ∧
  (∀ url, url ∈ pd'.*1 → url ∉ pd.*1 →
     timestamp_of url pd' = Some current_time ∧
     ∃ paper entry,
       paper ∈ papers ∧ paper !! lit "url" = Some (VStr url) ∧
       cache_entry TARGET_LANGUAGES paper = Ok entry ∧ pc' !! url = Some entry).
Proof.
  intros H. split.
  - by eapply merge_known.
  - intros url. by eapply merge_added.
Qed.

Lemma merge_stamps_new_identities_witness :
  timestamp_of url_b merged_sample.1 = Some tuesday.
Proof.
  destruct (merge_stamps_new_identities zh tuesday [paper_a; paper_b]
              [(url_a, monday)] merged_sample.1 ∅ merged_sample.2 merged_sample_eq)
    as [Hknown Hnew].
  destruct (Hknown paper_b) as (url & Hu & Hin).
  { apply list_elem_of_further, list_elem_of_here. }
  assert (url = url_b) as ->.
  { revert Hu. unfold paper_b, listed_paper.
    rewrite lookup_insert_ne by lit_neq. rewrite lookup_insert_eq. congruence. }
  apply Hnew; [done|].
  apply (bool_decide_unpack _). by vm_compute.
Defined.

(** ** The extractor: what one handler does to the records *)

Lemma handle_starttag_step tag attrs s s' :
  handle_starttag tag attrs s = Ok s' →
  papers s' = papers s ∧
  ∃ d0, (d0 = current_paper s ∨ d0 = Some ∅) ∧
    (current_paper s' = d0 ∨
     ∃ d c h, d0 = Some d ∧
       current_paper s' =
         Some (<[lit "url" := VStr (lit "https://huggingface.co" ++ c :: h)]> d)).
Proof.
  unfold handle_starttag.
  set (s1 := if bool_decide (tag = lit "article") then _ else s).
  assert (papers s1 = papers s ∧
          (current_paper s1 = current_paper s ∨ current_paper s1 = Some ∅))
    as [Hp1 Hc1].
  { subst s1. case_bool_decide; simpl; eauto. }
  clearbody s1.
  set (s2 := if in_article s1 && _ then _ else s1).
  assert (papers s2 = papers s1 ∧ current_paper s2 = current_paper s1) as [Hp2 Hc2].
  { subst s2. by destruct (_ && _). }
  clearbody s2. rewrite <-Hp2 in Hp1. rewrite <-Hc2 in Hc1. clear Hp2 Hc2 s1.
  intros H.
  assert (∃ s3, papers s3 = papers s2 ∧ papers s' = papers s3 ∧
                current_paper s' = current_paper s3 ∧
                (current_paper s3 = current_paper s2 ∨
                 ∃ d c h, current_paper s2 = Some d ∧
                   current_paper s3 =
                     Some (<[lit "url" := VStr (lit "https://huggingface.co" ++ c :: h)]> d)))
    as (s3 & Hp3 & Hp' & Hc' & Hc3).
  { revert H. destruct (in_h3 s2 && bool_decide (tag = lit "a")).
    - destruct (attrs_get (lit "href") attrs) as [[|c h]|];
        cbn [mbind result_bind].
      + intros H. eexists (set_current_text [] (set_capture_text true (set_in_a true s2))).
        revert H. repeat flag_step; try destruct (attrs_get (lit "class") attrs);
          repeat flag_step; intros ?; simplify_eq; simpl; eauto.
      + unfold assign. simpl. destruct (current_paper s2) as [d|] eqn:Hd; [|done].
        cbn [mbind result_bind]. intros H.
        eexists (set_current_text [] (set_capture_text true
                  (set_current_paper (Some _) (set_in_a true s2)))).
        revert H. repeat flag_step; try destruct (attrs_get (lit "class") attrs);
          repeat flag_step; intros ?; simplify_eq; simpl;
          (split_and!; [done..|]); right; by exists d, c, h.
      + intros H. eexists (set_current_text [] (set_capture_text true (set_in_a true s2))).
        revert H. repeat flag_step; try destruct (attrs_get (lit "class") attrs);
          repeat flag_step; intros ?; simplify_eq; simpl; eauto.
    - cbn [mbind result_bind]. intros H. exists s2.
      revert H. repeat flag_step; try destruct (attrs_get (lit "class") attrs);
        repeat flag_step; intros ?; simplify_eq; simpl; eauto. }
  split; [congruence|].
  exists (current_paper s2). split; [done|].
  rewrite Hc'. destruct Hc3 as [->|(d & c & h & Hd & ->)]; [by left|right].
  by exists d, c, h.
Qed.

Lemma handle_endtag_step tag s s' :
  handle_endtag tag s = Ok s' →
  (tag = lit "article" ∧ closes_item s s' ∧ (s' = s ∨ current_paper s' = None)) ∨
  (tag ≠ lit "article" ∧ papers s' = papers s ∧
   (current_paper s' = current_paper s ∨
    ∃ d, current_paper s = Some d ∧
         current_paper s' = Some (<[lit "title" := VStr (strip (current_text s))]> d))).
Proof.
  destruct (decide (tag = lit "article")) as [->|Hne]; intros H.
  - left. split; [done|].
    destruct (handle_endtag_article s) as (s0 & H0 & Hclose).
    rewrite H0 in H. injection H as ->. split; [done|].
    revert H0. unfold handle_endtag.
    rewrite (bool_decide_false (lit "article" = lit "a")) by lit_neq.
    rewrite (bool_decide_false (lit "article" = lit "h3")) by lit_neq.
    rewrite (bool_decide_false (lit "article" = lit "span")) by lit_neq.
    cbn [andb mbind result_bind].
    destruct (in_article s); intros [= <-]; [by right|by left].
  - right. split; [done|]. revert H. unfold handle_endtag.
    rewrite (bool_decide_false (tag = lit "article")) by done.
    destruct (bool_decide (tag = lit "a") && in_a s).
    + unfold assign. simpl.
      destruct (bool_decide (current_text s ≠ [])); cbn [mbind result_bind andb].
      * destruct (current_paper s) as [d|] eqn:Hd; cbn [mbind result_bind andb]; [|done].
        repeat flag_step; intros ?; simplify_eq; simpl;
          (split; [done|]); right; by exists d.
      * repeat flag_step; intros ?; simplify_eq; simpl; eauto.
    + cbn [mbind result_bind andb].
      repeat flag_step; intros ?; simplify_eq; simpl; eauto.
Qed.

Lemma handle_papers e s s' :
  handle e s = Ok s' →
  ∃ new, papers s' = papers s ++ new ∧
         length new ≤ (if is_article_end e then 1 else 0).
Proof.
  destruct e as [tag attrs|tag|data]; simpl.
  - intros [-> _]%handle_starttag_step. exists []. by rewrite app_nil_r.
  - intros [(-> & Hclose & _)|(Hne & -> & _)]%handle_endtag_step.
    + rewrite bool_decide_true by done.
      destruct Hclose as [->|(d & _ & _ & _ & ->)].
      * exists []. rewrite app_nil_r. split; [done|simpl; lia].
      * eexists. split; [done|]. simpl. lia.
    + exists []. rewrite app_nil_r. split; [done|simpl; lia].
  - intros [= <-]. exists []. rewrite app_nil_r. split; [|done].
    unfold handle_data. destruct (capture_text s); simpl;
      by destruct (in_institution_span s).
Qed.

(** The list of records only grows: what was emitted stays as it is, in
    place, and there are at most as many new records as closing item tags,
    also when a handler raises on the way. *)
Theorem feed_only_appends (events : list event) (s : parser) :
  ∃ new, papers (feed events s).1 = papers s ++ new ∧
         length new ≤ article_ends events.
Proof.
  revert s. induction events as [|e events IH]; intros s; simpl.
  - exists []. by rewrite app_nil_r.
  - unfold article_ends in *. rewrite filter_cons.
    destruct (handle e s) as [s'|] eqn:He; simpl.
    + apply handle_papers in He as (new1 & H1 & Hl1).
      destruct (IH s') as (new2 & H2 & Hl2).
      exists (new1 ++ new2). rewrite H2, H1, app_assoc. split; [done|].
      rewrite length_app. destruct (decide (is_article_end e = true)) as [Ht|Hf].
      * rewrite Ht in Hl1. simpl. lia.
      * apply not_true_is_false in Hf. rewrite Hf in Hl1. lia.
    + exists []. rewrite app_nil_r. split; [done|simpl; lia].
Qed.

(** ** The extractor: the shape of an emitted record *)

Lemma clean_institution_normal text :
  clean_institution text ≠ [] ∧
  strip (clean_institution text) = clean_institution text ∧
  collapsed (clean_institution text) ∧
  clean_institution text ∉ separators.
Proof.
  unfold clean_institution.
  set (t := strip (sub [Plus isspace] (lit " ") text)).
  destruct (negb (truthy (VStr t)) || bool_decide (t ∈ separators)) eqn:Hsep.
  - split_and!; [done|by vm_compute|by vm_compute|].
    apply (bool_decide_unpack _). by vm_compute.
  - apply orb_false_elim in Hsep as [Ht Hs].
    apply negb_false_iff, bool_decide_eq_true in Ht.
    apply bool_decide_eq_false in Hs.
    split_and!; [done|apply strip_strip|apply strip_collapsed, collapse_collapsed|done].
Qed.

Lemma scratch_shape_empty : scratch_shape ∅.
Proof.
  split_and!.
  - intros k [v Hv]. by rewrite lookup_empty in Hv.
  - intros v Hv. by rewrite lookup_empty in Hv.
  - intros v Hv. by rewrite lookup_empty in Hv.
Qed.

Lemma scratch_shape_url d c h :
  scratch_shape d →
  scratch_shape (<[lit "url" := VStr (lit "https://huggingface.co" ++ c :: h)]> d).
Proof.
  intros (Hk & Hu & Ht). split_and!.
  - intros k [v Hv]. destruct (decide (k = lit "url")) as [->|Hne]; [by left|].
    rewrite lookup_insert_ne in Hv by done. by apply Hk.
  - intros v. rewrite lookup_insert_eq. intros [= <-]. by exists (c :: h).
  - intros v. rewrite lookup_insert_ne by lit_neq. apply Ht.
Qed.

Lemma scratch_shape_title d text :
  scratch_shape d → scratch_shape (<[lit "title" := VStr (strip text)]> d).
Proof.
  intros (Hk & Hu & Ht). split_and!.
  - intros k [v Hv]. destruct (decide (k = lit "title")) as [->|Hne]; [by right|].
    rewrite lookup_insert_ne in Hv by done. by apply Hk.
  - intros v. rewrite lookup_insert_ne by lit_neq. apply Hu.
  - intros v. rewrite lookup_insert_eq. intros [= <-]. by exists text.
Qed.

Lemma has_Some d (k : string) : has d k = true → ∃ v, d !! lit k = Some v ∧ truthy v = true.
Proof.
  unfold has, get. destruct (d !! lit k) as [v|]; simpl; [eauto|done].
Qed.

Lemma record_shape_emitted d text :
  scratch_shape d → has d "title" = true → has d "url" = true →
  record_shape (<[lit "institution" := VStr (clean_institution text)]> d).
Proof.
  intros (Hk & Hu & Ht) (vt & Hvt & Htt)%has_Some (vu & Hvu & Htu)%has_Some.
  destruct (Hu vu Hvu) as (href & Hhref & ->).
  destruct (Ht vt Hvt) as (title & ->).
  destruct (clean_institution_normal text) as (Hi1 & Hi2 & Hi3 & Hi4).
  split_and!.
  - intros k. split.
    + intros [v Hv]. destruct (decide (k = lit "institution")) as [->|Hne].
      * repeat constructor.
      * rewrite lookup_insert_ne in Hv by done.
        destruct (Hk k) as [-> | ->]; [by eexists|repeat constructor..].
    + intros Hin. repeat (apply elem_of_cons in Hin as [->|Hin]).
      * rewrite lookup_insert_ne by lit_neq. by eexists.
      * rewrite lookup_insert_ne by lit_neq. by eexists.
      * rewrite lookup_insert_eq. by eexists.
      * by apply elem_of_nil in Hin.
  - exists href. split; [done|]. by rewrite lookup_insert_ne by lit_neq.
  - exists (strip title). split_and!.
    + simpl in Htt. by apply bool_decide_eq_true in Htt.
    + apply strip_strip.
    + by rewrite lookup_insert_ne by lit_neq.
  - exists (clean_institution text). split_and!; [done..|]. by rewrite lookup_insert_eq.
Qed.

Lemma handle_shape e s s' : shape_inv s → handle e s = Ok s' → shape_inv s'.
Proof.
  intros [Hp Hs]. destruct e as [tag attrs|tag|data]; simpl.
  - intros (Hp' & d0 & Hd0 & Hc)%handle_starttag_step. split; [by rewrite Hp'|].
    assert (∀ d, d0 = Some d → scratch_shape d) as H0.
    { destruct Hd0 as [-> | ->]; [done|]. intros d [= <-]. apply scratch_shape_empty. }
    destruct Hc as [->|(d & c & h & -> & ->)]; [done|].
    intros d' [= <-]. by apply scratch_shape_url, H0.
  - intros [(-> & Hclose & Hc)|(Hne & Hp' & Hc)]%handle_endtag_step.
    + split.
      * destruct Hclose as [->|(d & Hd & Ht & Hu & ->)]; [done|].
        apply Forall_app. split; [done|]. apply Forall_singleton.
        by apply record_shape_emitted; [apply Hs|..].
      * destruct Hc as [-> | ->]; [done|]. by intros d [=].
    + split; [by rewrite Hp'|].
      destruct Hc as [->|(d & Hd & ->)]; [done|].
      intros d' [= <-]. by apply scratch_shape_title, Hs.
  - intros [= <-]. unfold handle_data.
    destruct (capture_text s); simpl; by destruct (in_institution_span s).
Qed.

Lemma feed_shape events s : shape_inv s → shape_inv (feed events s).1.
Proof.
  revert s. induction events as [|e events IH]; intros s Hinv; simpl; [done|].
  destruct (handle e s) as [s'|] eqn:He; [|done].
  by apply IH, (handle_shape e s).
Qed.

(** Every record the extractor emits has exactly the keys [url], [title]
    and [institution]: the link of the heading prefixed with the site, the
    stripped, non-empty text of the link, and an affiliation that is never
    empty, never a bare separator and has no white space but single
    blanks inside. *)
Theorem emitted_records_have_three_fields (events : list event) :
  Forall record_shape (papers (feed events init).1).
Proof.
  apply (feed_shape events init). split; [constructor|]. by intros d [=].
Qed.

(** ** Detail pages: what a match consists of *)

Lemma strip_prefix_Some p s s' : strip_prefix p s = Some s' → s = p ++ s'.
Proof.
  revert s. induction p as [|a p IH]; intros [|b s]; simpl; try done.
  - by intros [= ->].
  - by intros [= ->].
  - destruct (N.eqb_spec a b) as [->|]; [|done]. intros ->%IH. done.
Qed.

Lemma take_consumed {A} (a b l : list A) :
  l = a ++ b → take (length l - length b) l = a.
Proof. intros ->. by rewrite length_app, Nat.add_sub, take_app_length. Qed.

(** A repetition consumes a run of characters of its class and hands the
    rest to what follows. *)
Lemma greedy_inv {R} p (k : str → option R) s r :
  greedy p k s = Some r →
  ∃ s1 s2, s = s1 ++ s2 ∧ Forall (λ c, p c = true) s1 ∧ k s2 = Some r.
Proof.
  revert r. induction s as [|c s IH]; intros r; simpl.
  - intros H. by exists [], [].
  - destruct (p c) eqn:Hc; [|intros H; by exists [], (c :: s)].
    destruct (greedy p k s) as [r'|] eqn:Hg.
    + intros [= <-]. destruct (IH r' eq_refl) as (s1 & s2 & -> & H1 & H2).
      exists (c :: s1), s2. split_and!; [done| |done]. by constructor.
    + intros H. by exists [], (c :: s).
Qed.

Lemma lazy_inv {R} p (k : str → option R) s r :
  lazy p k s = Some r →
  ∃ s1 s2, s = s1 ++ s2 ∧ Forall (λ c, p c = true) s1 ∧ k s2 = Some r.
Proof.
  revert r. induction s as [|c s IH]; intros r; simpl.
  - destruct (k []) eqn:Hk; [|done]. intros [= <-]. by exists [], [].
  - destruct (k (c :: s)) eqn:Hk.
    + intros [= <-]. by exists [], (c :: s).
    + destruct (p c) eqn:Hc; [|done]. intros H.
      destruct (IH r H) as (s1 & s2 & -> & H1 & H2).
      exists (c :: s1), s2. split_and!; [done| |done]. by constructor.
Qed.

(** A search finds its match at some place of the subject. *)
Lemma search_from_inv r whole pos s m :
  search_from r whole pos s = Some m →
  ∃ before at_, s = before ++ at_ ∧ m_start m = pos + length before ∧
                match_at r whole at_ = Some (m_group m, m_rest m).
Proof.
  revert pos. induction s as [|c s IH]; intros pos; simpl.
  - destruct (match_at r whole []) as [[g rest]|] eqn:Hm; [|done].
    intros [= <-]. exists [], []. simpl. split_and!; [done|lia|done].
  - destruct (match_at r whole (c :: s)) as [[g rest]|] eqn:Hm.
    + intros [= <-]. exists [], (c :: s). simpl. split_and!; [done|lia|done].
    + intros (before & at_ & -> & Hs & Hat)%IH.
      exists (c :: before), at_. simpl. split_and!; [done|lia|done].
Qed.

(** Every string that [findall] returns is the group of some match. *)
Lemma findall_go_Forall (P : str → Prop) r whole skip s :
  (∀ at_ g rest, match_at r whole at_ = Some (g, rest) → P (default [] g)) →
  Forall P (findall_go r whole skip s).
Proof.
  intros HP. revert skip. induction s as [|c s IH]; intros skip; simpl; [constructor|].
  destruct skip as [|k]; [|apply IH].
  destruct (match_at r whole (c :: s)) as [[g rest]|] eqn:Hm; [|apply IH].
  destruct (_ - _) as [|k]; [apply IH|].
  constructor; [by eapply HP|apply IH].
Qed.

Section patterns.
Variable isdecimal : char → bool.

(** A match of [papers/(\d+\.\d+)]. *)
Lemma paper_id_match whole s g rest :
  match_at (paper_id_re isdecimal) whole s = Some (g, rest) →
  ∃ major minor,
    major ≠ [] ∧ minor ≠ [] ∧
    Forall (λ c, isdecimal c = true) major ∧
    Forall (λ c, isdecimal c = true) minor ∧
    s = lit "papers/" ++ major ++ lit "." ++ minor ++ rest ∧
    g = Some (major ++ lit "." ++ minor).
Proof.
  unfold match_at, paper_id_re. cbn [run].
  destruct (strip_prefix (lit "papers/") s) as [s1|] eqn:H1; [|done].
  apply strip_prefix_Some in H1 as ->.
  destruct s1 as [|c s1]; [done|]. destruct (isdecimal c) eqn:Hc; [|done].
  intros (d1 & s2 & -> & Hd1 & H2)%greedy_inv.
  destruct (strip_prefix (lit ".") s2) as [s3|] eqn:H3; [|done].
  apply strip_prefix_Some in H3 as ->.
  destruct s3 as [|c' s3]; [done|]. destruct (isdecimal c') eqn:Hc'; [|done].
  apply greedy_inv in H2 as (d2 & s4 & -> & Hd2 & H4).
  injection H4 as <- <-.
  exists (c :: d1), (c' :: d2). split_and!; try done; try by constructor.
  f_equal.
  apply (take_consumed ((c :: d1) ++ lit "." ++ c' :: d2) s4
           (c :: d1 ++ lit "." ++ c' :: d2 ++ s4)).
  cbn [app]. rewrite <-!app_assoc. done.
Qed.

(** A match of [name_re]: the group is a non-empty run without a double
    quote. *)
Lemma name_match whole s g rest :
  match_at name_re whole s = Some (g, rest) →
  ∃ name, g = Some name ∧ name ≠ [] ∧ dquote ∉ name.
Proof.
  unfold match_at, name_re. cbn [run].
  destruct (strip_prefix _ s) as [s1|] eqn:H1; [|done].
  intros (ws & s2 & -> & _ & H2)%greedy_inv.
  destruct (strip_prefix [dquote] s2) as [s3|] eqn:H3; [|done].
  destruct s3 as [|c s3]; [done|].
  destruct (other_than dquote c) eqn:Hc; [|done].
  apply greedy_inv in H2 as (cs & s4 & -> & Hcs & H4).
  destruct (strip_prefix [dquote] s4) as [s5|] eqn:H5; [|done].
  injection H4 as <- <-.
  exists (c :: cs). split_and!.
  - f_equal. by apply (take_consumed (c :: cs) s4 (c :: cs ++ s4)).
  - done.
  - intros Hin. apply elem_of_cons in Hin as [<-|Hin].
    + unfold other_than in Hc. by rewrite N.eqb_refl in Hc.
    + rewrite Forall_forall in Hcs. specialize (Hcs _ Hin).
      unfold other_than in Hcs. by rewrite N.eqb_refl in Hcs.
Qed.
End patterns.

(** The two arXiv links of a detail page are there together or not at all.
    When they are there, both are built from the same identifier, a
    [digits.digits] that stands right after a [papers/] in the page. *)
Theorem arxiv_links_share_the_paper_id (isdecimal : char → bool) (html : str) :
  let d := extract_abstracts isdecimal html in
  (arxiv_abs d = None ∧ arxiv_pdf d = None) ∨
  ∃ major minor before after,
    major ≠ [] ∧ minor ≠ [] ∧
    Forall (λ c, isdecimal c = true) major ∧
    Forall (λ c, isdecimal c = true) minor ∧
    html = before ++ lit "papers/" ++ major ++ lit "." ++ minor ++ after ∧
    arxiv_abs d = Some (lit "https://arxiv.org/abs/" ++ major ++ lit "." ++ minor) ∧
    arxiv_pdf d
      = Some (lit "https://arxiv.org/pdf/" ++ major ++ lit "." ++ minor ++ lit ".pdf").
Proof.
  unfold extract_abstracts. cbn [arxiv_abs arxiv_pdf].
  destruct (search (paper_id_re isdecimal) html) as [m|] eqn:Hs; [|by left].
  right. apply search_from_inv in Hs as (before & at_ & -> & _ & Hm).
  apply paper_id_match in Hm as (major & minor & ? & ? & ? & ? & -> & Hg).
  exists major, minor, before, (m_rest m). simpl. rewrite Hg. simpl.
  split_and!; try done. by rewrite <-!app_assoc.
Qed.

(** At most five authors are taken from a detail page, and none of them
    is empty or holds a double quote. *)
Theorem authors_are_at_most_five (isdecimal : char → bool) (html : str) :
  length (authors (extract_abstracts isdecimal html)) ≤ 5 ∧
  Forall (λ name, name ≠ [] ∧ dquote ∉ name)
         (authors (extract_abstracts isdecimal html)).
Proof.
  unfold extract_abstracts. cbn [authors]. unfold extract_authors.
  destruct (search authors_re _) as [m|]; [|split; [simpl; lia|constructor]].
  split.
  - etrans; [apply length_filter|]. rewrite length_take. lia.
  - apply Forall_forall. intros name Hin.
    apply list_elem_of_filter in Hin as [_ Hin].
    apply elem_of_take_elem in Hin. revert name Hin. apply Forall_forall.
    apply findall_go_Forall. intros at_ g rest Hm.
    apply name_match in Hm as (name & -> & ? & ?). done.
Qed.

(** ** Workers: how a retry loop ends *)

Section retry.
Variable MAX_RETRIES : Z.
Variable backend : nat → result str.

Lemma all_fail_next c w n :
  all_fail backend w (S n) →
  all_fail backend {| paper := paper w; trace := trace w ++ [c] |} n.
Proof.
  intros H j Hj. destruct (H (S j)) as [e He]; [lia|]. exists e.
  rewrite <-He. simpl. rewrite length_app. simpl. f_equal. lia.
Qed.

Lemma all_fail_prev c w n e :
  backend (length (trace w)) = Raise e →
  all_fail backend {| paper := paper w; trace := trace w ++ [c] |} n →
  all_fail backend w (S n).
Proof.
  intros H0 H [|j] Hj.
  - exists e. by rewrite Nat.add_0_r.
  - destruct (H j) as [e' He']; [lia|]. exists e'.
    rewrite <-He'. simpl. rewrite length_app. simpl. f_equal. lia.
Qed.

Lemma fetch_loop_outcome url attempts w :
  ∃ r n,
    fetch_loop MAX_RETRIES backend url attempts w = (r, calls n (Get url) w) ∧
    ((r = Raise (Exception (failure_message MAX_RETRIES url)) ∧
      n = attempts ∧ all_fail backend w attempts) ∨
     (∃ k html, r = Ok html ∧ n = S k ∧ k < attempts ∧ all_fail backend w k ∧
                backend (length (trace w) + k) = Ok html)).
Proof.
  revert w. induction attempts as [|attempts IH]; intros w; simpl.
  - eexists _, 0. rewrite calls_0. split; [done|]. left. split_and!; [done..|].
    intros j Hj. lia.
  - unfold catch, outside.
    destruct (backend (length (trace w))) as [html|e] eqn:H0.
    + eexists _, 1. split; [done|]. right. exists 0, html.
      rewrite Nat.add_0_r. split_and!; [done|done|lia| |done]. intros j Hj. lia.
    + destruct (IH {| paper := paper w; trace := trace w ++ [Get url] |})
        as (r & n & -> & Hr).
      exists r, (S n). rewrite calls_S. split; [done|].
      destruct Hr as [(-> & -> & Hall)|(k & html & -> & -> & Hk & Hall & Hok)].
      * left. split_and!; [done..|]. by eapply all_fail_prev.
      * right. exists (S k), html. split_and!; [done|done|lia|by eapply all_fail_prev|].
        rewrite <-Hok. simpl. rewrite length_app. simpl. f_equal. lia.
Qed.

Lemma translate_loop_outcome text lang attempts w :
  ∃ v n,
    translate_loop backend text lang attempts w
      = (Ok v, calls n (Translate text lang) w) ∧
    ((v = text ∧ n = attempts ∧ all_fail backend w attempts) ∨
     (∃ k answer, v = VStr answer ∧ n = S k ∧ k < attempts ∧ all_fail backend w k ∧
                  backend (length (trace w) + k) = Ok answer)).
Proof.
  revert w. induction attempts as [|attempts IH]; intros w; simpl.
  - eexists _, 0. rewrite calls_0. split; [done|]. left. split_and!; [done..|].
    intros j Hj. lia.
  - unfold catch, fmap, M_fmap, outside.
    destruct (backend (length (trace w))) as [answer|e] eqn:H0.
    + eexists _, 1. split; [done|]. right. exists 0, answer.
      rewrite Nat.add_0_r. split_and!; [done|done|lia| |done]. intros j Hj. lia.
    + destruct (IH {| paper := paper w; trace := trace w ++ [Translate text lang] |})
        as (v & n & -> & Hv).
      exists v, (S n). rewrite calls_S. split; [done|].
      destruct Hv as [(-> & -> & Hall)|(k & answer & -> & -> & Hk & Hall & Hok)].
      * left. split_and!; [done..|]. by eapply all_fail_prev.
      * right. exists (S k), answer.
        split_and!; [done|done|lia|by eapply all_fail_prev|].
        rewrite <-Hok. simpl. rewrite length_app. simpl. f_equal. lia.
Qed.
End retry.

(** [fetch_with_retry] asks for the page at most [MAX_RETRIES] times and
    touches nothing else.  It returns the first answer that is not a
    failure, and raises "Failed to fetch ..." exactly when every one of the
    [MAX_RETRIES] attempts failed; with [MAX_RETRIES] at zero or below it
    raises without asking. *)
Theorem fetch_with_retry_outcome
    (MAX_RETRIES : Z) (backend : nat → result str) (url : str) (w : world) :
  ∃ r n,
    fetch_with_retry MAX_RETRIES backend url w = (r, calls n (Get url) w) ∧
    n ≤ Z.to_nat MAX_RETRIES ∧
    ((r = Raise (Exception (failure_message MAX_RETRIES url)) ∧
      n = Z.to_nat MAX_RETRIES ∧ all_fail backend w (Z.to_nat MAX_RETRIES)) ∨
     (∃ k html, r = Ok html ∧ n = S k ∧ all_fail backend w k ∧
                backend (length (trace w) + k) = Ok html)).
Proof.
  unfold fetch_with_retry.
  destruct (fetch_loop_outcome MAX_RETRIES backend url (Z.to_nat MAX_RETRIES) w)
    as (r & n & Hrun & Hr).
  exists r, n. split; [done|].
  destruct Hr as [(-> & -> & Hall)|(k & html & -> & -> & Hk & Hall & Hok)].
  - split; [done|]. by left.
  - split; [lia|]. right. by exists k, html.
Qed.

(** [translate_with_retry] never raises.  It asks the translator at most
    [max_retries] times and returns the first answer that is not a failure;
    when every attempt failed, or none was allowed, it returns the text it
    was given. *)
Theorem translate_with_retry_outcome
    (backend : nat → result str) (text : value) (lang : str)
    (max_retries : Z) (w : world) :
  ∃ v n,
    translate_with_retry backend text lang max_retries w
      = (Ok v, calls n (Translate text lang) w) ∧
    n ≤ Z.to_nat max_retries ∧
    ((v = text ∧ n = Z.to_nat max_retries ∧
      all_fail backend w (Z.to_nat max_retries)) ∨
     (∃ k answer, v = VStr answer ∧ n = S k ∧ all_fail backend w k ∧
                  backend (length (trace w) + k) = Ok answer)).
Proof.
  unfold translate_with_retry.
  destruct (translate_loop_outcome backend text lang (Z.to_nat max_retries) w)
    as (v & n & Hrun & Hv).
  exists v, n. split; [done|].
  destruct Hv as [(-> & -> & Hall)|(k & answer & -> & -> & Hk & Hall & Hok)].
  - split; [done|]. by left.
  - split; [lia|]. right. by exists k, answer.
Qed.

(** ** Workers: the fresh path, once more *)

Section worker.
Variable MAX_RETRIES : Z.
Variable TARGET_LANGUAGES : list str.
Variable isdecimal : char → bool.
Variable now : str.
Variable backend : nat → result str.

Local Abbreviation process_fresh :=
  (process_fresh MAX_RETRIES TARGET_LANGUAGES isdecimal backend).
Local Abbreviation process_paper :=
  (process_paper MAX_RETRIES TARGET_LANGUAGES isdecimal now backend).
Local Abbreviation enrich_and_translate :=
  (enrich_and_translate MAX_RETRIES TARGET_LANGUAGES isdecimal backend).

(** With a title that can be logged, the fresh path hands back the paper,
    with text in both abstracts. *)
Lemma process_fresh_returns w :
  log_title (paper w) = Ok () →
  ∃ w' short full,
    process_fresh w = (Ok ThePaper, w') ∧
    paper w' !! lit "abstract_short" = Some (VStr short) ∧
    paper w' !! lit "abstract" = Some (VStr full) ∧
    (∀ k, ¬ written k → paper w' !! k = paper w !! k).
Proof.
  intros Hlog. unfold Pipeline.process_fresh, catch.
  destruct (enrich_and_translate w) as [rb wb] eqn:Hbody.
  apply enrich_and_translate_spec in Hbody as (_ & Hframe & Hres).
  destruct rb as [ret|e].
  - destruct Hres as [[e [=]]|(-> & short & full & Hs & Hf & _)].
    by exists wb, short, full.
  - assert (log_title (paper wb) = Ok ()) as Hlogb.
    { rewrite <-Hlog. apply log_title_frame, Hframe, title_not_written. }
    destruct (mark_failed_spec e wb) as [(e' & He' & _)|[_ ->]]; [congruence|].
    eexists _, (error_marker e), (error_marker e). split_and!; [done|..].
    + simpl. unfold marked. by rewrite lookup_insert_eq.
    + simpl. unfold marked. rewrite lookup_insert_ne by lit_neq.
      by rewrite lookup_insert_eq.
    + intros k Hk. simpl. unfold marked.
      rewrite !lookup_insert_ne; [by apply Hframe|..];
        intros <-; apply Hk; left; repeat constructor.
Qed.

(** The first answer that is not a failure is the page. *)
Lemma fetch_first_success url w k html :
  k < Z.to_nat MAX_RETRIES →
  all_fail backend w k →
  backend (length (trace w) + k) = Ok html →
  fetch_with_retry MAX_RETRIES backend url w = (Ok html, calls (S k) (Get url) w).
Proof.
  intros Hk Hall Hok. unfold fetch_with_retry.
  destruct (fetch_loop_outcome MAX_RETRIES backend url (Z.to_nat MAX_RETRIES) w)
    as (r & n & -> & [(-> & -> & Hall')|(k' & html' & -> & -> & Hk' & Hall' & Hok')]).
  - destruct (Hall' k Hk) as [e He]. congruence.
  - destruct (lt_eq_lt_dec k k') as [[Hlt|<-]|Hgt].
    + destruct (Hall' k Hlt) as [e He]. congruence.
    + congruence.
    + destruct (Hall k' Hgt) as [e He]. congruence.
Qed.

Lemma enrich_stores_the_details url w k html :
  paper w !! lit "url" = Some (VStr url) →
  log_title (paper w) = Ok () →
  k < Z.to_nat MAX_RETRIES →
  all_fail backend w k →
  backend (length (trace w) + k) = Ok html →
  ∃ w',
    enrich_and_translate w = (Ok ThePaper, w') ∧
    ∀ key, (∀ lang, key ≠ lit "description_" ++ lang ∧
                    key ≠ lit "abstractFull_" ++ lang) →
      paper w' !! key = enriched isdecimal html (paper w) !! key.
Proof.
  intros Hu Hlog Hk Hall Hok. unfold Pipeline.enrich_and_translate.
  erewrite bind_Ok; [|unfold paper_get, getitem; by rewrite Hu].
  erewrite bind_Ok; [|done].
  erewrite bind_Ok; [|by apply fetch_first_success].
  set (w1 := calls (S k) (Get url) w).
  set (w2 := {| paper := enriched isdecimal html (paper w1); trace := trace w1 |}).
  erewrite (bind_Ok _ _ _ _ w2); [|done].
  assert (log_title (paper w2) = Ok ()) as Hlog2.
  { rewrite <-Hlog. apply log_title_frame. subst w2 w1. simpl.
    apply enriched_frame, title_not_written. }
  erewrite bind_Ok; [|unfold paper_log_title, with_paper; by rewrite Hlog2].
  set (d := extract_abstracts isdecimal html) in *.
  destruct (translate_field_spec TARGET_LANGUAGES backend
              "abstract_short" "description_" (VStr (abstract_short d)) w2)
    as (w3 & H3 & _ & Hframe3 & _).
  { subst w2. simpl. unfold enriched. fold d.
    by rewrite !lookup_insert_ne, lookup_insert_eq by lit_neq. }
  { intros lang. lit_neq. }
  rewrite (bind_Ok _ _ _ _ _ H3).
  destruct (translate_field_spec TARGET_LANGUAGES backend
              "abstract" "abstractFull_" (VStr (abstract_full d)) w3)
    as (w4 & H4 & _ & Hframe4 & _).
  { rewrite Hframe3 by (intros lang; lit_neq). subst w2. simpl. unfold enriched. fold d.
    by rewrite !lookup_insert_ne, lookup_insert_eq by lit_neq. }
  { intros lang. lit_neq. }
  rewrite (bind_Ok _ _ _ _ _ H4).
  assert (∀ key, (∀ lang, key ≠ lit "description_" ++ lang ∧
                          key ≠ lit "abstractFull_" ++ lang) →
            paper w4 !! key = enriched isdecimal html (paper w) !! key) as Hkeys.
  { intros key Hkey. rewrite Hframe4, Hframe3; [done|..]; intros lang; by apply Hkey. }
  assert (log_title (paper w4) = Ok ()) as Hlog4.
  { rewrite <-Hlog2. apply log_title_frame. rewrite Hkeys; [done|].
    intros lang. split; lit_neq. }
  erewrite bind_Ok; [|unfold paper_log_title, with_paper; by rewrite Hlog4].
  by exists w4.
Qed.
End worker.

Lemma url_not_written : ¬ written (lit "url").
Proof.
  intros [H|[lang [H|H]]].
  - vm_compute in H.
    repeat (apply elem_of_cons in H as [H|H]; [discriminate H|]).
    by apply elem_of_nil in H.
  - vm_compute in H. discriminate H.
  - vm_compute in H. discriminate H.
Qed.

Lemma fresh_worker_slot
    (MAX_RETRIES : Z) (TARGET_LANGUAGES : list str) (isdecimal : char → bool)
    (now : str) (backend : nat → result str)
    (pd : option timestamps) (pc : option entries) (w : world) :
  listing_record (paper w) →
  (∀ cached_paper, ¬ cache_hit pd pc (paper w) cached_paper) →
  ∃ w',
    process_paper MAX_RETRIES TARGET_LANGUAGES isdecimal now backend pd pc w
      = (Ok ThePaper, w') ∧
    (∀ k, ¬ written k → paper w' !! k = paper w !! k).
Proof.
  intros [Hlog [url Hu]] Hmiss.
  rewrite process_paper_fresh; [|done|by rewrite Hu].
  destruct (process_fresh_returns MAX_RETRIES TARGET_LANGUAGES isdecimal backend
              w Hlog) as (w' & short & full & Hrun & _ & _ & Hframe).
  by exists w'.
Qed.

(** A worker that is not served from the cache never raises: whatever
    goes wrong with the page or the translator, it hands back the paper it
    was given, with a string in both abstract fields and with every field
    it does not write, [title], [url], [pub_date] and [institution] among
    them, as it was. *)
Theorem fresh_worker_never_raises
    (MAX_RETRIES : Z) (TARGET_LANGUAGES : list str) (isdecimal : char → bool)
    (now : str) (backend : nat → result str)
    (processed_dict : option timestamps) (paper_cache : option entries)
    (w : world) :
  listing_record (paper w) →
  (∀ cached_paper, ¬ cache_hit processed_dict paper_cache (paper w) cached_paper) →
  ∃ w' short full,
    process_paper MAX_RETRIES TARGET_LANGUAGES isdecimal now backend
      processed_dict paper_cache w = (Ok ThePaper, w') ∧
    paper w' !! lit "abstract_short" = Some (VStr short) ∧
    paper w' !! lit "abstract" = Some (VStr full) ∧
    (∀ k, ¬ written k → paper w' !! k = paper w !! k).
Proof.
  intros [Hlog [url Hu]] Hmiss.
  rewrite process_paper_fresh; [|done|by rewrite Hu].
  by apply process_fresh_returns.
Qed.

Lemma fresh_worker_never_raises_witness :
  ∃ w' short full,
    process_paper 3 zh ascii_digit monday down None None fresh_world
      = (Ok ThePaper, w') ∧
    paper w' !! lit "abstract_short" = Some (VStr short) ∧
    paper w' !! lit "abstract" = Some (VStr full) ∧
    (∀ k, ¬ written k → paper w' !! k = paper fresh_world !! k).
Proof.
  apply fresh_worker_never_raises.
  - split; [vm_compute; reflexivity|]. exists url_a. vm_compute. reflexivity.
  - by intros c (items & cache & url & [=] & _).
Defined.

(** When one of the [MAX_RETRIES] attempts brings the detail page, the
    worker stores what [extract_abstracts] finds in it: the two abstracts,
    the two arXiv links ([None] where the page gives no identifier) and the
    authors; everything else but the translated fields is as it was. *)
Theorem fresh_worker_stores_the_details
    (MAX_RETRIES : Z) (TARGET_LANGUAGES : list str) (isdecimal : char → bool)
    (now : str) (backend : nat → result str)
    (processed_dict : option timestamps) (paper_cache : option entries)
    (w : world) (url html : str) (k : nat) :
  paper w !! lit "url" = Some (VStr url) →
  log_title (paper w) = Ok () →
  (∀ cached_paper, ¬ cache_hit processed_dict paper_cache (paper w) cached_paper) →
  k < Z.to_nat MAX_RETRIES →
  all_fail backend w k →
  backend (length (trace w) + k) = Ok html →
  ∃ w',
    process_paper MAX_RETRIES TARGET_LANGUAGES isdecimal now backend
      processed_dict paper_cache w = (Ok ThePaper, w') ∧
    let details := extract_abstracts isdecimal html in
    paper w' !! lit "abstract" = Some (VStr (abstract_full details)) ∧
    paper w' !! lit "abstract_short" = Some (VStr (abstract_short details)) ∧
    paper w' !! lit "arxiv_abs" = Some (from_option VStr VNone (arxiv_abs details)) ∧
    paper w' !! lit "arxiv_pdf" = Some (from_option VStr VNone (arxiv_pdf details)) ∧
    paper w' !! lit "authors" = Some (VList (authors details)) ∧
    (∀ key, ¬ written key → paper w' !! key = paper w !! key).
Proof.
  intros Hu Hlog Hmiss Hk Hall Hok.
  rewrite process_paper_fresh; [|done|by rewrite Hu].
  destruct (enrich_stores_the_details MAX_RETRIES TARGET_LANGUAGES isdecimal backend
              url w k html) as (w' & Hrun & Hkeys); [done..|].
  exists w'. unfold Pipeline.process_fresh, catch. rewrite Hrun. split; [done|].
  assert (∀ key : string,
            (∀ lang, lit key ≠ lit "description_" ++ lang ∧
                     lit key ≠ lit "abstractFull_" ++ lang) →
            paper w' !! lit key = enriched isdecimal html (paper w) !! lit key) as Hk'.
  { intros key. apply Hkeys. }
  cbn zeta. unfold enriched in Hk'.
  split_and!.
  - rewrite Hk' by (intros lang; split; lit_neq).
    by rewrite !lookup_insert_ne, lookup_insert_eq by lit_neq.
  - rewrite Hk' by (intros lang; split; lit_neq).
    by rewrite !lookup_insert_ne, lookup_insert_eq by lit_neq.
  - rewrite Hk' by (intros lang; split; lit_neq).
    by rewrite !lookup_insert_ne, lookup_insert_eq by lit_neq.
  - rewrite Hk' by (intros lang; split; lit_neq).
    by rewrite !lookup_insert_ne, lookup_insert_eq by lit_neq.
  - rewrite Hk' by (intros lang; split; lit_neq).
    by rewrite lookup_insert_eq.
  - intros key Hkey. rewrite Hkeys.
    + by apply enriched_frame.
    + intros lang. split; by apply written_prefix; eauto.
Qed.

Lemma fresh_worker_stores_the_details_witness :
  ∃ w',
    process_paper 3 zh ascii_digit monday bare_page None None fresh_world
      = (Ok ThePaper, w') ∧
    paper w' !! lit "abstract" = Some (VStr not_available) ∧
    paper w' !! lit "arxiv_abs" = Some VNone.
Proof.
  destruct (fresh_worker_stores_the_details 3 zh ascii_digit monday bare_page
              None None fresh_world url_a (lit "<html><body></body></html>") 0)
    as (w' & Hrun & Hfull & _ & Habs & _).
  - vm_compute. reflexivity.
  - vm_compute. reflexivity.
  - by intros c (items & cache & url & [=] & _).
  - simpl. lia.
  - intros j Hj. lia.
  - reflexivity.
  - exists w'. split; [done|]. split.
    + rewrite Hfull. vm_compute. reflexivity.
    + rewrite Habs. vm_compute. reflexivity.
Defined.

(** ** Workers: the fields of a restored record *)

Lemma restore_fields TARGET_LANGUAGES now paper0 cached_paper d :
  restore TARGET_LANGUAGES now paper0 cached_paper = Ok d →
  restored_fields now paper0 cached_paper d.
Proof.
  unfold restore, getitem.
  destruct (log_title paper0); [|done]. cbn [mbind result_bind].
  destruct (cached_paper !! lit "title") as [title|] eqn:Ht; [|done].
  cbn [mbind result_bind].
  destruct (cached_paper !! lit "url") as [url|] eqn:Hu; [|done].
  cbn [mbind result_bind].
  intros [_ Hframe]%restore_translations_spec.
  unfold restored_fields. split_and!;
    (rewrite Hframe by (intros lang; split; lit_neq));
    rewrite ?lookup_insert_ne by lit_neq; by rewrite lookup_insert_eq.
Qed.

(** On a cache hit the worker asks nothing of the outside and leaves the
    listed paper alone.  The record it builds takes its title, link,
    affiliation, abstracts, arXiv links and authors from the cache entry,
    with the defaults of the code where the entry has none; only the
    publication date of the listed paper, if it has one, goes before the
    cached one. *)
Theorem cache_hit_restores_fields
    (MAX_RETRIES : Z) (TARGET_LANGUAGES : list str) (isdecimal : char → bool)
    (now : str) (backend : nat → result str)
    (processed_dict : option timestamps) (paper_cache : option entries)
    (w w' : world) (cached_paper : dict) (r : returned) :
  cache_hit processed_dict paper_cache (paper w) cached_paper →
  process_paper MAX_RETRIES TARGET_LANGUAGES isdecimal now backend
    processed_dict paper_cache w = (Ok r, w') →
  w' = w ∧
  ∃ d, r = Built d ∧ restored_fields now (paper w) cached_paper d.
Proof.
  intros Hhit. rewrite (process_paper_hit _ _ _ _ _ _ _ _ _ Hhit).
  destruct (restore _ _ _ _) as [d|e] eqn:Hr; [|done].
  intros [= <- <-]. split; [done|]. exists d. split; [done|].
  by eapply restore_fields.
Qed.

Lemma cache_hit_restores_fields_witness :
  ∃ d,
    process_paper 3 zh ascii_digit monday down
      (Some [(url_a, monday)]) (Some {[url_a := entry_a]}) fresh_world
    = (Ok (Built d), fresh_world) ∧
    d !! lit "institution" = Some (VStr (lit "N/A")) ∧
    d !! lit "pub_date" = Some (VStr monday).
Proof.
  assert (cache_hit (Some [(url_a, monday)]) (Some {[url_a := entry_a]})
            (paper fresh_world) entry_a) as Hhit.
  { exists [(url_a, monday)], {[url_a := entry_a]}, url_a.
    split_and!.
    - reflexivity.
    - reflexivity.
    - vm_compute. reflexivity.
    - apply list_elem_of_here.
    - apply lookup_singleton_eq.
    - intros H. apply (f_equal (λ m : dict, m !! lit "title")) in H.
      vm_compute in H. discriminate H. }
  destruct (process_paper 3 zh ascii_digit monday down
              (Some [(url_a, monday)]) (Some {[url_a := entry_a]}) fresh_world)
    as [[r|e] w'] eqn:Hrun.
  - destruct (cache_hit_restores_fields _ _ _ _ _ _ _ _ _ _ _ Hhit Hrun)
      as (-> & d & -> & Hd).
    exists d. split; [done|].
    destruct Hd as (_ & _ & Hi & _ & _ & _ & _ & _ & Hp).
    rewrite Hi, Hp. split; vm_compute; reflexivity.
  - exfalso. revert Hrun.
    rewrite (process_paper_hit _ _ _ _ _ _ _ _ _ Hhit).
    destruct (restore_Ok zh monday (paper fresh_world) entry_a) as [d ->].
    + vm_compute. reflexivity.
    + vm_compute. by eexists.
    + vm_compute. by eexists.
    + vm_compute. done.
    + done.
Defined.

(** ** The listing: publication dates and the run of the workers *)

Lemma cache_hit_url (pd : option timestamps) (pc : option entries)
    (p p' c : dict) :
  p' !! lit "url" = p !! lit "url" → cache_hit pd pc p c → cache_hit pd pc p' c.
Proof.
  intros Hu (items & cache & url & ? & ? & Hp & ?). exists items, cache, url.
  by rewrite Hu.
Qed.

Lemma listing_record_frame (p p' : dict) :
  p' !! lit "title" = p !! lit "title" → p' !! lit "url" = p !! lit "url" →
  listing_record p → listing_record p'.
Proof.
  intros Ht Hu [Hlog [url Hurl]]. split.
  - rewrite <-Hlog. by apply log_title_frame.
  - exists url. by rewrite Hu.
Qed.

Section dates.
Variable pub_date_at : nat → str.

Lemma is_new_Ok (pd : option timestamps) (p : dict) url :
  p !! lit "url" = Some (VStr url) →
  is_new pd p = Ok (match pd with
                    | None => true
                    | Some items => negb (known url items)
                    end).
Proof.
  intros Hu. unfold is_new, getitem. destruct pd as [items|]; [|done].
  by rewrite Hu.
Qed.

Lemma new_papers_Ok (pd : option timestamps) papers :
  Forall listing_record papers → ∃ l, new_papers pd papers = Ok l.
Proof.
  induction 1 as [|p papers [_ [url Hu]] _ [l IH]]; simpl; [by eexists|].
  rewrite (is_new_Ok pd p url Hu). cbn [mbind result_bind]. rewrite IH.
  cbn [mbind result_bind]. by eexists.
Qed.

Lemma assign_pub_date_Ok (pd : option timestamps) (pc : option entries)
    (i : nat) (p : dict) (url : str) :
  p !! lit "url" = Some (VStr url) →
  pd = None ∨ is_Some pc →
  assign_pub_date pub_date_at pd pc i p = Ok (dated pub_date_at pd pc i url p).
Proof.
  intros Hu Hpc. unfold assign_pub_date, dated.
  rewrite (is_new_Ok pd p url Hu). cbn [mbind result_bind].
  destruct pd as [items|]; [|done].
  destruct (known url items); [|done]. simpl.
  unfold getitem. rewrite Hu. cbn [mbind result_bind]. simpl.
  destruct Hpc as [[=]|[cache ->]]. simpl.
  destruct (cache !! url) as [c|]; [|done]. simpl.
  by destruct (c !! lit "pub_date").
Qed.

Lemma dated_frame (pd : option timestamps) (pc : option entries)
    (i : nat) (url : str) (p : dict) (k : str) :
  k ≠ lit "pub_date" → dated pub_date_at pd pc i url p !! k = p !! k.
Proof.
  intros Hk. unfold dated. destruct pd as [items|].
  - destruct (known url items).
    + destruct pc as [cache|]; [|done]. destruct (cache !! url) as [c|]; [|done].
      destruct (c !! lit "pub_date"); [|done]. by rewrite lookup_insert_ne.
    + by rewrite lookup_insert_ne.
  - by rewrite lookup_insert_ne.
Qed.

Lemma assign_pub_dates_Ok (pd : option timestamps) (pc : option entries)
    (i : nat) (papers : list dict) :
  Forall listing_record papers →
  pd = None ∨ is_Some pc →
  ∃ papers',
    assign_pub_dates pub_date_at pd pc i papers = Ok papers' ∧
    length papers' = length papers ∧
    ∀ j p, papers !! j = Some p →
      ∃ url, p !! lit "url" = Some (VStr url) ∧
             papers' !! j = Some (dated pub_date_at pd pc (i + j) url p).
Proof.
  intros Hrec Hpc. revert i.
  induction Hrec as [|p papers [_ [url Hu]] _ IH]; intros i; simpl.
  - exists []. split_and!; [done..|]. by intros j p [=].
  - rewrite (assign_pub_date_Ok pd pc i p url Hu Hpc). cbn [mbind result_bind].
    destruct (IH (S i)) as (rest & -> & Hlen & Hrest). cbn [mbind result_bind].
    eexists. split_and!; [done|simpl; by rewrite Hlen|].
    intros [|j] q; simpl.
    + intros [= <-]. exists url. by rewrite Nat.add_0_r.
    + intros Hq. destruct (Hrest j q Hq) as (u & ? & ->). exists u.
      split; [done|]. do 2 f_equal. lia.
Qed.
End dates.

Lemma slot_logs (t : result returned * world) (d : dict) :
  slot t = Ok d → log_title d = Ok ().
Proof.
  destruct t as [[r|e] w]; unfold slot; simpl.
  - destruct r as [|b]; simpl.
    + destruct (log_title (paper w)) as [[]|] eqn:Hl; simpl; [|done].
      by intros [= <-].
    + destruct (log_title b) as [[]|] eqn:Hb; simpl; [by intros [= <-]|].
      destruct (log_title (paper w)) as [[]|] eqn:Hl; simpl; [|done].
      by intros [= <-].
  - destruct (log_title (paper w)) as [[]|] eqn:Hl; simpl; [|done].
    by intros [= <-].
Qed.

Section scrape.
Variable MAX_PAPERS : Z.
Variable MAX_RETRIES : Z.
Variable MAX_WORKERS : Z.
Variable TARGET_LANGUAGES : list str.
Variable isdecimal : char → bool.
Variable now : str.
Variable pub_date_at : nat → str.
Variable backend : nat → nat → result str.
Variable order : list nat.

Local Abbreviation task :=
  (task MAX_RETRIES TARGET_LANGUAGES isdecimal now backend).

Lemma task_log_title (pd : option timestamps) (pc : option entries)
    (i : nat) (p : dict) :
  log_title p = Ok () → log_title (paper (task pd pc i p).2) = Ok ().
Proof.
  intros Hlog. unfold Pipeline.task.
  destruct (process_paper _ _ _ _ _ _ _ _) as [r w'] eqn:Hrun. simpl.
  apply process_paper_spec in Hrun as (_ & Hframe & _).
  rewrite <-Hlog. apply log_title_frame.
  apply (Hframe (lit "title")), title_not_written.
Qed.

(** The slot of a paper that no cache entry serves is the paper itself, as
    its worker left it. *)
Lemma task_slot_fresh (pd : option timestamps) (pc : option entries)
    (i : nat) (p : dict) :
  listing_record p →
  (∀ c, ¬ cache_hit pd pc p c) →
  slot (task pd pc i p) = Ok (paper (task pd pc i p).2) ∧
  (task pd pc i p).1 = Ok ThePaper ∧
  ∀ k, ¬ written k → paper (task pd pc i p).2 !! k = p !! k.
Proof.
  intros Hrec Hmiss. pose proof Hrec as [Hlog _].
  destruct (fresh_worker_slot MAX_RETRIES TARGET_LANGUAGES isdecimal now
              (backend i) pd pc {| paper := p; trace := [] |} Hrec Hmiss)
    as (w' & Hrun & Hframe).
  unfold Pipeline.task. rewrite Hrun. split_and!; [|done..].
  unfold slot. simpl.
  assert (log_title (paper w') = Ok ()) as ->; [|done].
  rewrite <-Hlog. apply log_title_frame, Hframe, title_not_written.
Qed.

Lemma scrape_listing_slots
    (processed_dict : option timestamps) (paper_cache : option entries)
    (found : list dict) :
  Forall listing_record found →
  processed_dict = None ∨ is_Some paper_cache →
  (0 < MAX_WORKERS)%Z →
  order ≡ₚ seq 0 (length (slice_to MAX_PAPERS found)) →
  ∃ results,
    scrape_listing MAX_PAPERS MAX_RETRIES MAX_WORKERS TARGET_LANGUAGES isdecimal now
      pub_date_at backend order processed_dict paper_cache found = Ok results ∧
    length results = length (slice_to MAX_PAPERS found) ∧
    ∀ i paper0, slice_to MAX_PAPERS found !! i = Some paper0 →
      ∃ url d,
        paper0 !! lit "url" = Some (VStr url) ∧
        slot (task processed_dict paper_cache i
                (dated pub_date_at processed_dict paper_cache i url paper0)) = Ok d ∧
        results !! (length results - S i) = Some (Some d) ∧
        log_title d = Ok () ∧
        ((∀ c, ¬ cache_hit processed_dict paper_cache paper0 c) →
         let paper1 := dated pub_date_at processed_dict paper_cache i url paper0 in
         listing_record paper1 ∧
         (∀ c, ¬ cache_hit processed_dict paper_cache paper1 c) ∧
         d = paper (task processed_dict paper_cache i paper1).2).
Proof.
  intros Hfound Hpc Hpool Hperm. unfold scrape_listing.
  assert (Forall listing_record (slice_to MAX_PAPERS found)) as Hrec.
  { destruct (slice_to_prefix MAX_PAPERS found) as [n ->]. by apply Forall_take. }
  destruct (slice_to MAX_PAPERS found) as [|p0 rest] eqn:Hslice.
  { exists []. split_and!; [done..|]. by intros i paper0 [=]. }
  set (papers := p0 :: rest) in *.
  destruct (new_papers_Ok processed_dict papers Hrec) as [l ->].
  cbn [mbind result_bind].
  destruct (assign_pub_dates_Ok pub_date_at processed_dict paper_cache 0 papers
              Hrec Hpc) as (papers' & -> & Hlen & Hdated).
  cbn [mbind result_bind].
  unfold executor. destruct (Z.leb_spec MAX_WORKERS 0) as [?|_]; [lia|].
  cbn [mbind result_bind].
  destruct (collect_fills_slots order (imap (task processed_dict paper_cache) papers'))
    as (results & -> & Hlen' & Hslots).
  { by rewrite length_imap, Hlen. }
  { apply Forall_lookup. intros i t Ht. rewrite list_lookup_imap in Ht.
    destruct (papers' !! i) as [p'|] eqn:Hp'; [|done]. injection Ht as <-.
    apply task_log_title.
    assert (i < length papers) as Hi.
    { rewrite <-Hlen. by eapply lookup_lt_Some. }
    destruct (lookup_lt_is_Some_2 papers i Hi) as [p Hp].
    destruct (Hdated i p Hp) as (url & Hu & Hp'').
    rewrite Hp' in Hp''. injection Hp'' as ->.
    rewrite Forall_lookup in Hrec. destruct (Hrec i p Hp) as [Hlog _].
    rewrite <-Hlog. apply log_title_frame, dated_frame. lit_neq. }
  cbn [mbind result_bind]. rewrite length_imap, Hlen in Hlen'.
  exists (reverse results). rewrite length_reverse. split_and!; [done..|].
  intros i paper0 Hp.
  assert (i < length papers) as Hi by by eapply lookup_lt_Some.
  destruct (Hdated i paper0 Hp) as (url & Hu & Hp').
  simpl in Hp'.
  destruct (Hslots i (task processed_dict paper_cache i
                        (dated pub_date_at processed_dict paper_cache i url paper0)))
    as (d & Hd & Hres).
  { by rewrite list_lookup_imap, Hp'. }
  exists url, d. split_and!.
  - done.
  - done.
  - rewrite reverse_lookup by lia.
    replace (length results - S (length results - S i)) with i by lia. done.
  - by eapply slot_logs.
  - intros Hmiss.
    set (paper1 := dated pub_date_at processed_dict paper_cache i url paper0) in *.
    rewrite Forall_lookup in Hrec. pose proof (Hrec i paper0 Hp) as Hrec0.
    assert (listing_record paper1) as Hrec1.
    { eapply listing_record_frame; [| |exact Hrec0]; apply dated_frame; lit_neq. }
    assert (∀ c, ¬ cache_hit processed_dict paper_cache paper1 c) as Hmiss1.
    { intros c Hc. apply (Hmiss c). eapply cache_hit_url; [|exact Hc].
      symmetry. apply dated_frame. lit_neq. }
    split_and!; [done..|].
    destruct (task_slot_fresh processed_dict paper_cache i paper1 Hrec1 Hmiss1)
      as (Hd' & _).
    rewrite Hd in Hd'. by injection Hd' as <-.
Qed.

(** Without workers there is no pool: when [MAX_WORKERS] is zero or
    negative and a paper is listed, the dates are assigned and then
    [ThreadPoolExecutor] raises. *)
Lemma scrape_listing_without_workers
    (processed_dict : option timestamps) (paper_cache : option entries)
    (found : list dict) :
  Forall listing_record found →
  processed_dict = None ∨ is_Some paper_cache →
  (MAX_WORKERS ≤ 0)%Z →
  slice_to MAX_PAPERS found ≠ [] →
  scrape_listing MAX_PAPERS MAX_RETRIES MAX_WORKERS TARGET_LANGUAGES isdecimal now
    pub_date_at backend order processed_dict paper_cache found
  = Raise (ValueError "max_workers must be greater than 0").
Proof.
  intros Hfound Hpc Hpool Hsome. unfold scrape_listing.
  assert (Forall listing_record (slice_to MAX_PAPERS found)) as Hrec.
  { destruct (slice_to_prefix MAX_PAPERS found) as [n ->]. by apply Forall_take. }
  destruct (slice_to MAX_PAPERS found) as [|p0 rest] eqn:Hslice; [done|].
  destruct (new_papers_Ok processed_dict (p0 :: rest) Hrec) as [l ->].
  cbn [mbind result_bind].
  destruct (assign_pub_dates_Ok pub_date_at processed_dict paper_cache 0 (p0 :: rest)
              Hrec Hpc) as (papers' & -> & _).
  cbn [mbind result_bind].
  unfold executor. by destruct (Z.leb_spec MAX_WORKERS 0) as [_|?]; [|lia].
Qed.

(** From the parsed listing on, [scrape_papers] returns when [MAX_WORKERS]
    is positive: one record for each of the first [MAX_PAPERS] listed
    papers, none missing, in the reverse of the listing order; a paper
    that no cache entry serves comes out with the title and the link it was
    listed with.  When [MAX_WORKERS] is zero or negative and a paper is
    listed, the pool of line 404 cannot be built and [scrape_papers] raises
    [ValueError]. *)
Theorem scrape_listing_fills_every_slot
    (processed_dict : option timestamps) (paper_cache : option entries)
    (found : list dict) :
  Forall listing_record found →
  processed_dict = None ∨ is_Some paper_cache →
  order ≡ₚ seq 0 (length (slice_to MAX_PAPERS found)) →
  ((0 < MAX_WORKERS)%Z →
   ∃ results,
     scrape_listing MAX_PAPERS MAX_RETRIES MAX_WORKERS TARGET_LANGUAGES isdecimal now
       pub_date_at backend order processed_dict paper_cache found = Ok results ∧
     length results = length (slice_to MAX_PAPERS found) ∧
     ∀ i paper0, slice_to MAX_PAPERS found !! i = Some paper0 →
       ∃ d, results !! (length results - S i) = Some (Some d) ∧
            log_title d = Ok () ∧
            ((∀ c, ¬ cache_hit processed_dict paper_cache paper0 c) →
             d !! lit "title" = paper0 !! lit "title" ∧
             d !! lit "url" = paper0 !! lit "url")) ∧
  ((MAX_WORKERS ≤ 0)%Z →
   slice_to MAX_PAPERS found ≠ [] →
   scrape_listing MAX_PAPERS MAX_RETRIES MAX_WORKERS TARGET_LANGUAGES isdecimal now
     pub_date_at backend order processed_dict paper_cache found
   = Raise (ValueError "max_workers must be greater than 0")).
Proof.
  intros Hfound Hpc Hperm. split; [|by apply scrape_listing_without_workers].
  intros Hpool.
  destruct (scrape_listing_slots processed_dict paper_cache found Hfound Hpc Hpool Hperm)
    as (results & Hrun & Hlen & Hslots).
  exists results. split_and!; [done..|].
  intros i paper0 Hp.
  destruct (Hslots i paper0 Hp) as (url & d & Hu & _ & Hd & Hlog & Hfresh).
  exists d. split_and!; [done..|].
  intros Hmiss. destruct (Hfresh Hmiss) as (Hrec1 & Hmiss1 & ->).
  destruct (task_slot_fresh processed_dict paper_cache i _ Hrec1 Hmiss1)
    as (_ & _ & Hframe).
  split.
  - rewrite Hframe by apply title_not_written. apply dated_frame. lit_neq.
  - rewrite Hframe by apply url_not_written. apply dated_frame. lit_neq.
Qed.
End scrape.

(** C3. Whatever the order in which the workers finish, as long as every
    future is handed back once, the collection loop puts the outcome of the
    worker for listing position [i] at position [i].  [scrape_papers]
    returns that list reversed (line 420): of [n] papers, the outcome for
    listing position [i] is at position [n - 1 - i] of what it returns, and
    the outcome for position 0 is its last element.  (Every listed paper
    has a title and a link, so neither the log lines nor the loops before
    the pool raise; the pool needs [MAX_WORKERS] to be positive.) *)
Theorem collect_keeps_listing_order
    (MAX_PAPERS MAX_RETRIES MAX_WORKERS : Z) (TARGET_LANGUAGES : list str)
    (isdecimal : char → bool) (now : str) (pub_date_at : nat → str)
    (backend : nat → nat → result str) :
  (∀ (order : list nat) (tasks : list (result returned * world)),
     order ≡ₚ seq 0 (length tasks) →
     Forall (λ t, log_title (paper t.2) = Ok ()) tasks →
     ∃ results,
       collect order tasks = Ok results ∧
       length results = length tasks ∧
       ∀ i t, tasks !! i = Some t →
         ∃ d, slot t = Ok d ∧ results !! i = Some (Some d)) ∧
  (∀ (order : list nat) (processed_dict : option timestamps)
     (paper_cache : option entries) (found : list dict),
     Forall listing_record found →
     processed_dict = None ∨ is_Some paper_cache →
     (0 < MAX_WORKERS)%Z →
     order ≡ₚ seq 0 (length (slice_to MAX_PAPERS found)) →
     ∃ papers output,
       assign_pub_dates pub_date_at processed_dict paper_cache 0
         (slice_to MAX_PAPERS found) = Ok papers ∧
       scrape_listing MAX_PAPERS MAX_RETRIES MAX_WORKERS TARGET_LANGUAGES isdecimal
         now pub_date_at backend order processed_dict paper_cache found = Ok output ∧
       length output = length papers ∧
       (∀ i p, papers !! i = Some p →
          ∃ d, slot (task MAX_RETRIES TARGET_LANGUAGES isdecimal now backend
                       processed_dict paper_cache i p) = Ok d ∧
               output !! (length papers - S i) = Some (Some d)) ∧
       (∀ p, papers !! 0 = Some p →
          ∃ d, slot (task MAX_RETRIES TARGET_LANGUAGES isdecimal now backend
                       processed_dict paper_cache 0 p) = Ok d ∧
               last output = Some (Some d))).
Proof.
  split; [intros order tasks; apply collect_fills_slots|].
  intros order processed_dict paper_cache found Hfound Hpc Hpool Hperm.
  assert (Forall listing_record (slice_to MAX_PAPERS found)) as Hrec.
  { destruct (slice_to_prefix MAX_PAPERS found) as [n ->]. by apply Forall_take. }
  destruct (assign_pub_dates_Ok pub_date_at processed_dict paper_cache 0
              (slice_to MAX_PAPERS found) Hrec Hpc) as (papers & Hpapers & Hlen & Hdated).
  destruct (scrape_listing_slots MAX_PAPERS MAX_RETRIES MAX_WORKERS TARGET_LANGUAGES
              isdecimal now pub_date_at backend order processed_dict paper_cache found
              Hfound Hpc Hpool Hperm) as (output & Hrun & Hlen' & Hslots).
  assert (∀ i p, papers !! i = Some p →
            ∃ d, slot (task MAX_RETRIES TARGET_LANGUAGES isdecimal now backend
                         processed_dict paper_cache i p) = Ok d ∧
                 output !! (length papers - S i) = Some (Some d)) as Hall.
  { intros i p Hp.
    assert (i < length (slice_to MAX_PAPERS found)) as Hi.
    { rewrite <-Hlen. by eapply lookup_lt_Some. }
    destruct (lookup_lt_is_Some_2 _ i Hi) as [paper0 Hp0].
    destruct (Hdated i paper0 Hp0) as (url & Hu & Hp'). simpl in Hp'.
    rewrite Hp in Hp'. injection Hp' as ->.
    destruct (Hslots i paper0 Hp0) as (url' & d & Hu' & Hd & Hres & _).
    assert (url' = url) as -> by congruence.
    exists d. split; [done|]. by rewrite Hlen, <-Hlen'. }
  exists papers, output. split_and!; [done|done|congruence|done|].
  intros p Hp. destruct (Hall 0 p Hp) as (d & Hd & Hres).
  exists d. split; [done|].
  rewrite last_lookup. rewrite <-Hres. f_equal. rewrite Hlen', <-Hlen. lia.
Qed.

Lemma collect_keeps_listing_order_witness :
  (∃ results,
     collect [2; 0; 1] tasks_abc = Ok results ∧
     length results = length tasks_abc ∧
     ∀ i t, tasks_abc !! i = Some t →
       ∃ d, slot t = Ok d ∧ results !! i = Some (Some d)) ∧
  (∃ papers output,
     assign_pub_dates (λ _, monday) None None 0 (slice_to 100 papers_abc) = Ok papers ∧
     scrape_listing 100 3 5 zh ascii_digit monday (λ _, monday) (λ _, down) [2; 0; 1]
       None None papers_abc = Ok output ∧
     length output = length papers ∧
     (∀ i p, papers !! i = Some p →
        ∃ d, slot (task 3 zh ascii_digit monday (λ _, down) None None i p) = Ok d ∧
             output !! (length papers - S i) = Some (Some d)) ∧
     (∀ p, papers !! 0 = Some p →
        ∃ d, slot (task 3 zh ascii_digit monday (λ _, down) None None 0 p) = Ok d ∧
             last output = Some (Some d))).
Proof.
  destruct (collect_keeps_listing_order 100 3 5 zh ascii_digit monday (λ _, monday)
              (λ _, down)) as [Hcollect Hscrape].
  split.
  - apply Hcollect.
    + apply (bool_decide_unpack _). by vm_compute.
    + repeat (constructor; [by vm_compute|]). constructor.
  - apply Hscrape.
    + repeat (constructor;
                [split; [vm_compute; reflexivity|eexists; vm_compute; reflexivity]|]).
      constructor.
    + by left.
    + lia.
    + apply (bool_decide_unpack _). by vm_compute.
Defined.

Lemma scrape_listing_fills_every_slot_witness :
  (∃ results,
     scrape_listing 100 3 5 zh ascii_digit monday (λ _, monday) (λ _, down) [2; 0; 1]
       None None papers_abc = Ok results ∧
     length results = 3) ∧
  scrape_listing 100 3 0 zh ascii_digit monday (λ _, monday) (λ _, down) [2; 0; 1]
    None None papers_abc
  = Raise (ValueError "max_workers must be greater than 0").
Proof.
  assert (Forall listing_record papers_abc) as Hrec.
  { repeat (constructor;
              [split; [vm_compute; reflexivity|eexists; vm_compute; reflexivity]|]).
    constructor. }
  assert ([2; 0; 1] ≡ₚ seq 0 (length (slice_to 100 papers_abc))) as Hperm.
  { apply (bool_decide_unpack _). by vm_compute. }
  split.
  - destruct (scrape_listing_fills_every_slot 100 3 5 zh ascii_digit monday
                (λ _, monday) (λ _, down) [2; 0; 1] None None papers_abc
                Hrec (or_introl eq_refl) Hperm)
      as [Hpos _].
    destruct Hpos as (results & Hrun & Hlen & _); [lia|].
    exists results. split; [done|]. rewrite Hlen. reflexivity.
  - destruct (scrape_listing_fills_every_slot 100 3 0 zh ascii_digit monday
                (λ _, monday) (λ _, down) [2; 0; 1] None None papers_abc
                Hrec (or_introl eq_refl) Hperm)
      as [_ Hnone].
    apply Hnone; [lia|]. vm_compute. discriminate.
Defined.

(** The loop over the listing gives a paper whose identity is new the
    time of the run plus its position in seconds, and a paper seen before
    the publication date that the cache holds for it; a known paper without
    a cached date keeps what it has.  Nothing else of a paper changes. *)
Theorem pub_dates_follow_the_cache
    (pub_date_at : nat → str)
    (processed_dict : option timestamps) (paper_cache : option entries)
    (papers : list dict) :
  Forall listing_record papers →
  processed_dict = None ∨ is_Some paper_cache →
  ∃ papers',
    assign_pub_dates pub_date_at processed_dict paper_cache 0 papers = Ok papers' ∧
    length papers' = length papers ∧
    ∀ i p url, papers !! i = Some p → p !! lit "url" = Some (VStr url) →
      ∃ p', papers' !! i = Some p' ∧
        (∀ k, k ≠ lit "pub_date" → p' !! k = p !! k) ∧
        (is_new processed_dict p = Ok true →
         p' !! lit "pub_date" = Some (VStr (pub_date_at i))) ∧
        (is_new processed_dict p = Ok false →
         p' !! lit "pub_date" =
           match cached_pub_date paper_cache url with
           | Some d => Some d
           | None => p !! lit "pub_date"
           end).
Proof.
  intros Hrec Hpc.
  destruct (assign_pub_dates_Ok pub_date_at processed_dict paper_cache 0 papers
              Hrec Hpc) as (papers' & Hrun & Hlen & Hdated).
  exists papers'. split_and!; [done..|].
  intros i p url Hp Hu. destruct (Hdated i p Hp) as (url' & Hu' & Hp').
  assert (url' = url) as -> by congruence. simpl in Hp'.
  eexists. split; [done|]. split_and!.
  - intros k Hk. by apply dated_frame.
  - rewrite (is_new_Ok processed_dict p url Hu). unfold dated.
    destruct processed_dict as [items|]; [|by rewrite lookup_insert_eq].
    intros [= ->%negb_true_iff]. by rewrite lookup_insert_eq.
  - rewrite (is_new_Ok processed_dict p url Hu). unfold dated.
    destruct processed_dict as [items|]; [|done].
    intros [= ->%negb_false_iff]. unfold cached_pub_date.
    destruct paper_cache as [cache|]; simpl; [|done].
    destruct (cache !! url) as [c|]; simpl; [|done].
    destruct (c !! lit "pub_date"); [|done]. by rewrite lookup_insert_eq.
Qed.

Lemma pub_dates_follow_the_cache_witness :
  ∃ papers',
    assign_pub_dates (λ _, tuesday) (Some [(url_a, monday)])
      (Some {[url_a := entry_a]}) 0 [paper_a; paper_b] = Ok papers' ∧
    ∃ p', papers' !! 1 = Some p' ∧ p' !! lit "pub_date" = Some (VStr tuesday).
Proof.
  destruct (pub_dates_follow_the_cache (λ _, tuesday) (Some [(url_a, monday)])
              (Some {[url_a := entry_a]}) [paper_a; paper_b])
    as (papers' & Hrun & _ & Hall).
  - repeat (constructor;
              [split; [vm_compute; reflexivity|eexists; vm_compute; reflexivity]|]).
    constructor.
  - right. by eexists.
  - exists papers'. split; [done|].
    destruct (Hall 1 paper_b url_b) as (p' & Hp' & _ & Hnew & _).
    + reflexivity.
    + vm_compute. reflexivity.
    + exists p'. split; [done|]. apply Hnew. vm_compute. reflexivity.
Defined.

(** ** The listing: time stamps without a cache *)

Lemma assign_pub_dates_without_cache (pub_date_at : nat → str)
    (items : timestamps) (i : nat) (papers : list dict) :
  Forall listing_record papers →
  (∃ p url, p ∈ papers ∧ p !! lit "url" = Some (VStr url) ∧ url ∈ items.*1) →
  assign_pub_dates pub_date_at (Some items) None i papers
  = Raise (AttributeError "'NoneType' object has no attribute 'get'").
Proof.
  intros Hrec. revert i.
  induction Hrec as [|q papers [_ [u Hu]] Hrest IH]; intros i (p & url & Hin & Hurl & Hk).
  { by apply elem_of_nil in Hin. }
  simpl. unfold assign_pub_date. rewrite (is_new_Ok (Some items) q u Hu).
  cbn [mbind result_bind]. unfold getitem. rewrite Hu. cbn [mbind result_bind].
  unfold known. destruct (decide (u ∈ items.*1)) as [Hknown|Hnew].
  - rewrite bool_decide_true by done. done.
  - rewrite bool_decide_false by done. simpl.
    apply elem_of_cons in Hin as [->|Hin]; [congruence|].
    rewrite IH; [done|]. by exists p, url.
Qed.

(** [scrape_papers] can be called with the time stamps alone, the cache
    being left at its default [None]; it then raises [AttributeError] as
    soon as one of the listed identities has a time stamp. *)
Theorem scrape_needs_the_cache_for_known_papers
    (MAX_PAPERS MAX_RETRIES MAX_WORKERS : Z) (TARGET_LANGUAGES : list str)
    (isdecimal : char → bool) (now : str) (pub_date_at : nat → str)
    (backend : nat → nat → result str) (order : list nat)
    (items : timestamps) (found : list dict) (p : dict) (url : str) :
  Forall listing_record found →
  p ∈ slice_to MAX_PAPERS found →
  p !! lit "url" = Some (VStr url) →
  url ∈ items.*1 →
  scrape_listing MAX_PAPERS MAX_RETRIES MAX_WORKERS TARGET_LANGUAGES isdecimal now
    pub_date_at backend order (Some items) None found
  = Raise (AttributeError "'NoneType' object has no attribute 'get'").
Proof.
  intros Hfound Hin Hu Hknown. unfold scrape_listing.
  assert (Forall listing_record (slice_to MAX_PAPERS found)) as Hrec.
  { destruct (slice_to_prefix MAX_PAPERS found) as [n ->]. by apply Forall_take. }
  destruct (slice_to MAX_PAPERS found) as [|p0 rest] eqn:Hslice.
  { by apply elem_of_nil in Hin. }
  destruct (new_papers_Ok (Some items) (p0 :: rest) Hrec) as [l ->].
  cbn [mbind result_bind].
  rewrite assign_pub_dates_without_cache; [done..|]. by exists p, url.
Qed.

Lemma scrape_needs_the_cache_for_known_papers_witness :
  scrape_listing 100 3 5 zh ascii_digit monday (λ _, monday) (λ _, down) [0]
    (Some [(url_a, monday)]) None [paper_a]
  = Raise (AttributeError "'NoneType' object has no attribute 'get'").
Proof.
  apply (scrape_needs_the_cache_for_known_papers 100 3 5 zh ascii_digit monday
           (λ _, monday) (λ _, down) [0] [(url_a, monday)] [paper_a] paper_a url_a).
  - repeat (constructor;
              [split; [vm_compute; reflexivity|eexists; vm_compute; reflexivity]|]).
    constructor.
  - apply list_elem_of_here.
  - vm_compute. reflexivity.
  - apply list_elem_of_here.
Defined.

(** ** From one run to the next: what was saved is restored *)

Section entry.
Variable TARGET_LANGUAGES : list str.

Lemma per_language_lookup (prefix : string) (paper : dict) (lang : str) :
  lang ∈ TARGET_LANGUAGES →
  per_language TARGET_LANGUAGES prefix paper !! lang
  = Some (get paper (lit prefix ++ lang) (VStr [])).
Proof.
  unfold per_language.
  induction TARGET_LANGUAGES as [|x langs IH] using rev_ind; [by intros ?%elem_of_nil|].
  rewrite foldl_snoc. intros Hin.
  destruct (decide (lang = x)) as [->|Hne]; [by rewrite lookup_insert_eq|].
  rewrite lookup_insert_ne by done. apply IH.
  apply elem_of_app in Hin as [?|Hin]; [done|].
  by apply list_elem_of_singleton in Hin.
Qed.

Lemma cache_entry_inv (paper entry : dict) :
  cache_entry TARGET_LANGUAGES paper = Ok entry →
  ∃ title url,
    paper !! lit "title" = Some title ∧ paper !! lit "url" = Some url ∧
    entry =
      <[lit "title" := title]> $
      <[lit "url" := url]> $
      <[lit "institution" := get paper (lit "institution") (VStr (lit "N/A"))]> $
      <[lit "abstract" := get paper (lit "abstract") (VStr [])]> $
      <[lit "abstract_short" := get paper (lit "abstract_short") (VStr [])]> $
      <[lit "arxiv_abs" := get paper (lit "arxiv_abs") VNone]> $
      <[lit "arxiv_pdf" := get paper (lit "arxiv_pdf") VNone]> $
      <[lit "authors" := get paper (lit "authors") (VList [])]> $
      <[lit "pub_date" := get paper (lit "pub_date") VNone]> $
      <[lit "translations" :=
          VDict (<[lit "descriptions" :=
                     VDict (per_language TARGET_LANGUAGES "description_" paper)]> $
                 <[lit "abstract_fulls" :=
                     VDict (per_language TARGET_LANGUAGES "abstractFull_" paper)]> ∅)]>
      ∅.
Proof.
  unfold cache_entry, getitem.
  destruct (paper !! lit "title") as [title|]; [|done]. cbn [mbind result_bind].
  destruct (paper !! lit "url") as [url|]; [|done]. cbn [mbind result_bind].
  intros [= <-]. by exists title, url.
Qed.

(** An entry that the insertion loop has written is one that a cache hit
    can restore, and it gives back what the paper held. *)
Lemma cache_entry_restorable (paper entry : dict) :
  cache_entry TARGET_LANGUAGES paper = Ok entry →
  entry ≠ ∅ ∧ well_shaped entry ∧
  entry !! lit "title" = paper !! lit "title" ∧
  entry !! lit "url" = paper !! lit "url" ∧
  get entry (lit "abstract") (VStr []) = get paper (lit "abstract") (VStr []) ∧
  get entry (lit "abstract_short") (VStr [])
    = get paper (lit "abstract_short") (VStr []) ∧
  (∀ lang, lang ∈ TARGET_LANGUAGES →
     cached_translation entry "descriptions" lang
       = get paper (lit "description_" ++ lang) (VStr []) ∧
     cached_translation entry "abstract_fulls" lang
       = get paper (lit "abstractFull_" ++ lang) (VStr [])).
Proof.
  intros (title & url & Ht & Hu & ->)%cache_entry_inv. split_and!.
  - intros H. apply (f_equal (λ m : dict, m !! lit "title")) in H.
    by rewrite lookup_insert_eq, lookup_empty in H.
  - unfold well_shaped.
    rewrite !lookup_insert_ne, lookup_insert_eq by lit_neq.
    rewrite lookup_insert_eq.
    by rewrite lookup_insert_ne, lookup_insert_eq by lit_neq.
  - by rewrite lookup_insert_eq.
  - by rewrite lookup_insert_ne, lookup_insert_eq by lit_neq.
  - unfold get at 1. by rewrite !lookup_insert_ne, lookup_insert_eq by lit_neq.
  - unfold get at 1. by rewrite !lookup_insert_ne, lookup_insert_eq by lit_neq.
  - intros lang Hin. unfold cached_translation.
    rewrite !lookup_insert_ne, lookup_insert_eq by lit_neq.
    rewrite lookup_insert_eq.
    rewrite lookup_insert_ne, lookup_insert_eq by lit_neq.
    by rewrite !per_language_lookup.
Qed.
End entry.

Lemma merge_length (TARGET_LANGUAGES : list str) (current_time : str)
    (papers : list dict)
    (pd pd' : timestamps) (pc pc' : entries) :
  merge TARGET_LANGUAGES current_time papers (pd, pc) = Ok (pd', pc') →
  length pd' ≤ length pd + length papers.
Proof.
  revert pd pc. induction papers as [|paper papers IH]; intros pd pc; simpl.
  - intros [= <- <-]. lia.
  - destruct (merge_one _ _ (pd, pc) paper) as [[pd1 pc1]|] eqn:H1; simpl; [|done].
    intros H2%IH.
    apply merge_one_inv in H1 as (u & _ & [(_ & -> & _)|(_ & -> & _)]).
    + lia.
    + rewrite length_app in H2. simpl in H2. lia.
Qed.

(** What a run saves for a new paper serves the next run: when the cache
    has room for the listed papers and the file is written, the identity
    is a cache hit for any paper that is listed with it later, which is
    then restored without any call to the outside, with the title, the two
    abstracts and the translations that were saved. *)
Theorem saved_paper_is_restored_next_run
    (MAX_PROCESSED_RECORDS CACHE_VERSION MAX_RETRIES : Z)
    (TARGET_LANGUAGES : list str) (isdecimal : char → bool)
    (current_time now : str) (backend : nat → result str)
    (papers : list dict) (pd : timestamps) (pc : entries) (f f' : file)
    (c : timestamps * entries) (url : str) (w : world) :
  save_processed_papers MAX_PROCESSED_RECORDS CACHE_VERSION TARGET_LANGUAGES
    current_time true papers pd pc f = Ok (c, f') →
  (Z.of_nat (length pd + length papers) ≤ MAX_PROCESSED_RECORDS)%Z →
  listed url papers →
  url ∉ pd.*1 →
  paper w !! lit "url" = Some (VStr url) →
  log_title (paper w) = Ok () →
  ∃ d saved,
    process_paper MAX_RETRIES TARGET_LANGUAGES isdecimal now backend
      (Some (load_processed_papers CACHE_VERSION f').1)
      (Some (load_processed_papers CACHE_VERSION f').2) w
    = (Ok (Built d), w) ∧
    saved ∈ papers ∧ saved !! lit "url" = Some (VStr url) ∧
    d !! lit "title" = saved !! lit "title" ∧
    d !! lit "url" = Some (VStr url) ∧
    d !! lit "abstract" = Some (get saved (lit "abstract") (VStr [])) ∧
    d !! lit "abstract_short" = Some (get saved (lit "abstract_short") (VStr [])) ∧
    (∀ lang, lang ∈ TARGET_LANGUAGES →
       d !! (lit "description_" ++ lang)
         = Some (get saved (lit "description_" ++ lang) (VStr [])) ∧
       d !! (lit "abstractFull_" ++ lang)
         = Some (get saved (lit "abstractFull_" ++ lang) (VStr []))).
Proof.
  intros Hsave Hroom (listed_paper & Hin & Hlisted) Hnew Hu Hlog.
  rewrite (load_after_save _ _ _ _ _ _ _ _ _ _ Hsave).
  revert Hsave. unfold save_processed_papers.
  destruct (merge _ _ _ _) as [[pd1 pc1]|] eqn:Hmerge; cbn [mbind result_bind]; [|done].
  pose proof (merge_length _ _ _ _ _ _ _ Hmerge) as Hlen.
  unfold prune.
  assert ((MAX_PROCESSED_RECORDS <? Z.of_nat (length pd1))%Z = false) as -> by lia.
  intros [= <- <-]. cbn [fst snd].
  destruct (merge_known _ _ _ _ _ _ _ Hmerge listed_paper Hin) as (url' & Hu' & Hknown).
  assert (url' = url) as -> by congruence.
  destruct (merge_added _ _ _ _ _ _ _ url Hmerge Hknown Hnew)
    as (_ & saved & entry & Hsaved & Hsu & Hentry & Hpc).
  destruct (cache_entry_restorable _ _ _ Hentry)
    as (Hne & Hshape & Het & Heu & Ha & Has & Htr).
  assert (cache_hit (Some pd1) (Some pc1) (paper w) entry) as Hhit.
  { by exists pd1, pc1, url. }
  rewrite (process_paper_hit _ _ _ _ _ _ _ _ _ Hhit).
  destruct (restore_Ok TARGET_LANGUAGES now (paper w) entry) as [d Hd]; [done|..|done|].
  { rewrite Het. destruct (cache_entry_inv _ _ _ Hentry) as (t & _ & Ht & _).
    by rewrite Ht. }
  { rewrite Heu, Hsu. by eexists. }
  rewrite Hd. exists d, saved. split; [done|].
  destruct (restore_fields _ _ _ _ _ Hd) as (Hdt & Hdu & _ & Hda & Hdas & _).
  split_and!; [done|done|congruence|congruence|congruence|congruence|].
  intros lang Hlang.
  destruct (restore_spec _ _ _ _ _ Hd lang Hlang) as [-> ->].
  destruct (Htr lang Hlang) as [-> ->]. done.
Qed.

Lemma saved_paper_is_restored_next_run_witness :
  match save_processed_papers 500 1 zh tuesday true [paper_a; paper_b] [] ∅ Missing with
  | Ok (_, f') =>
      ∃ d,
        process_paper 3 zh ascii_digit monday down
          (Some (load_processed_papers 1 f').1)
          (Some (load_processed_papers 1 f').2) fresh_world
        = (Ok (Built d), fresh_world) ∧
        d !! lit "title" = Some (VStr (lit "Paper A"))
  | Raise _ => False
  end.
Proof.
  destruct (save_processed_papers 500 1 zh tuesday true [paper_a; paper_b] [] ∅ Missing)
    as [[c f']|e] eqn:Hsave.
  - destruct (saved_paper_is_restored_next_run 500 1 3 zh ascii_digit tuesday monday
                down [paper_a; paper_b] [] ∅ Missing f' c url_a fresh_world Hsave)
      as (d & saved & Hrun & Hin & Hsu & Ht & _).
    + simpl. lia.
    + exists paper_a. split; [apply list_elem_of_here|]. vm_compute. reflexivity.
    + by intros ?%elem_of_nil.
    + vm_compute. reflexivity.
    + vm_compute. reflexivity.
    + exists d. split; [done|]. rewrite Ht.
      apply elem_of_cons in Hin as [->|Hin]; [vm_compute; reflexivity|].
      apply list_elem_of_singleton in Hin as ->. vm_compute in Hsu. discriminate Hsu.
  - revert Hsave. unfold save_processed_papers.
    destruct (merge_Ok zh tuesday [paper_a; paper_b] ([], ∅)) as [c' ->]; [|done].
    repeat constructor; apply storable_listed_paper.
Defined.

(** ** The feed: which lists of papers can be rendered *)

Lemma traverse_Ok {A B} (f : A → result B) xs ys :
  traverse f xs = Ok ys ↔ Forall2 (λ x y, f x = Ok y) xs ys.
Proof.
  revert ys. induction xs as [|x xs IH]; intros ys; simpl.
  - split; [intros [= <-]; constructor|by intros ->%Forall2_nil_inv_l].
  - split.
    + destruct (f x) as [y|] eqn:Hx; cbn [mbind result_bind]; [|done].
      destruct (traverse f xs) as [ys'|] eqn:Hxs; cbn [mbind result_bind]; [|done].
      intros [= <-]. constructor; [done|]. by apply IH.
    + intros (y & ys' & Hy & Hys & ->)%Forall2_cons_inv_l.
      rewrite Hy. cbn [mbind result_bind].
      apply IH in Hys. rewrite Hys. done.
Qed.

Lemma traverse_is_Ok {A B} (f : A → result B) xs :
  (∃ ys, traverse f xs = Ok ys) ↔ Forall (λ x, ∃ y, f x = Ok y) xs.
Proof.
  induction xs as [|x xs IH]; simpl.
  - split; [constructor|by eexists].
  - split.
    + intros [ys H]. destruct (f x) as [y|] eqn:Hx; cbn [mbind result_bind] in H; [|done].
      destruct (traverse f xs) as [ys'|] eqn:Hxs; cbn [mbind result_bind] in H; [|done].
      constructor; [by eexists|]. apply IH. by eexists.
    + intros [[y Hy] [ys Hys]%IH]%Forall_cons. rewrite Hy, Hys. by eexists.
Qed.

Lemma traverse_unit_Ok {A} (f : A → result unit) xs :
  (∃ ys, traverse f xs = Ok ys) ↔ Forall (λ x, f x = Ok ()) xs.
Proof.
  rewrite traverse_is_Ok. apply Forall_proper; [|done].
  intros x. split; [by intros [[] ?]|by eexists].
Qed.

Lemma traverse_raises {A B} (f : A → result B) before x after e :
  Forall (λ x, ∃ y, f x = Ok y) before → f x = Raise e →
  traverse f (before ++ x :: after) = Raise e.
Proof.
  intros Hb Hx. induction Hb as [|b before [y Hy] _ IH]; simpl.
  - by rewrite Hx.
  - by rewrite Hy, IH.
Qed.

Lemma first_missing_None d :
  first_missing d = None ↔
  ∃ title link short full pub_date,
    d !! lit "title" = Some title ∧ d !! lit "url" = Some link ∧
    d !! lit "abstract_short" = Some short ∧ d !! lit "abstract" = Some full ∧
    d !! lit "pub_date" = Some pub_date.
Proof.
  unfold first_missing, required. cbn [List.find]. split.
  - repeat case_bool_decide; try done. intros _.
    destruct (d !! lit "title") as [title|]; [|done].
    destruct (d !! lit "url") as [link|]; [|done].
    destruct (d !! lit "abstract_short") as [short|]; [|done].
    destruct (d !! lit "abstract") as [full|]; [|done].
    destruct (d !! lit "pub_date") as [pub_date|]; [|done].
    by exists title, link, short, full, pub_date.
  - intros (title & link & short & full & pub_date & -> & -> & -> & -> & ->).
    by rewrite !bool_decide_false.
Qed.

Section feed.
Variable BASE_URL : str.
Variable TARGET_LANGUAGES : list str.
Variable RSS_FEED_URL : option str.
Variable build_date : str.
Variable repr : value → str.
Variable dict_slice_error : exn.
Variable cannot_serialize : value → str.

Local Abbreviation item_texts := (item_texts repr).
Local Abbreviation render_item :=
  (render_item TARGET_LANGUAGES repr dict_slice_error).
Local Abbreviation generate_rss :=
  (generate_rss BASE_URL TARGET_LANGUAGES RSS_FEED_URL build_date repr
     dict_slice_error cannot_serialize).

Lemma optional_Some (d : dict) (k : string) :
  optional (Some d) k
  = Ok (if truthy (get d (lit k) VNone) then Some (get d (lit k) VNone) else None).
Proof.
  unfold optional, lookup_or, subscript, getitem, get. cbn [mbind result_bind].
  destruct (d !! lit k) as [v|]; simpl; [|done]. by destruct (truthy v).
Qed.

(** The first loop on a paper that lacks one of the five keys. *)
Lemma item_texts_missing (d : dict) (k : str) :
  first_missing d = Some k → item_texts (Some d) = Raise (KeyError k).
Proof.
  unfold first_missing, required, Feed.item_texts, subscript, getitem.
  cbn [List.find].
  destruct (d !! lit "title"); [rewrite bool_decide_false by done|
    rewrite bool_decide_true by done; by intros [= <-]].
  destruct (d !! lit "url"); [rewrite bool_decide_false by done|
    rewrite bool_decide_true by done; by intros [= <-]].
  destruct (d !! lit "abstract_short"); [rewrite bool_decide_false by done|
    rewrite bool_decide_true by done; by intros [= <-]].
  destruct (d !! lit "abstract"); [rewrite bool_decide_false by done|
    rewrite bool_decide_true by done; by intros [= <-]].
  destruct (d !! lit "pub_date"); [rewrite bool_decide_false by done|
    rewrite bool_decide_true by done; by intros [= <-]].
  done.
Qed.

Lemma item_texts_complete (d : dict) title link short full pub_date :
  d !! lit "title" = Some title → d !! lit "url" = Some link →
  d !! lit "abstract_short" = Some short → d !! lit "abstract" = Some full →
  d !! lit "pub_date" = Some pub_date →
  item_texts (Some d)
  = Ok ([title; link;
         VStr (lit "<![CDATA[" ++ format repr short ++ lit "]]>");
         VStr (lit "<![CDATA[" ++ format repr full ++ lit "]]>");
         pub_date; link; get d (lit "institution") (VStr (lit "N/A"))]
        ++ option_list (if truthy (get d (lit "arxiv_abs") VNone)
                        then Some (get d (lit "arxiv_abs") VNone) else None)
        ++ option_list (if truthy (get d (lit "arxiv_pdf") VNone)
                        then Some (get d (lit "arxiv_pdf") VNone) else None)).
Proof.
  intros Ht Hu Hs Hf Hp. unfold Feed.item_texts.
  rewrite !optional_Some. unfold subscript, lookup_or, getitem.
  by rewrite Ht, Hu, Hs, Hf, Hp.
Qed.

Lemma item_texts_Ok (paper : option dict) :
  (∃ texts, item_texts paper = Ok texts) ↔
  ∃ d, paper = Some d ∧ first_missing d = None.
Proof.
  split.
  - intros [texts H]. destruct paper as [d|]; [|done]. exists d. split; [done|].
    destruct (first_missing d) as [k|] eqn:Hk; [|done].
    by rewrite (item_texts_missing d k Hk) in H.
  - intros (d & -> & (title & link & short & full & pub_date & Ht & Hu & Hs & Hf & Hp)
                       %first_missing_None).
    rewrite (item_texts_complete d title link short full pub_date) by done.
    by eexists.
Qed.

Lemma serializable_Ok (v : value) :
  serializable cannot_serialize v = Ok () ↔ writable v.
Proof.
  unfold serializable, writable.
  destruct v as [|t|l|m]; simpl; try done.
  - by case_bool_decide.
  - by case_bool_decide.
  - by case_bool_decide.
Qed.

Lemma writable_optional (v : value) :
  Forall writable (option_list (if truthy v then Some v else None)) ↔ writable v.
Proof.
  destruct (truthy v) eqn:Hv; simpl.
  - rewrite Forall_singleton. done.
  - split; [intros _|constructor]. unfold writable. by destruct v.
Qed.

Lemma translated_Ok (d : dict) (prefix source : string) (text : value) langs :
  d !! lit source = Some text →
  ∃ s, translated repr (Some d) prefix source langs = Ok s.
Proof.
  intros Hs. induction langs as [|lang langs [s IH]]; simpl; [by eexists|].
  rewrite IH. unfold getitem. rewrite Hs. cbn [mbind result_bind].
  destruct (d !! (lit prefix ++ lang)) as [v|]; cbn [mbind result_bind]; [|by eexists].
  case_bool_decide; cbn [mbind result_bind]; by eexists.
Qed.

Lemma authors_line_Ok (authors : value) :
  (∃ s, authors_line dict_slice_error authors = Ok s) ↔
  (∀ m, authors = VDict m → m = ∅).
Proof.
  unfold authors_line. destruct authors as [|t|l|m]; simpl.
  - split; [by intros _ m [=]|by eexists].
  - split; [by intros _ m [=]|]. intros _. case_bool_decide; by eexists.
  - split; [by intros _ m [=]|]. intros _. case_bool_decide; by eexists.
  - case_bool_decide as Hm.
    + split; [by intros [s [=]]|]. intros H. by destruct Hm, (H m).
    + split; [by intros _ m' [= <-]|by eexists].
Qed.

Lemma render_item_Ok (d : dict) :
  first_missing d = None →
  (∃ s, render_item (Some d) = Ok s) ↔
  (∀ m, get d (lit "authors") (VList []) = VDict m → m = ∅).
Proof.
  intros (title & link & short & full & pub_date & Ht & Hu & Hs & Hf & Hp)
           %first_missing_None.
  rewrite <-authors_line_Ok. unfold Feed.render_item.
  rewrite !optional_Some. unfold subscript, lookup_or, getitem.
  rewrite Ht, Hu, Hs, Hf, Hp. cbn [mbind result_bind].
  destruct (translated_Ok d "description_" "abstract_short" short TARGET_LANGUAGES Hs)
    as [s1 ->].
  destruct (translated_Ok d "abstractFull_" "abstract" full TARGET_LANGUAGES Hf)
    as [s2 ->].
  destruct (authors_line dict_slice_error _) as [a|e];
    cbn [mbind result_bind]; split; intros [s H]; by eexists.
Qed.

(** One paper goes through the three passes exactly when it is
    renderable. *)
Lemma renderable_passes (paper : option dict) :
  renderable paper ↔
  ∃ texts, item_texts paper = Ok texts ∧
           Forall (λ t, serializable cannot_serialize t = Ok ()) texts ∧
           ∃ s, render_item paper = Ok s.
Proof.
  split.
  - intros (d & -> & Hk & Wt & Wu & Wp & Wi & Wa & Wf & Ha).
    pose proof Hk as (title & link & short & full & pub_date & Ht & Hu & Hs & Hf & Hp)
                      %first_missing_None.
    eexists. split; [by apply item_texts_complete|]. split; [|by apply render_item_Ok].
    rewrite !Forall_app. split_and!.
    + repeat (constructor; [apply serializable_Ok; eauto; done|]). constructor.
    + eapply Forall_impl; [by apply writable_optional|]. intros v. apply serializable_Ok.
    + eapply Forall_impl; [by apply writable_optional|]. intros v. apply serializable_Ok.
  - intros (texts & Htexts & Hser & Hrender).
    destruct (proj1 (item_texts_Ok paper)) as (d & -> & Hk); [by eexists|].
    pose proof Hk as (title & link & short & full & pub_date & Ht & Hu & Hs & Hf & Hp)
                      %first_missing_None.
    rewrite (item_texts_complete d title link short full pub_date) in Htexts by done.
    injection Htexts as <-.
    cbn [app] in Hser.
    apply Forall_cons in Hser as [Wt%serializable_Ok Hser].
    apply Forall_cons in Hser as [Wu%serializable_Ok Hser].
    apply Forall_cons in Hser as [_ Hser].
    apply Forall_cons in Hser as [_ Hser].
    apply Forall_cons in Hser as [Wp%serializable_Ok Hser].
    apply Forall_cons in Hser as [_ Hser].
    apply Forall_cons in Hser as [Wi%serializable_Ok Hser].
    apply Forall_app in Hser as [H2 H3].
    exists d. split; [done|]. split; [done|].
    split_and!.
    + intros v. rewrite Ht. by intros [= <-].
    + intros v. rewrite Hu. by intros [= <-].
    + intros v. rewrite Hp. by intros [= <-].
    + done.
    + apply writable_optional. eapply Forall_impl; [exact H2|].
      intros v. apply serializable_Ok.
    + apply writable_optional. eapply Forall_impl; [exact H3|].
      intros v. apply serializable_Ok.
    + by apply render_item_Ok.
Qed.

Lemma generate_rss_Ok papers request_url :
  (∃ xml, generate_rss papers request_url = Ok xml) ↔ Forall renderable papers.
Proof.
  unfold Feed.generate_rss. split.
  - intros [xml H].
    destruct (traverse item_texts papers) as [texts|] eqn:Htexts;
      cbn [mbind result_bind] in H; [|done].
    destruct (traverse (serializable cannot_serialize) (concat texts)) as [u|] eqn:Hser;
      cbn [mbind result_bind] in H; [|done].
    destruct (traverse render_item papers) as [items|] eqn:Hitems;
      cbn [mbind result_bind] in H; [|done].
    apply traverse_Ok in Htexts.
    assert (Forall (λ t, serializable cannot_serialize t = Ok ()) (concat texts)) as Hall.
    { apply traverse_unit_Ok. by eexists. }
    rewrite Forall_concat in Hall.
    assert (Forall (λ p, ∃ s, render_item p = Ok s) papers) as Hren.
    { apply traverse_is_Ok. by eexists. }
    apply Forall_lookup. intros i p Hp. apply renderable_passes.
    destruct (Forall2_lookup_l _ _ _ _ _ Htexts Hp) as (t & Ht & Hpt).
    exists t. split; [done|]. split.
    + rewrite Forall_lookup in Hall. by eapply Hall.
    + rewrite Forall_lookup in Hren. by eapply Hren.
  - intros Hall.
    assert (Forall (λ p, ∃ texts, item_texts p = Ok texts) papers) as H1.
    { eapply Forall_impl; [exact Hall|].
      intros p (texts & ? & _)%renderable_passes. by eexists. }
    apply traverse_is_Ok in H1 as [texts Htexts]. rewrite Htexts.
    cbn [mbind result_bind].
    assert (Forall (λ t, serializable cannot_serialize t = Ok ()) (concat texts)) as H2.
    { apply Forall_concat, Forall_lookup. intros i t Ht.
      apply traverse_Ok in Htexts.
      destruct (Forall2_lookup_r _ _ _ _ _ Htexts Ht) as (p & Hp & Hpt).
      rewrite Forall_lookup in Hall.
      destruct (proj1 (renderable_passes p) (Hall i p Hp)) as (t' & Ht' & Hser & _).
      congruence. }
    apply traverse_unit_Ok in H2 as [u ->]. cbn [mbind result_bind].
    assert (Forall (λ p, ∃ s, render_item p = Ok s) papers) as H3.
    { eapply Forall_impl; [exact Hall|].
      by intros p (texts' & _ & _ & ?)%renderable_passes. }
    apply traverse_is_Ok in H3 as [items ->]. cbn [mbind result_bind]. by eexists.
Qed.

Lemma generate_rss_missing papers request_url :
  Forall is_Some papers →
  Exists (λ p, ∃ d, p = Some d ∧ first_missing d ≠ None) papers →
  ∃ k, generate_rss papers request_url = Raise (KeyError k).
Proof.
  intros Hsome Hex. unfold Feed.generate_rss.
  assert (∃ k, traverse item_texts papers = Raise (KeyError k)) as [k ->];
    [|by exists k].
  induction Hsome as [|p papers [d ->] _ IH]; [by apply Exists_nil in Hex|].
  simpl. destruct (first_missing d) as [k|] eqn:Hk.
  - exists k. by rewrite (item_texts_missing d k Hk).
  - destruct (proj2 (item_texts_Ok (Some d))) as [texts ->]; [by exists d|].
    cbn [mbind result_bind].
    destruct IH as [k ->]; [|by exists k].
    apply Exists_cons in Hex as [(d' & [= <-] & Hd')|Hex]; [congruence|done].
Qed.
End feed.

(** [generate_rss] returns a feed exactly for the lists of renderable
    papers: every paper is there and has the five keys [title], [url],
    [abstract_short], [abstract] and [pub_date]; its title, link, date,
    affiliation and arXiv links are strings or falsy; its authors are not a
    non-empty dictionary.  Otherwise it raises. *)
Theorem generate_rss_returns_iff_renderable
    (BASE_URL : str) (TARGET_LANGUAGES : list str) (RSS_FEED_URL : option str)
    (build_date : str) (repr : value → str) (dict_slice_error : exn)
    (cannot_serialize : value → str)
    (papers : list (option dict)) (request_url : option str) :
  (∃ xml, generate_rss BASE_URL TARGET_LANGUAGES RSS_FEED_URL build_date repr
            dict_slice_error cannot_serialize papers request_url = Ok xml)
  ↔ Forall renderable papers.
Proof. apply generate_rss_Ok. Qed.

(** A paper that lacks one of the five keys makes [generate_rss] raise
    [KeyError] for the first key it lacks, whatever comes after it in the
    list, provided the papers before it have all five. *)
Theorem generate_rss_raises_on_a_missing_key
    (BASE_URL : str) (TARGET_LANGUAGES : list str) (RSS_FEED_URL : option str)
    (build_date : str) (repr : value → str) (dict_slice_error : exn)
    (cannot_serialize : value → str)
    (before after : list (option dict)) (d : dict) (k : str)
    (request_url : option str) :
  Forall (λ p, ∃ d', p = Some d' ∧ first_missing d' = None) before →
  first_missing d = Some k →
  generate_rss BASE_URL TARGET_LANGUAGES RSS_FEED_URL build_date repr
    dict_slice_error cannot_serialize (before ++ Some d :: after) request_url
  = Raise (KeyError k).
Proof.
  intros Hbefore Hk. unfold generate_rss.
  rewrite (traverse_raises (item_texts repr) before (Some d) after (KeyError k)).
  - done.
  - eapply Forall_impl; [exact Hbefore|]. intros p Hp. by apply item_texts_Ok.
  - by apply item_texts_missing.
Qed.

(** ** The feed: a translation that says what the text says *)

Lemma traverse_at {A B} (f : A → result B) before x y after :
  f x = f y → traverse f (before ++ x :: after) = traverse f (before ++ y :: after).
Proof.
  intros Hxy. induction before as [|b before IH]; simpl; [by rewrite Hxy|].
  by rewrite IH.
Qed.

Section feed.
Variable TARGET_LANGUAGES : list str.
Variable repr : value → str.
Variable dict_slice_error : exn.

Lemma translated_delete (d : dict) (key : list N) (v : value)
    (prefix source : string) (langs : list str) :
  lit source ≠ key →
  (∀ lang, lit prefix ++ lang = key →
     d !! key = Some v ∧ d !! lit source = Some v) →
  translated repr (Some (delete key d)) prefix source langs
  = translated repr (Some d) prefix source langs.
Proof.
  intros Hs Hkey. induction langs as [|lang langs IH]; cbn [translated]; [done|].
  rewrite IH. f_equal.
  destruct (decide (lit prefix ++ lang = key)) as [Heq|Hne].
  - destruct (Hkey lang Heq) as [Hv Hsv]. rewrite Heq, lookup_delete_eq, Hv.
    unfold subscript, getitem. rewrite Hsv. cbn [mbind result_bind].
    by rewrite bool_decide_false by (by intros []).
  - rewrite lookup_delete_ne by done. unfold subscript, getitem.
    by rewrite lookup_delete_ne by done.
Qed.

Lemma item_delete (d : dict) (key : list N) (v : value) (prefix source : string)
    (lang : str) :
  (prefix = "description_" ∧ source = "abstract_short") ∨
  (prefix = "abstractFull_" ∧ source = "abstract") →
  key = lit prefix ++ lang →
  d !! key = Some v → d !! lit source = Some v →
  item_texts repr (Some (delete key d)) = item_texts repr (Some d) ∧
  render_item TARGET_LANGUAGES repr dict_slice_error (Some (delete key d))
  = render_item TARGET_LANGUAGES repr dict_slice_error (Some d).
Proof.
  intros Hpair -> Hv Hsv.
  assert (∀ k : string,
            k ∈ ["title"; "url"; "abstract_short"; "abstract"; "pub_date";
                 "institution"; "arxiv_abs"; "arxiv_pdf"; "authors"]%string →
            delete (lit prefix ++ lang) d !! lit k = d !! lit k) as Hfix.
  { intros k Hk. apply lookup_delete_ne.
    destruct Hpair as [[-> _]|[-> _]];
      repeat (apply elem_of_cons in Hk as [->|Hk]; [lit_neq|]);
      by apply elem_of_nil in Hk. }
  assert (∀ (p s : string),
            (p = "description_" ∧ s = "abstract_short") ∨
            (p = "abstractFull_" ∧ s = "abstract") →
            translated repr (Some (delete (lit prefix ++ lang) d)) p s TARGET_LANGUAGES
            = translated repr (Some d) p s TARGET_LANGUAGES) as Htr.
  { intros p s Hps. apply (translated_delete d _ v).
    - destruct Hps as [[_ ->]|[_ ->]], Hpair as [[-> _]|[-> _]]; lit_neq.
    - intros lang' Heq.
      destruct Hps as [[-> ->]|[-> ->]], Hpair as [[-> ->]|[-> ->]];
        first [done|exfalso; vm_compute in Heq; discriminate Heq]. }
  split.
  - unfold item_texts, optional, subscript, lookup_or, getitem, get.
    rewrite !Hfix by (repeat constructor). done.
  - unfold render_item, optional, subscript, lookup_or, getitem, get.
    rewrite !Hfix by (repeat constructor).
    rewrite !Htr by eauto. done.
Qed.
End feed.

(** A translated field that holds the very text it translates, as it
    does after every attempt to translate has failed, leaves no trace in
    the feed: the feed is the one of the same paper without that field. *)
Theorem identical_translation_is_left_out
    (BASE_URL : str) (TARGET_LANGUAGES : list str) (RSS_FEED_URL : option str)
    (build_date : str) (repr : value → str) (dict_slice_error : exn)
    (cannot_serialize : value → str)
    (before after : list (option dict)) (d : dict) (request_url : option str)
    (prefix source : string) (lang : str) (v : value) :
  (prefix = "description_" ∧ source = "abstract_short") ∨
  (prefix = "abstractFull_" ∧ source = "abstract") →
  d !! (lit prefix ++ lang) = Some v →
  d !! lit source = Some v →
  generate_rss BASE_URL TARGET_LANGUAGES RSS_FEED_URL build_date repr
    dict_slice_error cannot_serialize
    (before ++ Some (delete (lit prefix ++ lang) d) :: after) request_url
  = generate_rss BASE_URL TARGET_LANGUAGES RSS_FEED_URL build_date repr
      dict_slice_error cannot_serialize (before ++ Some d :: after) request_url.
Proof.
  intros Hpair Hv Hsv.
  destruct (item_delete TARGET_LANGUAGES repr dict_slice_error d _ v prefix source lang
              Hpair eq_refl Hv Hsv) as [Htexts Hrender].
  unfold generate_rss.
  rewrite (traverse_at (item_texts repr) before _ (Some d) after Htexts).
  by rewrite (traverse_at (render_item TARGET_LANGUAGES repr dict_slice_error)
                before _ (Some d) after Hrender).
Qed.

(** ** The whole run *)

Lemma pub_date_not_written : ¬ written (lit "pub_date").
Proof.
  intros [H|[lang [H|H]]].
  - vm_compute in H.
    repeat (apply elem_of_cons in H as [H|H]; [discriminate H|]).
    by apply elem_of_nil in H.
  - vm_compute in H. discriminate H.
  - vm_compute in H. discriminate H.
Qed.

(** What the extractor emits is a record that the workers accept, and it
    has no publication date yet. *)
Lemma record_shape_listing (d : dict) :
  record_shape d → listing_record d ∧ d !! lit "pub_date" = None.
Proof.
  intros (Hkeys & (href & _ & Hu) & (title & _ & _ & Ht) & _). split_and!.
  - split.
    + unfold log_title, getitem. by rewrite Ht.
    + by eexists.
  - destruct (d !! lit "pub_date") as [v|] eqn:Hv; [|done].
    assert (lit "pub_date" ∈ [lit "url"; lit "title"; lit "institution"]) as Hin.
    { apply Hkeys. by eexists. }
    vm_compute in Hin.
    repeat (apply elem_of_cons in Hin as [Hin|Hin]; [discriminate Hin|]).
    by apply elem_of_nil in Hin.
Qed.

Lemma first_missing_pub_date (d : dict) :
  d !! lit "pub_date" = None → first_missing d ≠ None.
Proof.
  intros Hd (? & ? & ? & ? & pub_date & _ & _ & _ & _ & Hp)%first_missing_None.
  congruence.
Qed.

Section main.
Variable BASE_URL : str.
Variable MAX_PAPERS : Z.
Variable MAX_RETRIES : Z.
Variable MAX_WORKERS : Z.
Variable MAX_PROCESSED_RECORDS : Z.
Variable CACHE_VERSION : Z.
Variable TARGET_LANGUAGES : list str.
Variable RSS_FEED_URL : option str.
Variable isdecimal : char → bool.
Variable tokenize : str → list event.
Variable repr : value → str.
Variable dict_slice_error : exn.
Variable cannot_serialize : value → str.
Variable now : str.
Variable pub_date_at : nat → str.
Variable build_date : str.
Variable current_time : str.
Variable listing_backend : nat → result str.
Variable backend : nat → nat → result str.
Variable order : list nat.
Variable feed_io : option exn.
Variable cache_written : bool.

Local Abbreviation main :=
  (main BASE_URL MAX_PAPERS MAX_RETRIES MAX_WORKERS MAX_PROCESSED_RECORDS CACHE_VERSION
     TARGET_LANGUAGES RSS_FEED_URL isdecimal tokenize repr dict_slice_error
     cannot_serialize now pub_date_at build_date current_time listing_backend
     backend order feed_io cache_written).
Local Abbreviation scrape_papers :=
  (scrape_papers BASE_URL MAX_PAPERS MAX_RETRIES MAX_WORKERS TARGET_LANGUAGES
     isdecimal now tokenize pub_date_at listing_backend backend order).

Lemma scrape_papers_parsed (html : str)
    (processed_dict : option timestamps) (paper_cache : option entries) :
  listing_parsed MAX_RETRIES tokenize listing_backend html →
  scrape_papers processed_dict paper_cache
  = scrape_listing MAX_PAPERS MAX_RETRIES MAX_WORKERS TARGET_LANGUAGES isdecimal now
      pub_date_at backend order processed_dict paper_cache
      (papers (feed (tokenize html) init).1).
Proof.
  intros [(k & Hk & Hfail & Hok) Hparse]. unfold Pipeline.scrape_papers.
  rewrite (fetch_first_success MAX_RETRIES listing_backend BASE_URL
             {| paper := ∅; trace := [] |} k html); [|done..].
  cbn [fst mbind result_bind].
  destruct (feed (tokenize html) init) as [parser o]. simpl in Hparse. by subst o.
Qed.

Lemma known_paper_without_entry (html : str) (pd : timestamps) (pc : entries)
    (p : dict) (url : str) :
  listing_parsed MAX_RETRIES tokenize listing_backend html →
  (0 < MAX_WORKERS)%Z →
  order ≡ₚ seq 0 (length (slice_to MAX_PAPERS (papers (feed (tokenize html) init).1))) →
  p ∈ slice_to MAX_PAPERS (papers (feed (tokenize html) init).1) →
  p !! lit "url" = Some (VStr url) →
  url ∈ pd.*1 →
  pc !! url = None ∨ pc !! url = Some ∅ →
  ∃ r results d,
    scrape_papers (Some pd) (Some pc) = Ok (r :: results) ∧
    Forall is_Some (r :: results) ∧
    Some d ∈ r :: results ∧ d !! lit "pub_date" = None.
Proof.
  intros Hparsed Hpool Hperm Hin Hu Hknown Hentry.
  rewrite (scrape_papers_parsed html) by done.
  set (found := papers (feed (tokenize html) init).1) in *.
  assert (Forall record_shape found) as Hshape.
  { apply (feed_shape (tokenize html) init). split; [constructor|]. by intros d [=]. }
  assert (Forall listing_record found) as Hrec.
  { eapply Forall_impl; [exact Hshape|]. by intros d [? _]%record_shape_listing. }
  destruct (scrape_listing_slots MAX_PAPERS MAX_RETRIES MAX_WORKERS TARGET_LANGUAGES
              isdecimal now pub_date_at backend order (Some pd) (Some pc) found Hrec)
    as (results & -> & Hlen & Hslots); [right; by eexists|done|done|].
  apply list_elem_of_lookup_1 in Hin as [i Hi].
  destruct (Hslots i p Hi) as (url' & d & Hu' & _ & Hd & _ & Hfresh).
  assert (url' = url) as -> by congruence.
  assert (d !! lit "pub_date" = None) as Hdate.
  { destruct Hfresh as (Hrec1 & Hmiss1 & ->).
    { intros c (items & cache & u & [= <-] & [= <-] & Hpu & _ & Hc & Hne).
      assert (u = url) as -> by congruence.
      destruct Hentry as [He|He]; rewrite He in Hc; [done|]. by injection Hc as <-. }
    destruct (task_slot_fresh MAX_RETRIES TARGET_LANGUAGES isdecimal now backend
                (Some pd) (Some pc) i _ Hrec1 Hmiss1) as (_ & _ & ->);
      [|apply pub_date_not_written].
    unfold dated, known. rewrite bool_decide_true by done.
    assert (p !! lit "pub_date" = None) as Hp.
    { assert (p ∈ found) as Hp.
      { destruct (slice_to_prefix MAX_PAPERS found) as [n Hn]. rewrite Hn in Hi.
        eapply elem_of_take_elem, list_elem_of_lookup_2. exact Hi. }
      rewrite Forall_forall in Hshape.
      by destruct (record_shape_listing p (Hshape p Hp)). }
    destruct Hentry as [-> | ->]; [done|]. by rewrite lookup_empty. }
  destruct results as [|r results].
  { simpl in Hlen. apply lookup_lt_Some in Hi. lia. }
  exists r, results, d. split_and!; [done| | |done].
  - apply Forall_lookup. intros j x Hj.
    assert (j < length (r :: results)) as Hlt by by eapply lookup_lt_Some.
    destruct (lookup_lt_is_Some_2 (slice_to MAX_PAPERS found)
                (length (r :: results) - S j)) as [q Hq]; [lia|].
    destruct (Hslots _ q Hq) as (_ & dq & _ & _ & Hdq & _).
    replace (length (r :: results) - S (length (r :: results) - S j)) with j in Hdq
      by lia.
    rewrite Hj in Hdq. injection Hdq as ->. by eexists.
  - by eapply list_elem_of_lookup_2.
Qed.
End main.

(** A listed paper whose identity has a time stamp but no cache entry (or
    an empty one) stops the run.  With [MAX_WORKERS] positive, so that the
    workers run, neither the listing loop nor the worker gives it a
    publication date, [generate_rss] raises [KeyError], and [main] exits
    with status 1 before the feed or the cache is written. *)
Theorem known_paper_without_entry_stops_the_run
    (BASE_URL : str)
    (MAX_PAPERS MAX_RETRIES MAX_WORKERS MAX_PROCESSED_RECORDS CACHE_VERSION : Z)
    (TARGET_LANGUAGES : list str) (RSS_FEED_URL : option str)
    (isdecimal : char → bool) (tokenize : str → list event)
    (repr : value → str) (dict_slice_error : exn) (cannot_serialize : value → str)
    (now : str) (pub_date_at : nat → str) (build_date current_time : str)
    (listing_backend : nat → result str) (backend : nat → nat → result str)
    (order : list nat) (feed_io : option exn) (cache_written : bool)
    (d : disk) (html : str) (p : dict) (url : str) :
  listing_parsed MAX_RETRIES tokenize listing_backend html →
  (0 < MAX_WORKERS)%Z →
  order ≡ₚ seq 0 (length (slice_to MAX_PAPERS (papers (feed (tokenize html) init).1))) →
  p ∈ slice_to MAX_PAPERS (papers (feed (tokenize html) init).1) →
  p !! lit "url" = Some (VStr url) →
  url ∈ (load_processed_papers CACHE_VERSION (cache_file d)).1.*1 →
  (load_processed_papers CACHE_VERSION (cache_file d)).2 !! url = None ∨
  (load_processed_papers CACHE_VERSION (cache_file d)).2 !! url = Some ∅ →
  ∃ key,
    main BASE_URL MAX_PAPERS MAX_RETRIES MAX_WORKERS MAX_PROCESSED_RECORDS
      CACHE_VERSION TARGET_LANGUAGES RSS_FEED_URL isdecimal tokenize repr
      dict_slice_error cannot_serialize now pub_date_at build_date current_time
      listing_backend backend order feed_io cache_written d
    = (Exit1 (KeyError key), d).
Proof.
  intros Hparsed Hpool Hperm Hin Hu Hknown Hentry. unfold main.
  destruct (load_processed_papers CACHE_VERSION (cache_file d)) as [pd pc].
  cbn [fst snd] in Hknown, Hentry.
  destruct (known_paper_without_entry BASE_URL MAX_PAPERS MAX_RETRIES MAX_WORKERS
              TARGET_LANGUAGES isdecimal tokenize now pub_date_at listing_backend
              backend order html pd pc p url)
    as (r & results & d' & -> & Hsome & Hd' & Hdate); [done..|].
  destruct (generate_rss_missing BASE_URL TARGET_LANGUAGES RSS_FEED_URL build_date
              repr dict_slice_error cannot_serialize (r :: results) None Hsome)
    as [key ->]; [|by exists key].
  apply Exists_exists. exists (Some d'). split; [done|].
  exists d'. split; [done|]. by apply first_missing_pub_date.
Qed.

(** Sample data of the feed *)

Lemma ready_paper_renderable : renderable (Some ready_paper).
Proof.
  exists ready_paper. split; [done|]. split_and!.
  - vm_compute. reflexivity.
  - intros v Hv. vm_compute in Hv. by injection Hv as <-.
  - intros v Hv. vm_compute in Hv. by injection Hv as <-.
  - intros v Hv. vm_compute in Hv. by injection Hv as <-.
  - vm_compute. done.
  - vm_compute. reflexivity.
  - vm_compute. reflexivity.
  - intros m Hm. vm_compute in Hm. discriminate Hm.
Qed.

Lemma generate_rss_returns_iff_renderable_witness :
  ∃ xml,
    generate_rss (lit "https://huggingface.co/papers") zh None monday (λ _, [])
      slice_error (λ _, []) [Some ready_paper] None = Ok xml.
Proof.
  apply generate_rss_returns_iff_renderable.
  constructor; [apply ready_paper_renderable|constructor].
Defined.

Lemma generate_rss_raises_on_a_missing_key_witness :
  generate_rss (lit "https://huggingface.co/papers") zh None monday (λ _, [])
    slice_error (λ _, []) ([Some ready_paper] ++ Some paper_a :: []) None
  = Raise (KeyError (lit "abstract_short")).
Proof.
  apply generate_rss_raises_on_a_missing_key.
  - constructor; [|constructor]. exists ready_paper. split; [done|].
    vm_compute. reflexivity.
  - vm_compute. reflexivity.
Defined.

Lemma identical_translation_is_left_out_witness :
  generate_rss (lit "https://huggingface.co/papers") zh None monday (λ _, [])
    slice_error (λ _, [])
    ([] ++ Some (delete (lit "description_" ++ lit "zh-CN") untranslated_paper) :: [])
    None
  = generate_rss (lit "https://huggingface.co/papers") zh None monday (λ _, [])
      slice_error (λ _, []) ([] ++ Some untranslated_paper :: []) None.
Proof.
  apply (identical_translation_is_left_out _ _ _ _ _ _ _ [] [] untranslated_paper None
           "description_" "abstract_short" (lit "zh-CN") (VStr (lit "Short."))).
  - by left.
  - vm_compute. reflexivity.
  - vm_compute. reflexivity.
Defined.

Lemma known_paper_without_entry_stops_the_run_witness :
  ∃ key,
    main (lit "https://huggingface.co/papers") 100 3 5 500 1 zh None ascii_digit
      (λ _, listing_events) (λ _, []) slice_error (λ _, []) monday (λ _, monday)
      monday tuesday (λ _, Ok (lit "<html>")) (λ _, bare_page) [0] None true
      stale_disk
    = (Exit1 (KeyError key), stale_disk).
Proof.
  apply (known_paper_without_entry_stops_the_run _ _ _ _ _ _ _ _ _ _ _ _ _ _ _ _ _ _ _
           _ _ _ stale_disk (lit "<html>")
           (default ∅ (head (papers (feed listing_events init).1))) url_a).
  - split.
    + exists 0. split_and!; [simpl; lia| |reflexivity]. intros j Hj. lia.
    + vm_compute. reflexivity.
  - lia.
  - apply (bool_decide_unpack _). vm_compute. reflexivity.
  - apply (bool_decide_unpack _). vm_compute. reflexivity.
  - vm_compute. reflexivity.
  - apply (bool_decide_unpack _). vm_compute. reflexivity.
  - left. vm_compute. reflexivity.
Defined.

(** ** The whole run, from an empty cache *)


Section worker.
Variable MAX_RETRIES : Z.
Variable TARGET_LANGUAGES : list str.
Variable isdecimal : char → bool.
Variable backend : nat → result str.

Local Abbreviation process_fresh :=
  (process_fresh MAX_RETRIES TARGET_LANGUAGES isdecimal backend).

End worker.


Section main.
Variable BASE_URL : str.
Variable MAX_PAPERS : Z.
Variable MAX_RETRIES : Z.
Variable MAX_WORKERS : Z.
Variable MAX_PROCESSED_RECORDS : Z.
Variable CACHE_VERSION : Z.
Variable TARGET_LANGUAGES : list str.
Variable RSS_FEED_URL : option str.
Variable isdecimal : char → bool.
Variable tokenize : str → list event.
Variable repr : value → str.
Variable dict_slice_error : exn.
Variable cannot_serialize : value → str.
Variable now : str.
Variable pub_date_at : nat → str.
Variable build_date : str.
Variable current_time : str.
Variable listing_backend : nat → result str.
Variable backend : nat → nat → result str.
Variable order : list nat.
Variable feed_io : option exn.
Variable cache_written : bool.

Local Abbreviation scrape_papers :=
  (scrape_papers BASE_URL MAX_PAPERS MAX_RETRIES MAX_WORKERS TARGET_LANGUAGES
     isdecimal now tokenize pub_date_at listing_backend backend order).


End main.


